(** * Expense management: the aggregation, import/export and editing core

    A shallow embedding of the pure parts of the expense tracker
    (types.ts, constants.ts, App.tsx, components/Analytics.tsx,
    components/Dashboard.tsx, components/TransactionList.tsx and
    components/TransactionForm.tsx) together with the properties its
    specification states about them.

    Conventions of the embedding.
    - [amount : number] is a whole number of currency units (the form
      reads it with [parseInt], the mock data with [Math.floor]); it is
      modelled as [Z].  The sums of the views are given in exact
      arithmetic, which is what the doubles of the platform compute as
      long as the sizes of the amounts add up to less than 2^53;
      [Double] and [InDoubles] have the rounding, and the theorems on
      regrouped sums and on the texts of amounts carry the bound as a
      hypothesis.
    - Quotients ([percentChange], [daysDiff]) are modelled in [Q].
    - A JavaScript string is modelled as a [string] (a sequence of
      8-bit code units); relational operators on strings compare code
      units lexicographically, as [String.leb] does.
    - A [Date] is its time value: milliseconds since the epoch, UTC.
      [new Date(text)] is modelled for calendar dates (YYYY-MM-DD); the
      theorems on the periods are about transactions so dated. *)

From Stdlib Require Import ZArith QArith Bool List Ascii String Lia.
From Stdlib Require Import Permutation Sorted Qabs Lqa.
From Stdlib Require Import DecimalString DecimalZ DecimalPos DecimalFacts.
Import ListNotations.

Local Open Scope Z_scope.

(** ** types.ts *)

Inductive TransactionType : Set := expense | income.

(** The category ["income"] is spelled [income_category]: the constructor
    name [income] is taken by [TransactionType]. *)
Inductive Category : Set :=
| food | transport | utilities | shopping | entertainment
| health | education | income_category | other.

Record Transaction : Set := mkTransaction {
  id : string;
  amount : Z;
  type : TransactionType;
  category : Category;
  date : string;   (* ISO string YYYY-MM-DD *)
  note : string
}.

Inductive DateFilter : Set := week | month | year | all | custom.

Definition TransactionType_eqb (a b : TransactionType) : bool :=
  match a, b with
  | expense, expense | income, income => true
  | _, _ => false
  end.

Definition Category_eqb (a b : Category) : bool :=
  match a, b with
  | food, food | transport, transport | utilities, utilities
  | shopping, shopping | entertainment, entertainment
  | health, health | education, education
  | income_category, income_category | other, other => true
  | _, _ => false
  end.

(** [Array.prototype.reduce((sum, t) => sum + t.amount, 0)]. *)
Definition sumAmounts (l : list Transaction) : Z :=
  fold_left (fun sum t => sum + amount t) l 0.

(** ** constants.ts: thousands separators for the amount input *)

Module Constants.

Local Open Scope string_scope.

(** The character class [\d]. *)
Definition isDigit (c : ascii) : bool :=
  (48 <=? nat_of_ascii c)%nat && (nat_of_ascii c <=? 57)%nat.

(** The character class [\w]: letters, digits and the underscore. *)
Definition isWordChar (c : ascii) : bool :=
  let n := nat_of_ascii c in
  ((48 <=? n) && (n <=? 57) || (65 <=? n) && (n <=? 90)
   || (97 <=? n) && (n <=? 122) || (n =? 95))%nat.

(** [value.replace(/\D/g, "")] *)
Fixpoint removeNonDigits (value : string) : string :=
  match value with
  | EmptyString => EmptyString
  | String c rest =>
      if isDigit c then String c (removeNonDigits rest)
      else removeNonDigits rest
  end.

Definition startsWithDigit (s : string) : bool :=
  match s with
  | String c _ => isDigit c
  | EmptyString => false
  end.

(** The lookahead [(?=(\d{3})+(?!\d))] tried at the start of [s]: one
    group of three digits, after which either no digit follows or the
    groups go on. *)
Fixpoint lookahead (s : string) : bool :=
  match s with
  | String a (String b (String c rest)) =>
      isDigit a && isDigit b && isDigit c
      && (negb (startsWithDigit rest) || lookahead rest)
  | _ => false
  end.

(** The assertion [\B] between the character [prev] before the position
    and the text [s] after it: both sides are word characters or neither
    is (the outside of the string counts as not a word character). *)
Definition notWordBoundary (prev : option ascii) (s : string) : bool :=
  Bool.eqb
    (match prev with Some c => isWordChar c | None => false end)
    (match s with String c _ => isWordChar c | EmptyString => false end).

(** [s.replace(/\B(?=(\d{3})+(?!\d))/g, ",")]: the pattern matches the
    empty string, so every position of the text is tried once and a comma
    is inserted where it matches. *)
Fixpoint insertCommas (prev : option ascii) (s : string) : string :=
  let here :=
    if notWordBoundary prev s && lookahead s
    then "," else "" in
  match s with
  | EmptyString => here
  | String c rest => here ++ String c (insertCommas (Some c) rest)
  end.

Definition formatInputNumber (value : string) : string :=
  if String.eqb value "" then ""
  else
    let cleanValue := removeNonDigits value in
    insertCommas None cleanValue.

(** [amountStr.replace(/,/g, '')], the first step of the form's
    [handleSubmit] (components/TransactionForm.tsx). *)
Fixpoint removeCommas (amountStr : string) : string :=
  match amountStr with
  | EmptyString => EmptyString
  | String c rest =>
      if Ascii.eqb c ","%char then removeCommas rest
      else String c (removeCommas rest)
  end.

(** The digit characters of a text, in order. *)
Fixpoint digitsOf (s : string) : list ascii :=
  match s with
  | EmptyString => []
  | String c rest => if isDigit c then c :: digitsOf rest else digitsOf rest
  end.

(** A text of digits only. *)
Fixpoint allDigits (s : string) : bool :=
  match s with
  | EmptyString => true
  | String c rest => isDigit c && allDigits rest
  end.

End Constants.

(** ** The [Date] built-in, as far as the views use it *)

Module JSDate.

Definition MS_PER_DAY : Z := 1000 * 3600 * 24.

Definition isLeapYear (y : Z) : bool :=
  ((y mod 4 =? 0) && negb (y mod 100 =? 0)) || (y mod 400 =? 0).

Definition daysInMonth (y m : Z) : Z :=
  if m =? 2 then (if isLeapYear y then 29 else 28)
  else if (m =? 4) || (m =? 6) || (m =? 9) || (m =? 11) then 30
  else 31.

(** Day number (days since 1970-01-01) of a civil date of the
    proleptic Gregorian calendar; [m] is 1..12. *)
Definition daysFromCivil (y m d : Z) : Z :=
  let y' := if m <=? 2 then y - 1 else y in
  let era := y' / 400 in
  let yoe := y' - era * 400 in
  let mp := (m + 9) mod 12 in
  let doy := (153 * mp + 2) / 5 + d - 1 in
  let doe := yoe * 365 + yoe / 4 - yoe / 100 + doy in
  era * 146097 + doe - 719468.

(** The civil date (year, month 1..12, day) of a day number. *)
Definition civilFromDays (z : Z) : Z * Z * Z :=
  let z' := z + 719468 in
  let era := z' / 146097 in
  let doe := z' - era * 146097 in
  let yoe := (doe - doe / 1460 + doe / 36524 - doe / 146096) / 365 in
  let doy := doe - (365 * yoe + yoe / 4 - yoe / 100) in
  let mp := (5 * doy + 2) / 153 in
  let d := doy - (153 * mp + 2) / 5 + 1 in
  let m := if mp <? 10 then mp + 3 else mp - 9 in
  let y := yoe + era * 400 in
  (if m <=? 2 then y + 1 else y, m, d).

Definition digitValue (c : ascii) : option Z :=
  if Constants.isDigit c then Some (Z.of_nat (nat_of_ascii c) - 48)
  else None.

(** A run of decimal digits read as a number; [None] when a character
    is not a digit. *)
Fixpoint readDigits (acc : Z) (s : list ascii) : option Z :=
  match s with
  | [] => Some acc
  | c :: rest =>
      match digitValue c with
      | Some v => readDigits (10 * acc + v) rest
      | None => None
      end
  end.

(** The fields of a date-only text [YYYY-MM-DD]. *)
Definition parseFields (s : string) : option (Z * Z * Z) :=
  match list_ascii_of_string s with
  | [y1; y2; y3; y4; s1; m1; m2; s2; dy1; dy2] =>
      if Ascii.eqb s1 "-"%char && Ascii.eqb s2 "-"%char then
        match readDigits 0 [y1; y2; y3; y4],
              readDigits 0 [m1; m2], readDigits 0 [dy1; dy2] with
        | Some y, Some m, Some d =>
            if (1 <=? m) && (m <=? 12) && (1 <=? d) && (d <=? daysInMonth y m)
            then Some (y, m, d) else None
        | _, _, _ => None
        end
      else None
  | _ => None
  end.

(** Day number of a date-only text; [None] for any other text. *)
Definition dayNumber (s : string) : option Z :=
  match parseFields s with
  | Some (y, m, d) => Some (daysFromCivil y m d)
  | None => None
  end.

(** [new Date(s).getTime()] for the date-only form the [Transaction.date]
    field is declared to hold: the text is read as midnight UTC of that
    day.  [None] stands for [NaN], the time value of an invalid date
    (other forms of text are not modelled and count as invalid). *)
Definition parse (s : string) : option Z :=
  match dayNumber s with
  | Some n => Some (n * MS_PER_DAY)
  | None => None
  end.

(** The wall clock and the time zone: the current instant [now], and the
    offset of local time from UTC (local = UTC + offset), in
    milliseconds.  [tzOffset] is the offset in force now; the views read
    the local fields of every instant with it.  [localTZA t] is the offset
    in force at the local time [t], by which [setDate] takes the local
    time it has built back to UTC: it differs from [tzOffset] when
    daylight saving time began or ended in between. *)
Record Clock : Set := mkZonedClock {
  now : Z;
  tzOffset : Z;
  localTZA : Z -> Z
}.

(** The clock of a zone whose offset never changes. *)
Definition mkClock (now tzOffset : Z) : Clock :=
  mkZonedClock now tzOffset (fun _ => tzOffset).

Definition localDay (clk : Clock) (time : Z) : Z :=
  (time + tzOffset clk) / MS_PER_DAY.

Definition getFullYear (clk : Clock) (time : Z) : Z :=
  let '(y, _, _) := civilFromDays (localDay clk time) in y.

(** Months count from 0, as [Date.prototype.getMonth] does. *)
Definition getMonth (clk : Clock) (time : Z) : Z :=
  let '(_, m, _) := civilFromDays (localDay clk time) in m - 1.

Definition getDate (clk : Clock) (time : Z) : Z :=
  let '(_, _, d) := civilFromDays (localDay clk time) in d.

(** The day number of day [date] of month [month] (counted from 0) of
    [year], where the month may lie outside 0..11 and the day outside the
    month, as in [new Date(y, m - 1, 1)] and [new Date(y, m, 0)]: the month
    is carried into the year, and the day is counted from the first of the
    month. *)
Definition makeDay (year month date : Z) : Z :=
  daysFromCivil (year + month / 12) (month mod 12 + 1) 1 + date - 1.

(** [new Date(year, month, date).getTime()]: midnight, local time, of that
    day; a year from 0 to 99 stands for 1900 + year. *)
Definition localMidnight (clk : Clock) (year month date : Z) : Z :=
  let yr := if (0 <=? year) && (year <=? 99) then 1900 + year else year in
  makeDay yr month date * MS_PER_DAY - tzOffset clk.

(** [d.setDate(dt)], for the instant [time] of the clock: the local
    year, month and time of day of [time] with the day of the month [dt],
    which may lie outside the month; the local time so built is taken
    back to UTC with the offset in force at it. *)
Definition setDate (clk : Clock) (time dt : Z) : Z :=
  let t := time + tzOffset clk in
  let '(y, m, _) := civilFromDays (t / MS_PER_DAY) in
  let newDate := makeDay y (m - 1) dt * MS_PER_DAY + t mod MS_PER_DAY in
  newDate - localTZA clk newDate.

(** [d2 = new Date(d); d2.setDate(d.getDate() + delta)] where the offset
    of local time is the same at both ends: the same local time of day,
    [delta] days later.  The week card uses it and reads the local day of
    the result only, which is [delta] days after the local day of [d]
    whatever the offsets. *)
Definition addDays (time delta : Z) : Z := time + delta * MS_PER_DAY.

(** The UTC day number of an instant. *)
Definition utcDay (time : Z) : Z := time / MS_PER_DAY.

End JSDate.

(** ** Doubles

    The numbers of the platform are IEEE 754 doubles.  The whole numbers
    among them are those below 2^53 = 9007199254740992 in size and those
    with at most 53 significant bits; [round] takes a whole number to the
    double nearest to it, the even one of two that are equally near, and
    the sum and the difference of two doubles are the exact ones rounded.
    Sizes beyond the largest double (about 1.8e308), where the platform
    has [Infinity], are not modelled. *)

Module Double.

Definition round (z : Z) : Z :=
  let a := Z.abs z in
  if a <? 9007199254740992 then z
  else
    let e := Z.log2 a - 52 in
    let q := a / 2 ^ e in
    let r := a mod 2 ^ e in
    let half := 2 ^ (e - 1) in
    let q' :=
      if r <? half then q
      else if half <? r then q + 1
      else if Z.even q then q else q + 1 in
    Z.sgn z * (q' * 2 ^ e).

(** [a + b] and [a - b] on doubles. *)
Definition add (a b : Z) : Z := round (a + b).

Definition sub (a b : Z) : Z := round (a - b).

End Double.

(** ** Numbers and their texts *)

Module JSNumber.

Local Open Scope string_scope.

(** [n.toString()] for a whole number below 2^53 in size, which is
    written with all its decimal digits (from 2^53 on the platform writes
    the shortest digits that give the double back, and from 10^21 on an
    exponent). *)
Definition toString (n : Z) : string :=
  DecimalString.NilZero.string_of_int (Z.to_int n).

(** The white space [parseInt] skips, as far as it is ASCII: tab, line
    feed, vertical tab, form feed, carriage return and space. *)
Definition isSpace (c : ascii) : bool :=
  let n := nat_of_ascii c in
  ((9 <=? n) && (n <=? 13) || (n =? 32))%nat.

Fixpoint skipSpaces (s : string) : string :=
  match s with
  | String c rest => if isSpace c then skipSpaces rest else s
  | EmptyString => s
  end.

(** The longest prefix of decimal digits. *)
Fixpoint leadingDigits (s : string) : string :=
  match s with
  | String c rest =>
      if Constants.isDigit c then String c (leadingDigits rest) else ""
  | EmptyString => ""
  end.

(** [parseInt(s, 10)]: leading white space, an optional sign, then the
    longest run of digits, whatever follows it; [None] is [NaN], the
    result when there is no digit.  The result is the double nearest to
    the number the digits write. *)
Definition parseInt (s : string) : option Z :=
  let s1 := skipSpaces s in
  let '(negative, s2) :=
    match s1 with
    | String c rest =>
        if Ascii.eqb c "-" then (true, rest)
        else if Ascii.eqb c "+" then (false, rest)
        else (false, s1)
    | EmptyString => (false, s1)
    end in
  match leadingDigits s2 with
  | EmptyString => None
  | ds =>
      match DecimalString.NilEmpty.uint_of_string ds with
      | Some u =>
          Some (Double.round
                  (if negative then - Z.of_uint u else Z.of_uint u))
      | None => None
      end
  end.

End JSNumber.

(** ** components/TransactionList.tsx: statistics of the current view *)

Module TransactionList.

Record Stats : Set := mkStats { totalIncome : Z; totalExpense : Z }.

(** The reducer of [filteredTransactions.reduce]: it adds the amount
    to [totalIncome] when the type is income and to [totalExpense]
    otherwise. *)
Definition step (acc : Stats) (t : Transaction) : Stats :=
  match type t with
  | income => mkStats (totalIncome acc + amount t) (totalExpense acc)
  | _ => mkStats (totalIncome acc) (totalExpense acc + amount t)
  end.

Definition stats (filteredTransactions : list Transaction) : Stats :=
  fold_left step filteredTransactions (mkStats 0 0).

Definition balance (filteredTransactions : list Transaction) : Z :=
  totalIncome (stats filteredTransactions)
  - totalExpense (stats filteredTransactions).

End TransactionList.

(** ** components/Dashboard.tsx: totals of the current month *)

Module Dashboard.

(** The transactions of the current month and year of the clock. *)
Definition thisMonthTrans (clk : JSDate.Clock)
    (transactions : list Transaction) : list Transaction :=
  let currentMonth := JSDate.getMonth clk (JSDate.now clk) in
  let currentYear := JSDate.getFullYear clk (JSDate.now clk) in
  filter
    (fun t =>
       match JSDate.parse (date t) with
       | Some d => (JSDate.getMonth clk d =? currentMonth)
                   && (JSDate.getFullYear clk d =? currentYear)
       | None => false
       end) transactions.

Definition totalIncome (thisMonthTrans : list Transaction) : Z :=
  sumAmounts
    (filter (fun t => TransactionType_eqb (type t) income) thisMonthTrans).

Definition totalExpense (thisMonthTrans : list Transaction) : Z :=
  sumAmounts
    (filter (fun t => TransactionType_eqb (type t) expense) thisMonthTrans).

Definition balance (thisMonthTrans : list Transaction) : Z :=
  totalIncome thisMonthTrans - totalExpense thisMonthTrans.

End Dashboard.

(** ** JavaScript values, as [JSON.parse] produces them *)

#[warnings="-register-all"] Inductive JSValue : Set :=
| JNull
| JBool (b : bool)
| JNumber (n : Z)
| JString (s : string)
| JArray (items : list JSValue)
| JObject (props : list (string * JSValue)).

(** The [JSON] built-in.  It belongs to the platform, not to the
    repository: the handlers take it as an argument.  [JSON_parse] returns
    [None] where [JSON.parse] throws a [SyntaxError]; [JSON_stringify v]
    is [JSON.stringify(v, null, 2)]. *)
Record JSON : Set := mkJSON {
  JSON_parse : string -> option JSValue;
  JSON_stringify : JSValue -> string
}.

Module JS.

Local Open Scope string_scope.

(** Own property [k] of an object, [None] for [undefined]. *)
Fixpoint lookup (props : list (string * JSValue)) (k : string)
  : option JSValue :=
  match props with
  | [] => None
  | (k', v) :: rest => if String.eqb k' k then Some v else lookup rest k
  end.

(** Reading [v.k]: [inl tt] stands for the [TypeError] thrown on
    [null]; [inr None] is [undefined].  The names read by the views
    ([amount], [date]) are not properties of arrays, strings, numbers or
    booleans. *)
Definition getProp (v : JSValue) (k : string) : unit + option JSValue :=
  match v with
  | JNull => inl tt
  | JObject props => inr (lookup props k)
  | _ => inr None
  end.

(** [ToBoolean]. *)
Definition truthy (v : option JSValue) : bool :=
  match v with
  | None => false
  | Some JNull => false
  | Some (JBool b) => b
  | Some (JNumber n) => negb (n =? 0)%Z
  | Some (JString s) => negb (String.eqb s "")
  | Some (JArray _) => true
  | Some (JObject _) => true
  end.

Definition isArray (v : JSValue) : bool :=
  match v with JArray _ => true | _ => false end.

Definition TransactionType_name (ty : TransactionType) : string :=
  match ty with expense => "expense" | income => "income" end.

Definition Category_name (c : Category) : string :=
  match c with
  | food => "food" | transport => "transport" | utilities => "utilities"
  | shopping => "shopping" | entertainment => "entertainment"
  | health => "health" | education => "education"
  | income_category => "income" | other => "other"
  end.

(** A [Transaction] as the object the store and the backup file hold. *)
Definition ofTransaction (t : Transaction) : JSValue :=
  JObject
    [ ("id", JString (id t));
      ("amount", JNumber (amount t));
      ("type", JString (TransactionType_name (type t)));
      ("category", JString (Category_name (category t)));
      ("date", JString (date t));
      ("note", JString (note t)) ].

End JS.

(** ** App.tsx: the store and its handlers *)

(** The texts shown by [alert], by the place that shows them. *)
Inductive Alert : Set :=
| AlertWrongFormat        (* the first element lacks amount or date *)
| AlertNotArray           (* the file holds no array *)
| AlertInvalidFile        (* the catch clause: parse or run-time error *)
| AlertNotConnected       (* no onImportData prop *)
| AlertRestored (n : nat) (* handleImportData: n transactions restored *).

(** What an import can change: the state [transactions] of [App] and the
    notices shown.  The import puts the parsed values in the state as they
    are, so the state is a list of values here; a list of [Transaction]s
    is stored as the list of its objects, [JS.ofTransaction]. *)
Record World : Set := mkWorld {
  transactions : list JSValue;
  alerts : list Alert
}.

Definition alert (a : Alert) (w : World) : World :=
  mkWorld (transactions w) (alerts w ++ [a]).

Module App.

(** [setTransactions((prev) => prev.map((t) =>
      t.id === updatedTransaction.id ? updatedTransaction : t))] *)
Definition handleEditTransaction
    (updatedTransaction : Transaction) (prev : list Transaction)
  : list Transaction :=
  map (fun t => if String.eqb (id t) (id updatedTransaction)
                then updatedTransaction else t) prev.

(** [handleImportData]: hand the whole list to the state, then report.
    (The platform keeps and persists the new state once the render that
    follows has succeeded.) *)
Definition handleImportData (importedData : list JSValue) (w : World)
  : World :=
  alert (AlertRestored (List.length importedData))
        (mkWorld importedData (alerts w)).

(** [handleAddTransaction]: the new transaction, with a fresh id, goes
    first.  [generateId] reads the clock and a random number; its result
    is the argument [newId]. *)
Definition handleAddTransaction
    (newId : string) (transaction : Transaction) (prev : list Transaction)
  : list Transaction :=
  mkTransaction newId (amount transaction) (type transaction)
    (category transaction) (date transaction) (note transaction) :: prev.

(** [prev.filter((t) => t.id !== id)] *)
Definition handleDeleteTransaction
    (targetId : string) (prev : list Transaction) : list Transaction :=
  filter (fun t => negb (String.eqb (id t) targetId)) prev.

(** [prev.filter((t) => !ids.includes(t.id))] *)
Definition handleDeleteManyTransactions
    (ids : list string) (prev : list Transaction) : list Transaction :=
  filter (fun t => negb (existsb (fun i => String.eqb i (id t)) ids)) prev.

End App.

(** ** components/TransactionList.tsx: selection and deletion *)

Module TransactionListActions.

(** The selection state of the list view. *)
Record Selection : Set := mkSelection {
  selectedIds : list string;
  idsToDelete : list string
}.

(** [handleSelectOne]: the id leaves the selection when it is in it, and
    joins it at the end otherwise. *)
Definition handleSelectOne (targetId : string) (prev : list string)
  : list string :=
  if existsb (fun i => String.eqb i targetId) prev
  then filter (fun i => negb (String.eqb i targetId)) prev
  else prev ++ [targetId].

(** [handleSelectAll] on the transactions shown. *)
Definition handleSelectAll (checked : bool)
    (filteredTransactions : list Transaction) : list string :=
  if checked then map id filteredTransactions else [].

(** [confirmDelete]: one id goes to [onDelete], several go to
    [onDeleteMany], which also clears the selection; the ids to delete are
    cleared in both cases, and nothing happens without ids. *)
Definition confirmDelete (sel : Selection) (store : list Transaction)
  : Selection * list Transaction :=
  match idsToDelete sel with
  | [] => (sel, store)
  | [one] =>
      (mkSelection (selectedIds sel) [],
       App.handleDeleteTransaction one store)
  | ids =>
      (mkSelection [] [], App.handleDeleteManyTransactions ids store)
  end.

End TransactionListActions.

(** ** components/TransactionForm.tsx *)

Module TransactionForm.

Local Open Scope string_scope.

(** The fields of the form. *)
Record Form : Set := mkForm {
  f_type : TransactionType;
  f_amountStr : string;
  f_date : string;
  f_category : Category;
  f_note : string
}.

(** The effect that fills the form when it opens on a transaction to
    edit. *)
Definition fill (initialData : Transaction) : Form :=
  mkForm (type initialData)
         (Constants.formatInputNumber (JSNumber.toString (amount initialData)))
         (date initialData) (category initialData) (note initialData).

(** [handleAmountChange]: what is typed is formatted again. *)
Definition handleAmountChange (input : string) (form : Form) : Form :=
  mkForm (f_type form) (Constants.formatInputNumber input) (f_date form)
         (f_category form) (f_note form).

(** What [onSubmit] receives: the id of the transaction edited, if any,
    and the fields. *)
Record Submission : Set := mkSubmission {
  s_id : option string;
  s_type : TransactionType;
  s_amount : Z;
  s_date : string;
  s_category : Category;
  s_note : string
}.

(** [handleSubmit]: [None] is the notice asking for a valid amount, shown
    when the amount read is [NaN] or 0. *)
Definition handleSubmit (initialData : option Transaction) (form : Form)
  : option Submission :=
  match JSNumber.parseInt (Constants.removeCommas (f_amountStr form)) with
  | None => None
  | Some rawAmount =>
      if (rawAmount =? 0)%Z then None
      else
        Some (mkSubmission (option_map id initialData) (f_type form)
                rawAmount (f_date form) (f_category form) (f_note form))
  end.

End TransactionForm.

(** ** App.tsx: what the form's submission does to the store *)

Module AppForm.

(** The transaction a submission stands for, under the id [i]. *)
Definition asTransaction (i : string) (s : TransactionForm.Submission)
  : Transaction :=
  mkTransaction i (TransactionForm.s_amount s) (TransactionForm.s_type s)
    (TransactionForm.s_category s) (TransactionForm.s_date s)
    (TransactionForm.s_note s).

(** The form is opened on [editTransaction] ([None]: to add), and its
    [onSubmit] is [handleEditTransaction] or [handleAddTransaction]
    accordingly; [newId] is what [generateId] returns.  [None]: the form
    refused the amount and the store is not touched. *)
Definition submit (editTransaction : option Transaction) (newId : string)
    (form : TransactionForm.Form) (store : list Transaction)
  : option (list Transaction) :=
  match TransactionForm.handleSubmit editTransaction form with
  | None => None
  | Some s =>
      Some
        match editTransaction with
        | Some t0 => App.handleEditTransaction (asTransaction (id t0) s) store
        | None => App.handleAddTransaction newId (asTransaction "" s) store
        end
  end.

End AppForm.

(** ** components/Analytics.tsx *)

Module Analytics.

Import JSDate.
Local Open Scope string_scope.

(** [CATEGORY_LABELS] of constants.ts. *)
Definition CATEGORY_LABELS (c : Category) : string :=
  match c with
  | food => "Ăn uống"
  | transport => "Di chuyển"
  | utilities => "Hóa đơn"
  | shopping => "Mua sắm"
  | entertainment => "Giải trí"
  | health => "Sức khỏe"
  | education => "Giáo dục"
  | income_category => "Thu nhập"
  | other => "Khác"
  end.

(** All categories but ["income"], in the order of [CATEGORY_LABELS]. *)
Definition EXPENSE_CATEGORIES : list Category :=
  [food; transport; utilities; shopping; entertainment; health;
   education; other].

(** [selectedCategories.includes(c)] *)
Definition includes (selectedCategories : list Category) (c : Category)
  : bool :=
  existsb (Category_eqb c) selectedCategories.

(** [toggleCategory]: a selected category is taken out, another one is
    added at the end. *)
Definition toggleCategory (cat : Category) (prev : list Category)
  : list Category :=
  if includes prev cat
  then filter (fun c => negb (Category_eqb c cat)) prev
  else prev ++ [cat].

(** [toggleAllCategories]: nothing selected when the selection is as long
    as the list of expense categories, everything otherwise. *)
Definition toggleAllCategories (selectedCategories : list Category)
  : list Category :=
  if (List.length selectedCategories =? List.length EXPENSE_CATEGORIES)%nat
  then [] else EXPENSE_CATEGORIES.

(** The first filter of [processedData] and of [comparisonData]:
    expenses of the selected categories. *)
Definition filterExpenses
    (selectedCategories : list Category) (transactions : list Transaction)
  : list Transaction :=
  filter (fun t => TransactionType_eqb (type t) expense
                   && includes selectedCategories (category t))
         transactions.

(** A text used as a condition: the empty text is falsy. *)
Definition nonEmpty (s : string) : bool := negb (String.eqb s "").

(** [a >= b] on time values, false when [a] is [NaN]. *)
Definition timeGe (a : option Z) (b : Z) : bool :=
  match a with
  | Some time => (b <=? time)%Z
  | None => false
  end.

(** [(end - start) / (1000 * 3600 * 24)] *)
Definition daysDiff (start end_ : Z) : Q :=
  (inject_Z (end_ - start) / inject_Z MS_PER_DAY)%Q.

(** The period filter of [processedData]: the transactions kept and the
    flag [isMonthlyGrouping].  [filtered] is the list [filterExpenses]
    left. *)
Definition filterByPeriod
    (clk : Clock) (dateFilter : DateFilter) (startDate endDate : string)
    (filtered : list Transaction)
  : list Transaction * bool :=
  match dateFilter with
  | week =>
      let oneWeekAgo := setDate clk (now clk) (getDate clk (now clk) - 7) in
      (filter (fun t => timeGe (parse (date t)) oneWeekAgo) filtered,
       false)
  | month =>
      let thisMonth := getMonth clk (now clk) in
      let thisYear := getFullYear clk (now clk) in
      (filter
         (fun t =>
            match parse (date t) with
            | Some d => ((getMonth clk d =? thisMonth)
                         && (getFullYear clk d =? thisYear))%Z
            | None => false
            end) filtered,
       false)
  | year =>
      let thisYear := getFullYear clk (now clk) in
      (filter
         (fun t =>
            match parse (date t) with
            | Some d => (getFullYear clk d =? thisYear)%Z
            | None => false
            end) filtered,
       true)
  | custom =>
      if nonEmpty startDate && nonEmpty endDate then
        (filter
           (fun t => String.leb startDate (date t)
                     && String.leb (date t) endDate) filtered,
         match parse startDate, parse endDate with
         | Some start, Some end_ =>
             (* daysDiff > 60 *)
             negb (Qle_bool (daysDiff start end_) (inject_Z 60))
         | _, _ => false   (* a comparison with NaN is false *)
         end)
      else (filtered, false)
  | all => (filtered, false)
  end.

(** The object the category [reduce] builds, as its entries in insertion
    order ([Object.entries] lists them in that order). *)
Definition Totals : Set := list (Category * Z).

Fixpoint get (acc : Totals) (k : Category) : option Z :=
  match acc with
  | [] => None
  | (k', v) :: rest => if Category_eqb k' k then Some v else get rest k
  end.

(** [acc[k] = v]: an existing entry keeps its place, a new one goes
    last. *)
Fixpoint set (acc : Totals) (k : Category) (v : Z) : Totals :=
  match acc with
  | [] => [(k, v)]
  | (k', v') :: rest =>
      if Category_eqb k' k then (k', v) :: rest
      else (k', v') :: set rest k v
  end.

(** [x || 0] for an entry that may be missing. *)
Definition orZero (x : option Z) : Z :=
  match x with
  | Some n => if (n =? 0)%Z then 0%Z else n
  | None => 0%Z
  end.

Definition addToCategory (acc : Totals) (t : Transaction) : Totals :=
  set acc (category t) (orZero (get acc (category t)) + amount t)%Z.

Record CategoryDatum : Set := mkCategoryDatum {
  name : string;
  key : Category;
  value : Z
}.

(** [Array.prototype.sort(compare)]: the sort is stable, and [x] goes
    after [y] when [compare x y > 0]. *)
Fixpoint insertSorted {A : Type} (compare : A -> A -> Z) (x : A)
    (sorted : list A) : list A :=
  match sorted with
  | [] => [x]
  | y :: rest =>
      if (0 <? compare x y)%Z then y :: insertSorted compare x rest
      else x :: sorted
  end.

Definition sort {A : Type} (compare : A -> A -> Z) (l : list A) : list A :=
  fold_right (insertSorted compare) [] l.

Definition categoryData (filtered : list Transaction)
  : list CategoryDatum :=
  sort (fun a b => (value b - value a)%Z)
       (map (fun '(k, v) => mkCategoryDatum (CATEGORY_LABELS k) k v)
            (fold_left addToCategory filtered [])).

Record ProcessedData : Set := mkProcessedData {
  pd_categoryData : list CategoryDatum;
  pd_isMonthlyGrouping : bool;
  pd_total : Z
}.

(** [processedData], without the time series of the bar chart. *)
Definition processedData
    (clk : Clock) (transactions : list Transaction)
    (dateFilter : DateFilter) (selectedCategories : list Category)
    (startDate endDate : string) : ProcessedData :=
  let '(filtered, isMonthlyGrouping) :=
    filterByPeriod clk dateFilter startDate endDate
      (filterExpenses selectedCategories transactions) in
  mkProcessedData (categoryData filtered) isMonthlyGrouping
                  (sumAmounts filtered).

(** *** The time series of the bar chart *)

(** [String(n).padStart(2, "0")] *)
Definition padStart2 (s : string) : string :=
  match s with
  | EmptyString => "00"
  | String c EmptyString => String "0" s
  | _ => s
  end.

(** The key of the bucket of a transaction: its date, or with the monthly
    grouping the year and the month of its date in local time; an invalid
    date has [NaN] for both. *)
Definition timeKey (clk : Clock) (isMonthlyGrouping : bool)
    (t : Transaction) : string :=
  if isMonthlyGrouping then
    match parse (date t) with
    | Some d =>
        JSNumber.toString (getFullYear clk d) ++ "-"
        ++ padStart2 (JSNumber.toString (getMonth clk d + 1))
    | None => "NaN-NaN"
    end
  else date t.

(** [timeDataMap], an object used as a map from keys to sums: its own
    properties, in the order they were created. *)
Definition TimeTotals : Set := list (string * Z).

Fixpoint getTime (acc : TimeTotals) (k : string) : option Z :=
  match acc with
  | [] => None
  | (k', v) :: rest => if String.eqb k' k then Some v else getTime rest k
  end.

Fixpoint setTime (acc : TimeTotals) (k : string) (v : Z) : TimeTotals :=
  match acc with
  | [] => [(k, v)]
  | (k', v') :: rest =>
      if String.eqb k' k then (k', v) :: rest
      else (k', v') :: setTime rest k v
  end.

(** The names [timeDataMap] inherits from [Object.prototype]: under such a
    key the map reads a function or an object, not a sum. *)
Definition inheritedName (k : string) : bool :=
  existsb (String.eqb k)
    ["constructor"; "hasOwnProperty"; "isPrototypeOf";
     "propertyIsEnumerable"; "toLocaleString"; "toString"; "valueOf";
     "__proto__"; "__defineGetter__"; "__defineSetter__";
     "__lookupGetter__"; "__lookupSetter__"].

(** [timeDataMap[key] = (timeDataMap[key] || 0) + t.amount]; [None] when
    a key is an inherited name, where the sums are left. *)
Definition addToTime (clk : Clock) (isMonthlyGrouping : bool)
    (acc : option TimeTotals) (t : Transaction) : option TimeTotals :=
  match acc with
  | None => None
  | Some m =>
      let key := timeKey clk isMonthlyGrouping t in
      if inheritedName key then None
      else Some (setTime m key (orZero (getTime m key) + amount t)%Z)
  end.

Definition timeDataMap (clk : Clock) (isMonthlyGrouping : bool)
    (filtered : list Transaction) : option TimeTotals :=
  fold_left (addToTime clk isMonthlyGrouping) filtered (Some []).

(** A key that is an array index: the decimal text of an integer from 0
    to 2^32 - 2. *)
Definition arrayIndex (k : string) : option Z :=
  match k with
  | EmptyString => None
  | String c rest =>
      if Constants.allDigits k
         && (negb (Ascii.eqb c "0") || String.eqb rest "")
      then
        match readDigits 0 (list_ascii_of_string k) with
        | Some n => if (n <? 4294967295)%Z then Some n else None
        | None => None
        end
      else None
  end.

Definition isArrayIndex (e : string * Z) : bool :=
  match arrayIndex (fst e) with
  | Some _ => true
  | None => false
  end.

(** [Object.entries]: the array indices in ascending order, then the
    other keys in the order they were created. *)
Definition entries (m : TimeTotals) : TimeTotals :=
  (sort (fun a b =>
           match arrayIndex (fst a), arrayIndex (fst b) with
           | Some i, Some j => (i - j)%Z
           | _, _ => 0%Z
           end)
        (filter isArrayIndex m)
   ++ filter (fun e => negb (isArrayIndex e)) m)%list.

(** [s.split("-")] *)
Fixpoint splitDash (s : string) : list string :=
  match s with
  | EmptyString => [""]
  | String c rest =>
      if Ascii.eqb c "-" then "" :: splitDash rest
      else
        match splitDash rest with
        | p :: ps => String c p :: ps
        | [] => [String c ""]
        end
  end.

Record TimeDatum : Set := mkTimeDatum {
  label : string;        (* name *)
  amountOf : Z;          (* value *)
  originalKey : string
}.

(** The label of a bucket: [MM/YYYY] for a key [YYYY-MM] of the monthly
    grouping, [DD/MM] for a key [YYYY-MM-DD] of the daily one, the key
    itself when it has another number of parts. *)
Definition formatTimeDatum (isMonthlyGrouping : bool) (d : string * Z)
  : TimeDatum :=
  let name :=
    if isMonthlyGrouping then
      match splitDash (fst d) with
      | [yyyy; mm] => mm ++ "/" ++ yyyy
      | _ => fst d
      end
    else
      match splitDash (fst d) with
      | [yyyy; mm; dd] => dd ++ "/" ++ mm
      | _ => fst d
      end in
  mkTimeDatum name (snd d) (fst d).

(** [timeData] of [processedData]; [localeCompare] is the order of the
    platform on texts. *)
Definition timeData (clk : Clock) (localeCompare : string -> string -> Z)
    (filtered : list Transaction) (isMonthlyGrouping : bool)
  : option (list TimeDatum) :=
  match timeDataMap clk isMonthlyGrouping filtered with
  | Some m =>
      Some (map (formatTimeDatum isMonthlyGrouping)
              (sort (fun a b => localeCompare (fst a) (fst b))
                 (entries m)))
  | None => None
  end.

(** The comparison cards. *)
Record CompData : Set := mkCompData {
  title : string;
  data : list (string * Q);
  current : Q;
  previous : Q;
  percentChange : Q
}.

Definition createCompData
    (title : string) (current previous : Q) (labelPrev labelCur : string)
  : CompData :=
  let percentChange :=
    if negb (Qle_bool previous 0) then
      ((current - previous) / previous * inject_Z 100)%Q
    else if negb (Qle_bool current 0) then inject_Z 100
    else 0%Q in
  mkCompData title [(labelPrev, previous); (labelCur, current)]
             current previous percentChange.

(** [renderTrend]: what the badge of a card shows: no change, or the way
    of the change with its size ([Math.abs(percent)], which the badge
    writes with one decimal). *)
Inductive Trend : Set :=
| Unchanged
| Increase (size : Q)
| Decrease (size : Q).

Definition renderTrend (percent : Q) : Trend :=
  if Qeq_bool percent 0 then Unchanged
  else if negb (Qle_bool percent 0) then Increase (Qabs percent)
  else Decrease (Qabs percent).

(** [stripTime]: midnight, local time, of the local day of [d]. *)
Definition stripTime (clk : Clock) (d : Z) : Z :=
  localMidnight clk (getFullYear clk d) (getMonth clk d) (getDate clk d).

(** The test of [getSum]: the day of the transaction, time stripped, lies
    between the days of [start] and [end_], time stripped; a date that does
    not parse never passes. *)
Definition inWindow (clk : Clock) (start end_ : Z) (t : Transaction)
  : bool :=
  let startTime := stripTime clk start in
  let endTime := stripTime clk end_ in
  match parse (date t) with
  | Some d =>
      let time := stripTime clk d in
      ((startTime <=? time) && (time <=? endTime))%Z
  | None => false
  end.

Definition getSum (clk : Clock) (expenseTransactions : list Transaction)
    (start end_ : Z) : Z :=
  sumAmounts (filter (inWindow clk start end_) expenseTransactions).

(** The bounds of the windows compared: for the week, the month and the
    year, the previous window and the current one. *)
Record Comparison : Set := mkComparison {
  startPrevious : Z;
  endPrevious : Z;
  startCurrent : Z;
  endCurrent : Z
}.

Definition weekWindows (clk : Clock) : Comparison :=
  let today := now clk in
  let startThisWeek := addDays today (-6) in
  let startLastWeek := addDays today (-13) in
  let endLastWeek := addDays today (-7) in
  mkComparison startLastWeek endLastWeek startThisWeek today.

Definition monthWindows (clk : Clock) : Comparison :=
  let today := now clk in
  let startThisMonth :=
    localMidnight clk (getFullYear clk today) (getMonth clk today) 1 in
  let startLastMonth :=
    localMidnight clk (getFullYear clk today) (getMonth clk today - 1) 1 in
  let endLastMonth :=
    localMidnight clk (getFullYear clk today) (getMonth clk today) 0 in
  mkComparison startLastMonth endLastMonth startThisMonth today.

Definition yearWindows (clk : Clock) : Comparison :=
  let today := now clk in
  let startThisYear := localMidnight clk (getFullYear clk today) 0 1 in
  let startLastYear := localMidnight clk (getFullYear clk today - 1) 0 1 in
  let endLastYear := localMidnight clk (getFullYear clk today - 1) 11 31 in
  mkComparison startLastYear endLastYear startThisYear today.

(** One card of [comparisonData]. *)
Definition comparisonCard (clk : Clock) (expenseTransactions : list Transaction)
    (title labelPrev labelCur : string) (w : Comparison) : CompData :=
  createCompData title
    (inject_Z (getSum clk expenseTransactions
                 (startCurrent w) (endCurrent w)))
    (inject_Z (getSum clk expenseTransactions
                 (startPrevious w) (endPrevious w)))
    labelPrev labelCur.

Definition comparisonData (clk : Clock) (transactions : list Transaction)
    (selectedCategories : list Category) : list CompData :=
  let expenseTransactions := filterExpenses selectedCategories transactions in
  [ comparisonCard clk expenseTransactions "7 Ngày Qua" "7 ngày trước" "7 ngày qua"
      (weekWindows clk);
    comparisonCard clk expenseTransactions "Tháng Này" "Tháng trước" "Tháng này"
      (monthWindows clk);
    comparisonCard clk expenseTransactions "Năm Nay" "Năm ngoái" "Năm nay"
      (yearWindows clk) ].

(** [handleExportJSON]: the text of the backup file. *)
Definition handleExportJSON (json : JSON) (transactions : list JSValue)
  : string :=
  JSON_stringify json (JArray transactions).

(** The condition that rejects a parsed array: it is not empty and its
    first element has a falsy [amount] or a falsy [date].  [inl tt] is
    the [TypeError] of reading a property of [null]. *)
Definition wrongFormat (parsedData : list JSValue) : unit + bool :=
  match parsedData with
  | [] => inr false
  | first :: _ =>
      match JS.getProp first "amount" with
      | inl e => inl e
      | inr a =>
          if negb (JS.truthy a) then inr true
          else
            match JS.getProp first "date" with
            | inl e => inl e
            | inr d => inr (negb (JS.truthy d))
            end
      end
  end.

(** [reader.onload] of [handleFileChange], for the file the user picked
    ([None]: no file).  [onImportData] is the optional prop, [confirmed]
    the answer to [window.confirm]. *)
Definition handleFileChange
    (json : JSON) (onImportData : option (list JSValue -> World -> World))
    (confirmed : bool) (file : option string) (w : World) : World :=
  match file with
  | None => w
  | Some content =>
      match JSON_parse json content with
      | None => alert AlertInvalidFile w
      | Some (JArray parsedData) =>
          match wrongFormat parsedData with
          | inl _ => alert AlertInvalidFile w
          | inr true => alert AlertWrongFormat w
          | inr false =>
              match onImportData with
              | Some onImport =>
                  if confirmed then onImport parsedData w else w
              | None => alert AlertNotConnected w
              end
          end
      | Some _ => alert AlertNotArray w
      end
  end.

End Analytics.

(** ** components/Analytics.tsx: the sums as the doubles add them

    [amount] is a double in the code.  The sums of [processedData] are
    given above in exact arithmetic; here they are with the rounding of
    each addition, for whole amounts.  The two agree as long as the sizes
    of the amounts add up to less than 2^53 ([categoryData_exact],
    [sumAmounts_exact]). *)

Module InDoubles.

(** [filtered.reduce((sum, t) => sum + t.amount, 0)] *)
Definition sumAmounts (l : list Transaction) : Z :=
  fold_left (fun sum t => Double.add sum (amount t)) l 0.

(** [acc[t.category] = (acc[t.category] || 0) + t.amount] *)
Definition addToCategory (acc : Analytics.Totals) (t : Transaction)
  : Analytics.Totals :=
  Analytics.set acc (category t)
    (Double.add (Analytics.orZero (Analytics.get acc (category t)))
                (amount t)).

Definition categoryData (filtered : list Transaction)
  : list Analytics.CategoryDatum :=
  Analytics.sort
    (fun a b => Double.sub (Analytics.value b) (Analytics.value a))
    (map (fun '(k, v) =>
            Analytics.mkCategoryDatum (Analytics.CATEGORY_LABELS k) k v)
         (fold_left addToCategory filtered [])).

End InDoubles.

(** ** components/TransactionList.tsx: the current view *)

Module TransactionListView.

Local Open Scope string_scope.

(** The filter by type: ['all' | 'expense' | 'income']. *)
Inductive FilterType : Set :=
| filterAll
| filterExpense
| filterIncome.

(** [s.includes(sub)]: [sub] occurs in [s]. *)
Fixpoint includesText (s sub : string) : bool :=
  String.prefix sub s
  || match s with
     | EmptyString => false
     | String _ rest => includesText rest sub
     end.

Definition matchesSearch (toLowerCase : string -> string)
    (searchTerm : string) (t : Transaction) : bool :=
  includesText (toLowerCase (note t)) (toLowerCase searchTerm)
  || includesText (toLowerCase (Analytics.CATEGORY_LABELS (category t)))
       (toLowerCase searchTerm).

Definition matchesType (filterType : FilterType) (t : Transaction)
  : bool :=
  match filterType with
  | filterAll => true
  | filterExpense => TransactionType_eqb (type t) expense
  | filterIncome => TransactionType_eqb (type t) income
  end.

(** [new Date(b.date).getTime() - new Date(a.date).getTime()]; the sort
    takes [NaN], the difference with an invalid date, for 0. *)
Definition newestFirst (a b : Transaction) : Z :=
  match JSDate.parse (date b), JSDate.parse (date a) with
  | Some tb, Some ta => (tb - ta)%Z
  | _, _ => 0%Z
  end.

(** [filteredTransactions]; [toLowerCase] is the function of the
    platform. *)
Definition filteredTransactions (toLowerCase : string -> string)
    (transactions : list Transaction) (searchTerm : string)
    (filterType : FilterType) : list Transaction :=
  Analytics.sort newestFirst
    (filter (fun t => matchesSearch toLowerCase searchTerm t
                      && matchesType filterType t) transactions).

End TransactionListView.

(** ** A JSON codec

    An executable instance of the [JSON] interface for values whose
    numbers are integers: the printer lays a value out as
    [JSON.stringify(v, null, 2)] does, the reader accepts JSON text
    (numbers without fraction or exponent, [\u] escapes below 0080). *)

Module JSONText.

Local Open Scope string_scope.

Definition quote : ascii := ascii_of_nat 34.
Definition backslash : ascii := ascii_of_nat 92.
Definition newline : string := String (ascii_of_nat 10) "".

Definition hexDigit (n : nat) : ascii :=
  if (n <? 10)%nat then ascii_of_nat (48 + n) else ascii_of_nat (87 + n).

Definition hexValue (c : ascii) : option nat :=
  let n := nat_of_ascii c in
  if ((48 <=? n) && (n <=? 57))%nat then Some (n - 48)%nat
  else if ((97 <=? n) && (n <=? 102))%nat then Some (n - 87)%nat
  else if ((65 <=? n) && (n <=? 70))%nat then Some (n - 55)%nat
  else None.

(** How a character is written inside a JSON string. *)
Definition escapeChar (c : ascii) : string :=
  let n := nat_of_ascii c in
  if (n =? 34)%nat then String backslash (String quote "")
  else if (n =? 92)%nat then String backslash (String backslash "")
  else if (n =? 8)%nat then String backslash "b"
  else if (n =? 12)%nat then String backslash "f"
  else if (n =? 10)%nat then String backslash "n"
  else if (n =? 13)%nat then String backslash "r"
  else if (n =? 9)%nat then String backslash "t"
  else if (n <? 32)%nat then
    String backslash
      (String "u" (String "0" (String "0"
         (String (hexDigit (n / 16)) (String (hexDigit (n mod 16)) "")))))
  else String c "".

Fixpoint escape (s : string) : string :=
  match s with
  | EmptyString => ""
  | String c rest => escapeChar c ++ escape rest
  end.

Definition quoted (s : string) : string :=
  String quote (escape s ++ String quote "").

Definition numberText (n : Z) : string :=
  DecimalString.NilZero.string_of_int (Z.to_int n).

(** [sep]-separated concatenation. *)
Fixpoint join (sep : string) (parts : list string) : string :=
  match parts with
  | [] => ""
  | [p] => p
  | p :: rest => p ++ sep ++ join sep rest
  end.

(** The text of [v] when the enclosing line is indented by [indent]. *)
Fixpoint stringifyAt (indent : string) (v : JSValue) : string :=
  let inner := indent ++ "  " in
  match v with
  | JNull => "null"
  | JBool true => "true"
  | JBool false => "false"
  | JNumber n => numberText n
  | JString s => quoted s
  | JArray [] => "[]"
  | JArray items =>
      "[" ++ newline
      ++ join ("," ++ newline)
           (map (fun x => inner ++ stringifyAt inner x) items)
      ++ newline ++ indent ++ "]"
  | JObject [] => "{}"
  | JObject props =>
      "{" ++ newline
      ++ join ("," ++ newline)
           (map (fun kv => inner ++ quoted (fst kv) ++ ": "
                           ++ stringifyAt inner (snd kv)) props)
      ++ newline ++ indent ++ "}"
  end.

Definition stringify (v : JSValue) : string := stringifyAt "" v.

Definition isWhitespace (c : ascii) : bool :=
  let n := nat_of_ascii c in
  ((n =? 32) || (n =? 9) || (n =? 10) || (n =? 13))%nat.

Fixpoint skipWhitespace (s : string) : string :=
  match s with
  | String c rest => if isWhitespace c then skipWhitespace rest else s
  | EmptyString => s
  end.

(** [s] without its prefix [lit], when it has that prefix. *)
Fixpoint dropPrefix (lit s : string) : option string :=
  match lit, s with
  | EmptyString, _ => Some s
  | String a lit', String b s' =>
      if Ascii.eqb a b then dropPrefix lit' s' else None
  | String _ _, EmptyString => None
  end.

Definition unescape (e : ascii) : option ascii :=
  let n := nat_of_ascii e in
  if (n =? 34)%nat then Some quote
  else if (n =? 92)%nat then Some backslash
  else if (n =? 47)%nat then Some "/"%char
  else if (n =? 98)%nat then Some (ascii_of_nat 8)
  else if (n =? 102)%nat then Some (ascii_of_nat 12)
  else if (n =? 110)%nat then Some (ascii_of_nat 10)
  else if (n =? 114)%nat then Some (ascii_of_nat 13)
  else if (n =? 116)%nat then Some (ascii_of_nat 9)
  else None.

Definition consChar (c : ascii) (r : option (string * string))
  : option (string * string) :=
  match r with
  | Some (body, rest) => Some (String c body, rest)
  | None => None
  end.

(** The characters of a string literal after its opening quote, and the
    text after its closing quote. *)
Fixpoint readChars (s : string) : option (string * string) :=
  match s with
  | EmptyString => None
  | String c rest =>
      if Ascii.eqb c quote then Some ("", rest)
      else if Ascii.eqb c backslash then
        match rest with
        | String e rest' =>
            if Ascii.eqb e "u" then
              match rest' with
              | String h1 (String h2 (String h3 (String h4 rest''))) =>
                  match hexValue h1, hexValue h2, hexValue h3, hexValue h4
                  with
                  | Some a, Some b, Some c', Some d =>
                      let code := (((a * 16 + b) * 16 + c') * 16 + d)%nat in
                      if (code <? 128)%nat
                      then consChar (ascii_of_nat code) (readChars rest'')
                      else None
                  | _, _, _, _ => None
                  end
              | _ => None
              end
            else
              match unescape e with
              | Some c' => consChar c' (readChars rest')
              | None => None
              end
        | EmptyString => None
        end
      else if (nat_of_ascii c <? 32)%nat then None
      else consChar c (readChars rest)
  end.

Fixpoint takeDigits (s : string) : string * string :=
  match s with
  | String c rest =>
      if Constants.isDigit c
      then let '(ds, r) := takeDigits rest in (String c ds, r)
      else ("", s)
  | EmptyString => ("", s)
  end.

Definition startsFraction (s : string) : bool :=
  match s with
  | String c _ =>
      Ascii.eqb c "." || Ascii.eqb c "e" || Ascii.eqb c "E"
  | EmptyString => false
  end.

(** An integer literal: an optional minus sign, then [0] or digits that
    do not start with [0]. *)
Definition readNumber (s : string) : option (Z * string) :=
  let '(negative, s1) :=
    match s with
    | String c rest => if Ascii.eqb c "-" then (true, rest) else (false, s)
    | EmptyString => (false, s)
    end in
  let '(ds, rest) := takeDigits s1 in
  match ds with
  | EmptyString => None
  | String d ds' =>
      if Ascii.eqb d "0" && negb (String.eqb ds' "") then None
      else if startsFraction rest then None
      else
        match DecimalString.NilZero.uint_of_string ds with
        | Some u =>
            Some (if negative then (- Z.of_uint u)%Z else Z.of_uint u, rest)
        | None => None
        end
  end.

(** [obj[k] = v] while an object literal is read: a repeated key keeps
    its place and takes the later value. *)
Fixpoint assign (props : list (string * JSValue)) (k : string)
    (v : JSValue) : list (string * JSValue) :=
  match props with
  | [] => [(k, v)]
  | (k', v') :: rest =>
      if String.eqb k' k then (k', v) :: rest
      else (k', v') :: assign rest k v
  end.

(** The reader: a value, the remaining elements of an array after [[],
    and the remaining members of an object after [{].  Each returns what
    it read and the text left. *)
Fixpoint readValue (fuel : nat) (s : string) : option (JSValue * string) :=
  match fuel with
  | O => None
  | S fuel' =>
      match skipWhitespace s with
      | EmptyString => None
      | String c rest as s' =>
          if Ascii.eqb c quote then
            match readChars rest with
            | Some (body, r) => Some (JString body, r)
            | None => None
            end
          else if Ascii.eqb c "[" then
            match skipWhitespace rest with
            | String c' r =>
                if Ascii.eqb c' "]" then Some (JArray [], r)
                else readElements fuel' [] rest
            | EmptyString => None
            end
          else if Ascii.eqb c "{" then
            match skipWhitespace rest with
            | String c' r =>
                if Ascii.eqb c' "}" then Some (JObject [], r)
                else readMembers fuel' [] rest
            | EmptyString => None
            end
          else if Ascii.eqb c "n" then
            option_map (pair JNull) (dropPrefix "null" s')
          else if Ascii.eqb c "t" then
            option_map (pair (JBool true)) (dropPrefix "true" s')
          else if Ascii.eqb c "f" then
            option_map (pair (JBool false)) (dropPrefix "false" s')
          else
            match readNumber s' with
            | Some (n, r) => Some (JNumber n, r)
            | None => None
            end
      end
  end

with readElements (fuel : nat) (acc : list JSValue) (s : string)
  : option (JSValue * string) :=
  match fuel with
  | O => None
  | S fuel' =>
      match readValue fuel' s with
      | Some (v, r) =>
          match skipWhitespace r with
          | String c r' =>
              if Ascii.eqb c "," then readElements fuel' (acc ++ [v]) r'
              else if Ascii.eqb c "]" then Some (JArray (acc ++ [v]), r')
              else None
          | EmptyString => None
          end
      | None => None
      end
  end

with readMembers (fuel : nat) (acc : list (string * JSValue)) (s : string)
  : option (JSValue * string) :=
  match fuel with
  | O => None
  | S fuel' =>
      match skipWhitespace s with
      | String q r0 =>
          if Ascii.eqb q quote then
            match readChars r0 with
            | Some (k, r1) =>
                match skipWhitespace r1 with
                | String colon r2 =>
                    if Ascii.eqb colon ":" then
                      match readValue fuel' r2 with
                      | Some (v, r3) =>
                          match skipWhitespace r3 with
                          | String c r4 =>
                              if Ascii.eqb c ","
                              then readMembers fuel' (assign acc k v) r4
                              else if Ascii.eqb c "}"
                              then Some (JObject (assign acc k v), r4)
                              else None
                          | EmptyString => None
                          end
                      | None => None
                      end
                    else None
                | EmptyString => None
                end
            | None => None
            end
          else None
      | EmptyString => None
      end
  end.

(** A text is accepted when one value, and only white space after it,
    is read. *)
Definition parse (s : string) : option JSValue :=
  match readValue (2 * String.length s + 2) s with
  | Some (v, rest) =>
      match skipWhitespace rest with
      | EmptyString => Some v
      | String _ _ => None
      end
  | None => None
  end.

Definition codec : JSON := mkJSON parse stringify.

(** A text that may follow a number: it starts neither with a digit nor
    with a fraction or an exponent. *)
Definition delimited (rest : string) : bool :=
  negb (Constants.startsWithDigit rest) && negb (startsFraction rest).

Fixpoint allWhitespace (s : string) : bool :=
  match s with
  | EmptyString => true
  | String c rest => isWhitespace c && allWhitespace rest
  end.

(** No object of the value has a repeated key, as is the case of every
    value of JavaScript. *)
Fixpoint distinctKeys (v : JSValue) : Prop :=
  match v with
  | JArray items => fold_right (fun x P => distinctKeys x /\ P) True items
  | JObject props =>
      NoDup (map fst props)
      /\ fold_right (fun kv P => distinctKeys (snd kv) /\ P) True props
  | _ => True
  end.

(** The reader gives back [v] from the text of [v], at any indentation,
    followed by any text a value can be followed by, once the fuel exceeds
    the length of the text of [v]. *)
Definition readsBack (v : JSValue) : Prop :=
  forall (indent rest : string) (f : nat),
    allWhitespace indent = true -> delimited rest = true ->
    (String.length (stringifyAt indent v) < f)%nat ->
    readValue f (stringifyAt indent v ++ rest) = Some (v, rest).

End JSONText.

(** ** Definitions the specification is stated with *)

(** [Σ amount where type = ty], by recursion on the list. *)
Fixpoint sumOfType (ty : TransactionType) (l : list Transaction) : Z :=
  match l with
  | [] => 0
  | t :: rest =>
      (if TransactionType_eqb (type t) ty then amount t else 0)
      + sumOfType ty rest
  end.

(** The sum of the per-category totals of the pie chart. *)
Fixpoint sumValues (l : list Analytics.CategoryDatum) : Z :=
  match l with
  | [] => 0
  | d :: rest => Analytics.value d + sumValues rest
  end.

(** The sum of the entries of the object the category [reduce] builds. *)
Fixpoint sumEntries (acc : Analytics.Totals) : Z :=
  match acc with
  | [] => 0
  | (_, v) :: rest => v + sumEntries rest
  end.

(** Today, as a day number: the local date of the clock. *)
Definition today (clk : JSDate.Clock) : Z :=
  JSDate.localDay clk (JSDate.now clk).

(** The week of the specification: a date from today minus 6 days up to
    today. *)
Definition inTrailingWeek (clk : JSDate.Clock) (t : Transaction) : bool :=
  match JSDate.dayNumber (date t) with
  | Some d => (today clk - 6 <=? d) && (d <=? today clk)
  | None => false
  end.

(** The first day the week filter of the code lets through: six days
    before the UTC day of the clock, seven when the clock stands exactly at
    a UTC midnight. *)
Definition firstDayOfWeekFilter (clk : JSDate.Clock) : Z :=
  if JSDate.now clk mod JSDate.MS_PER_DAY =? 0
  then JSDate.utcDay (JSDate.now clk) - 7
  else JSDate.utcDay (JSDate.now clk) - 6.

Definition sinceFirstDayOfWeekFilter (clk : JSDate.Clock) (t : Transaction)
  : bool :=
  match JSDate.dayNumber (date t) with
  | Some d => firstDayOfWeekFilter clk <=? d
  | None => false
  end.

(** The contract of the platform's [JSON] the backup relies on: the text
    written for a value reads back as that value. *)
Definition roundTrips (json : JSON) (v : JSValue) : Prop :=
  JSON_parse json (JSON_stringify json v) = Some v.

(** What the import looks at: the list is empty, or its first transaction
    has a non-zero amount and a non-empty date. *)
Definition firstLooksValid (txs : list Transaction) : bool :=
  match txs with
  | [] => true
  | t :: _ => negb (amount t =? 0) && Analytics.nonEmpty (date t)
  end.

(** The backup of a list of transactions, and its import, confirmed, into
    the store of [w]. *)
Definition exportThenImport (json : JSON) (txs : list Transaction)
    (w : World) : World :=
  Analytics.handleFileChange json (Some App.handleImportData) true
    (Some (Analytics.handleExportJSON json (map JS.ofTransaction txs))) w.

(** Digits in groups of three counted from the right, a comma before each
    group but the first. *)
Fixpoint groupThousands (digits : string) : string :=
  match digits with
  | EmptyString => EmptyString
  | String c rest =>
      String c
        (if (0 <? String.length rest)%nat
            && (String.length rest mod 3 =? 0)%nat
         then String "," (groupThousands rest)
         else groupThousands rest)
  end.

(** [Σ amount where category = k], by recursion on the list. *)
Fixpoint sumOfCategory (k : Category) (l : list Transaction) : Z :=
  match l with
  | [] => 0
  | t :: rest =>
      (if Category_eqb (category t) k then amount t else 0)
      + sumOfCategory k rest
  end.

(** A date of the calendar: a month from 1 to 12 and a day of that
    month. *)
Definition validDate (y m d : Z) : Prop :=
  1 <= m <= 12 /\ 1 <= d <= JSDate.daysInMonth y m.

(** The day whose midnight, local time, [stripTime] yields. *)
Definition stripDay (clk : JSDate.Clock) (time : Z) : Z :=
  (Analytics.stripTime clk time + JSDate.tzOffset clk) / JSDate.MS_PER_DAY.

(** A text with a dash in it. *)
Fixpoint hasDash (s : string) : bool :=
  match s with
  | EmptyString => false
  | String c rest => Ascii.eqb c "-"%char || hasDash rest
  end.

(** The first of two transactions has a valid date that is not before
    the valid date of the second. *)
Definition notOlder (a b : Transaction) : Prop :=
  exists ta tb : Z,
    JSDate.parse (date a) = Some ta /\ JSDate.parse (date b) = Some tb
    /\ tb <= ta.

(** The per-category totals of the pie chart added up one after the
    other, in doubles. *)
Definition sumValuesInDoubles (l : list Analytics.CategoryDatum) : Z :=
  fold_left (fun sum d => Double.add sum (Analytics.value d)) l 0.

(** The sizes of the amounts, added up. *)
Fixpoint sumOfSizes (l : list Transaction) : Z :=
  match l with
  | [] => 0
  | t :: rest => Z.abs (amount t) + sumOfSizes rest
  end.

Fixpoint sizeOfEntries (acc : Analytics.Totals) : Z :=
  match acc with
  | [] => 0
  | (_, v) :: rest => Z.abs v + sizeOfEntries rest
  end.

Fixpoint sizeOfValues (l : list Analytics.CategoryDatum) : Z :=
  match l with
  | [] => 0
  | d :: rest => Z.abs (Analytics.value d) + sizeOfValues rest
  end.

(** The number a text of digits writes. *)
Definition valueOfDigits (s : string) : Z :=
  fold_left (fun acc c => 10 * acc + (Z.of_nat (nat_of_ascii c) - 48))
            (list_ascii_of_string s) 0.

(** The instant a week ago: the one that reads in local time as now
    does, seven days earlier. *)
Definition oneWeekAgo (clk : JSDate.Clock) : Z :=
  let local :=
    JSDate.now clk + JSDate.tzOffset clk - 7 * JSDate.MS_PER_DAY in
  local - JSDate.localTZA clk local.

(** A calendar date whose midnight, UTC, is not before the instant a
    week ago. *)
Definition sinceOneWeekAgo (clk : JSDate.Clock) (t : Transaction) : bool :=
  match JSDate.dayNumber (date t) with
  | Some d => oneWeekAgo clk <=? d * JSDate.MS_PER_DAY
  | None => false
  end.

(** * Properties *)

(** ** Doubles *)

Lemma round_exact (z : Z) :
  Z.abs z < 9007199254740992 -> Double.round z = z.
Proof.
  intro H. unfold Double.round.
  destruct (Z.ltb_spec (Z.abs z) 9007199254740992); [reflexivity|lia].
Qed.

(** Rounding keeps the sign. *)
Lemma round_sgn (z : Z) : Z.sgn (Double.round z) = Z.sgn z.
Proof.
  unfold Double.round.
  destruct (Z.ltb_spec (Z.abs z) 9007199254740992) as [Hlt|Hge];
    [reflexivity|].
  cbv zeta.
  assert (Hlog : 53 <= Z.log2 (Z.abs z)).
  { change 53 with (Z.log2 9007199254740992). now apply Z.log2_le_mono. }
  set (e := Z.log2 (Z.abs z) - 52).
  assert (He : 0 < 2 ^ e) by (apply Z.pow_pos_nonneg; lia).
  assert (Hq : 0 < Z.abs z / 2 ^ e).
  { apply Z.div_str_pos. split; [exact He|].
    apply Z.le_trans with (2 ^ Z.log2 (Z.abs z)).
    - apply Z.pow_le_mono_r; lia.
    - apply Z.log2_spec. lia. }
  set (q := Z.abs z / 2 ^ e) in *.
  assert (Hq' : 0 < (if Z.abs z mod 2 ^ e <? 2 ^ (e - 1) then q
                     else if 2 ^ (e - 1) <? Z.abs z mod 2 ^ e then q + 1
                     else if Z.even q then q else q + 1)).
  { destruct (_ <? _); [lia|]. destruct (_ <? _); [lia|].
    destruct (Z.even q); lia. }
  set (q' := if _ <? _ then _ else _) in *.
  rewrite Z.sgn_mul, Z.sgn_sgn.
  rewrite (Z.sgn_pos (q' * 2 ^ e)) by (apply Z.mul_pos_pos; lia). lia.
Qed.

Lemma round_pos_iff (z : Z) : (0 <? Double.round z) = (0 <? z).
Proof.
  pose proof (round_sgn z) as H.
  destruct (Z.ltb_spec 0 (Double.round z)), (Z.ltb_spec 0 z);
    try reflexivity; lia.
Qed.

Lemma round_nonneg (z : Z) : 0 <= z -> 0 <= Double.round z.
Proof. pose proof (round_sgn z). lia. Qed.

Lemma round_zero_iff (z : Z) : Double.round z = 0 <-> z = 0.
Proof. pose proof (round_sgn z). lia. Qed.

(** Ties go to the even neighbour. *)
Example round_examples :
  Double.round (9007199254740992 + 1) = 9007199254740992
  /\ Double.round (9007199254740992 + 3) = 9007199254740992 + 4
  /\ Double.round (9007199254740992 + 2) = 9007199254740992 + 2
  /\ Double.round (- (9007199254740992 + 1)) = - 9007199254740992
  /\ Double.round (2 ^ 60 + 129) = 2 ^ 60 + 256
  /\ Double.round (2 ^ 60 + 127) = 2 ^ 60.
Proof. vm_compute. repeat split. Qed.

(** ** Sums *)

Lemma fold_sum_shift (l : list Transaction) (a : Z) :
  fold_left (fun sum t => sum + amount t) l a
  = a + fold_left (fun sum t => sum + amount t) l 0.
Proof.
  revert a; induction l as [|t l IH]; intro a; simpl.
  - lia.
  - rewrite IH, (IH (amount t)). lia.
Qed.

Lemma sumAmounts_cons (t : Transaction) (l : list Transaction) :
  sumAmounts (t :: l) = amount t + sumAmounts l.
Proof.
  unfold sumAmounts; simpl. now rewrite fold_sum_shift.
Qed.

Lemma sumAmounts_filter (ty : TransactionType) (l : list Transaction) :
  sumAmounts (filter (fun t => TransactionType_eqb (type t) ty) l)
  = sumOfType ty l.
Proof.
  induction l as [|t l IH]; simpl; [reflexivity|].
  destruct (TransactionType_eqb (type t) ty).
  - rewrite sumAmounts_cons, IH. reflexivity.
  - rewrite IH. reflexivity.
Qed.

Lemma stats_from (l : list Transaction) (acc : TransactionList.Stats) :
  fold_left TransactionList.step l acc
  = TransactionList.mkStats
      (TransactionList.totalIncome acc + sumOfType income l)
      (TransactionList.totalExpense acc + sumOfType expense l).
Proof.
  revert acc; induction l as [|t l IH]; intros [i e]; simpl.
  - f_equal; lia.
  - rewrite IH. unfold TransactionList.step.
    destruct (type t); simpl; f_equal; lia.
Qed.

(** C4. For every list of transactions, both views compute
    [totalIncome] as the sum of the amounts of the income transactions,
    [totalExpense] as the sum of the amounts of the expense transactions,
    and [balance] as their difference. *)
Theorem derived_totals_correct (l : list Transaction) :
  TransactionList.totalIncome (TransactionList.stats l) = sumOfType income l
  /\ TransactionList.totalExpense (TransactionList.stats l)
     = sumOfType expense l
  /\ TransactionList.balance l = sumOfType income l - sumOfType expense l
  /\ Dashboard.totalIncome l = sumOfType income l
  /\ Dashboard.totalExpense l = sumOfType expense l
  /\ Dashboard.balance l = sumOfType income l - sumOfType expense l.
Proof.
  unfold TransactionList.balance, TransactionList.stats, Dashboard.balance,
    Dashboard.totalIncome, Dashboard.totalExpense.
  rewrite stats_from, !sumAmounts_filter; simpl.
  repeat split; reflexivity.
Qed.

(** The example of the specification: an income of 1000 and an expense
    of 300. *)
Example derived_totals_example :
  let l := [ mkTransaction "1" 1000 income income_category "2024-01-01" "";
             mkTransaction "2" 300 expense food "2024-01-02" "" ] in
  TransactionList.stats l = TransactionList.mkStats 1000 300
  /\ TransactionList.balance l = 700
  /\ Dashboard.balance l = 700.
Proof. repeat split. Qed.

(** ** Editing *)

(** C9. Editing keeps the length of the list, and at every position the
    entry is the updated transaction when its id is the id of the update,
    and the former entry otherwise. *)
Theorem handleEditTransaction_frame
    (u : Transaction) (prev : list Transaction) :
  List.length (App.handleEditTransaction u prev) = List.length prev
  /\ forall (i : nat) (t : Transaction),
       nth_error prev i = Some t ->
       nth_error (App.handleEditTransaction u prev) i
       = Some (if String.eqb (id t) (id u) then u else t)
  /\ (id t <> id u ->
      nth_error (App.handleEditTransaction u prev) i = Some t)
  /\ (id t = id u ->
      nth_error (App.handleEditTransaction u prev) i = Some u).
Proof.
  unfold App.handleEditTransaction. split.
  - apply length_map.
  - intros i t Hi. rewrite nth_error_map, Hi; simpl.
    repeat split.
    + intro Hne. apply String.eqb_neq in Hne. now rewrite Hne.
    + intro He. apply String.eqb_eq in He. now rewrite He.
Qed.

Example handleEditTransaction_frame_witness :
  let u := mkTransaction "b" 70 expense food "2024-02-02" "new" in
  let prev := [ mkTransaction "a" 10 expense food "2024-01-01" "";
                mkTransaction "b" 20 expense other "2024-01-02" "old" ] in
  nth_error (App.handleEditTransaction u prev) 1 = Some u
  /\ nth_error (App.handleEditTransaction u prev) 0 = nth_error prev 0.
Proof.
  intros u prev.
  destruct (handleEditTransaction_frame u prev) as [_ H]. split.
  - apply (H 1%nat (mkTransaction "b" 20 expense other "2024-01-02" "old")
             eq_refl).
    reflexivity.
  - apply (H 0%nat (mkTransaction "a" 10 expense food "2024-01-01" "")
             eq_refl).
    discriminate.
Defined.

(** ** The amount input *)

Section FormatInputNumber.

Import Constants.
Local Open Scope string_scope.

Lemma digitsOf_app (a b : string) :
  digitsOf (a ++ b) = (digitsOf a ++ digitsOf b)%list.
Proof.
  induction a as [|c a IH]; simpl; [reflexivity|].
  destruct (isDigit c); simpl; now rewrite IH.
Qed.

Lemma removeCommas_app (a b : string) :
  removeCommas (a ++ b) = removeCommas a ++ removeCommas b.
Proof.
  induction a as [|c a IH]; simpl; [reflexivity|].
  destruct (Ascii.eqb c ","); simpl; now rewrite IH.
Qed.

(** Whatever the positions the pattern matches at, only commas are
    inserted. *)
Lemma insertCommas_digits (s : string) (prev : option ascii) :
  digitsOf (insertCommas prev s) = digitsOf s.
Proof.
  revert prev; induction s as [|c s IH]; intro prev; simpl.
  - now destruct (notWordBoundary prev "" && false).
  - destruct (notWordBoundary prev (String c s) && _);
      rewrite digitsOf_app; simpl; rewrite IH; reflexivity.
Qed.

Lemma removeNonDigits_digits (s : string) :
  digitsOf (removeNonDigits s) = digitsOf s.
Proof.
  induction s as [|c s IH]; simpl; [reflexivity|].
  destruct (isDigit c) eqn:E; simpl; rewrite ?E, IH; reflexivity.
Qed.

Lemma removeNonDigits_allDigits (s : string) :
  allDigits (removeNonDigits s) = true.
Proof.
  induction s as [|c s IH]; simpl; [reflexivity|].
  destruct (isDigit c) eqn:E; simpl; rewrite ?E; exact IH.
Qed.

Lemma isDigit_not_comma (c : ascii) :
  isDigit c = true -> Ascii.eqb c "," = false.
Proof.
  intro H. destruct (Ascii.eqb_spec c ","%char) as [->|]; [|reflexivity].
  discriminate H.
Qed.

Lemma insertCommas_removeCommas (s : string) (prev : option ascii) :
  allDigits s = true -> removeCommas (insertCommas prev s) = s.
Proof.
  revert prev; induction s as [|c s IH]; intros prev H; simpl.
  - now destruct (notWordBoundary prev "" && false).
  - simpl in H. apply andb_prop in H as [Hc Hs].
    rewrite removeCommas_app; simpl.
    rewrite (isDigit_not_comma c Hc), (IH _ Hs).
    now destruct (notWordBoundary prev (String c s) && _).
Qed.

Lemma string_of_digitsOf (s : string) :
  allDigits s = true -> string_of_list_ascii (digitsOf s) = s.
Proof.
  induction s as [|c s IH]; simpl; [reflexivity|].
  intro H. apply andb_prop in H as [Hc Hs].
  rewrite Hc; simpl. now rewrite IH.
Qed.

End FormatInputNumber.

(** C10. The digits of the formatted amount are, in order, the digits
    of the text entered; removing the commas from the formatted amount, as
    the form does before it reads the number, gives back exactly those
    digits. *)
Theorem formatInputNumber_digits (value : string) :
  Constants.digitsOf (Constants.formatInputNumber value)
  = Constants.digitsOf value
  /\ Constants.removeCommas (Constants.formatInputNumber value)
     = string_of_list_ascii (Constants.digitsOf value).
Proof.
  unfold Constants.formatInputNumber.
  destruct (String.eqb_spec value "") as [->|_]; [split; reflexivity|].
  split.
  - now rewrite insertCommas_digits, removeNonDigits_digits.
  - rewrite insertCommas_removeCommas
      by apply removeNonDigits_allDigits.
    rewrite <- (removeNonDigits_digits value).
    symmetry. apply string_of_digitsOf, removeNonDigits_allDigits.
Qed.

Example formatInputNumber_examples :
  Constants.formatInputNumber "1234567" = "1,234,567"%string
  /\ Constants.formatInputNumber "12a3 4" = "1,234"%string
  /\ Constants.formatInputNumber "999" = "999"%string
  /\ Constants.formatInputNumber "1,0000" = "10,000"%string
  /\ Constants.formatInputNumber "abc" = ""%string.
Proof. repeat split. Qed.

(** ** The comparison cards *)

(** C3. For non-negative sums, [percentChange] is
    [(current - previous) / previous * 100] when [previous] is positive,
    100 when [previous] is zero and [current] positive, and 0 when both
    are zero. *)
Theorem createCompData_percentChange
    (title labelPrev labelCur : string) (current previous : Q) :
  (0 <= current)%Q -> (0 <= previous)%Q ->
  let r :=
    Analytics.createCompData title current previous labelPrev labelCur in
  ((0 < previous)%Q ->
     (Analytics.percentChange r
      == (current - previous) / previous * inject_Z 100)%Q)
  /\ ((previous == 0)%Q -> (0 < current)%Q ->
      (Analytics.percentChange r == inject_Z 100)%Q)
  /\ ((previous == 0)%Q -> (current == 0)%Q ->
      (Analytics.percentChange r == 0)%Q).
Proof.
  intros Hc Hp r. subst r. unfold Analytics.createCompData; simpl.
  assert (Hpos : forall x : Q, Qle_bool x 0 = false -> (0 < x)%Q).
  { intros x E. apply Qnot_le_lt. intro H. apply Qle_bool_iff in H.
    congruence. }
  assert (Hno : forall x : Q, (0 < x)%Q -> (x <= 0)%Q -> False).
  { intros x H1 H2. apply (Qlt_irrefl 0). eapply Qlt_le_trans; eauto. }
  destruct (Qle_bool previous 0) eqn:Ep; simpl.
  - apply Qle_bool_iff in Ep.
    destruct (Qle_bool current 0) eqn:Ec; simpl.
    + apply Qle_bool_iff in Ec.
      split; [|split].
      * intro H. destruct (Hno _ H Ep).
      * intros _ H. destruct (Hno _ H Ec).
      * intros _ _. reflexivity.
    + apply Hpos in Ec.
      split; [|split].
      * intro H. destruct (Hno _ H Ep).
      * intros _ _. reflexivity.
      * intros _ H. rewrite H in Ec. destruct (Qlt_irrefl _ Ec).
  - apply Hpos in Ep.
    split; [|split].
    + intros _. reflexivity.
    + intros H _. rewrite H in Ep. destruct (Qlt_irrefl _ Ep).
    + intros H _. rewrite H in Ep. destruct (Qlt_irrefl _ Ep).
Qed.

(** The three examples of the specification: (0, 0), (0, 100) and
    (200, 100) as (previous, current). *)
Example createCompData_examples :
  (Analytics.percentChange (Analytics.createCompData "" 0 0 "" "") == 0)%Q
  /\ (Analytics.percentChange
        (Analytics.createCompData "" (inject_Z 100) 0 "" "")
      == inject_Z 100)%Q
  /\ (Analytics.percentChange
        (Analytics.createCompData "" (inject_Z 100) (inject_Z 200) "" "")
      == inject_Z (-50))%Q.
Proof. repeat split. Qed.

Example createCompData_percentChange_witness :
  (0 <= inject_Z 100)%Q /\ (0 <= inject_Z 200)%Q /\ (0 < inject_Z 200)%Q
  /\ (Analytics.percentChange
        (Analytics.createCompData "" (inject_Z 100) (inject_Z 200) "" "")
      == (inject_Z 100 - inject_Z 200) / inject_Z 200 * inject_Z 100)%Q.
Proof.
  assert (H1 : (0 <= inject_Z 100)%Q) by (unfold Qle; simpl; lia).
  assert (H2 : (0 <= inject_Z 200)%Q) by (unfold Qle; simpl; lia).
  assert (H3 : (0 < inject_Z 200)%Q) by reflexivity.
  split; [exact H1|]. split; [exact H2|]. split; [exact H3|].
  exact (proj1 (createCompData_percentChange "" "" "" _ _ H1 H2) H3).
Defined.

(** ** Grouping by category *)

Section CategoryGrouping.

Import Analytics.

Lemma orZero_get (x : option Z) :
  orZero x = match x with Some n => n | None => 0 end.
Proof.
  destruct x as [n|]; simpl; [|reflexivity].
  destruct (Z.eqb_spec n 0); congruence.
Qed.

(** Assigning [acc[k] || 0 + a] to [acc[k]] adds [a] to the sum of the
    entries, whether the category is already there or not. *)
Lemma sumEntries_set (acc : Totals) (k : Category) (a : Z) :
  sumEntries (set acc k (orZero (get acc k) + a))
  = sumEntries acc + a.
Proof.
  rewrite orZero_get.
  induction acc as [|[k' v] acc IH]; simpl.
  - lia.
  - destruct (Category_eqb k' k); simpl.
    + lia.
    + rewrite IH. lia.
Qed.

Lemma sumEntries_fold (l : list Transaction) (acc : Totals) :
  sumEntries (fold_left addToCategory l acc)
  = sumEntries acc + sumAmounts l.
Proof.
  revert acc; induction l as [|t l IH]; intro acc.
  - unfold sumAmounts; simpl. lia.
  - simpl fold_left. rewrite IH, sumAmounts_cons.
    unfold addToCategory. rewrite sumEntries_set. lia.
Qed.

Lemma sumValues_entries (acc : Totals) :
  sumValues
    (map (fun '(k, v) => mkCategoryDatum (CATEGORY_LABELS k) k v) acc)
  = sumEntries acc.
Proof.
  induction acc as [|[k v] acc IH]; simpl; [reflexivity|].
  now rewrite IH.
Qed.

Lemma insertSorted_Permutation {A : Type} (compare : A -> A -> Z)
    (x : A) (l : list A) :
  Permutation (insertSorted compare x l) (x :: l).
Proof.
  induction l as [|y l IH]; simpl.
  - apply Permutation_refl.
  - destruct (0 <? compare x y).
    + apply perm_trans with (y :: x :: l).
      * now apply perm_skip.
      * apply perm_swap.
    + apply Permutation_refl.
Qed.

(** Sorting rearranges the entries and loses none. *)
Lemma sort_Permutation {A : Type} (compare : A -> A -> Z) (l : list A) :
  Permutation (sort compare l) l.
Proof.
  induction l as [|x l IH]; simpl.
  - apply perm_nil.
  - apply perm_trans with (x :: sort compare l).
    + apply insertSorted_Permutation.
    + now apply perm_skip.
Qed.

Lemma sumValues_Permutation (a b : list CategoryDatum) :
  Permutation a b -> sumValues a = sumValues b.
Proof.
  induction 1; simpl; lia.
Qed.

Lemma categoryData_sum (filtered : list Transaction) :
  sumValues (categoryData filtered) = sumAmounts filtered.
Proof.
  unfold categoryData.
  rewrite (sumValues_Permutation _ _ (sort_Permutation _ _)).
  rewrite sumValues_entries, sumEntries_fold. reflexivity.
Qed.

End CategoryGrouping.

(** ** The sums in doubles *)

Section ExactSums.

Import Analytics.

Lemma sumOfSizes_nonneg (l : list Transaction) : 0 <= sumOfSizes l.
Proof. induction l as [|t l IH]; simpl; lia. Qed.

Lemma sizeOfEntries_nonneg (acc : Totals) : 0 <= sizeOfEntries acc.
Proof. induction acc as [|[k v] acc IH]; simpl; lia. Qed.

Lemma sumAmounts_exact_from (l : list Transaction) (a : Z) :
  Z.abs a + sumOfSizes l < 9007199254740992 ->
  fold_left (fun sum t => Double.add sum (amount t)) l a
  = fold_left (fun sum t => sum + amount t) l a.
Proof.
  revert a. induction l as [|t l IH]; intros a H;
    cbn [fold_left sumOfSizes] in *; [reflexivity|].
  pose proof (sumOfSizes_nonneg l) as Hl.
  unfold Double.add at 2. rewrite round_exact by lia.
  apply IH. lia.
Qed.

Lemma sumAmounts_exact (l : list Transaction) :
  sumOfSizes l < 9007199254740992 -> InDoubles.sumAmounts l = sumAmounts l.
Proof. intro H. apply sumAmounts_exact_from. simpl. lia. Qed.

(** The size of what [acc[k] || 0] reads, and of the entries after
    [acc[k] = v]. *)
Lemma set_size (acc : Totals) (k : Category) (v : Z) :
  sizeOfEntries (set acc k v)
  = sizeOfEntries acc - Z.abs (orZero (get acc k)) + Z.abs v
  /\ Z.abs (orZero (get acc k)) <= sizeOfEntries acc.
Proof.
  rewrite orZero_get.
  induction acc as [|[k' v'] acc IH]; simpl; [lia|].
  pose proof (sizeOfEntries_nonneg acc) as Hacc.
  destruct (Category_eqb k' k); simpl; lia.
Qed.

Lemma addToCategory_exact_from (l : list Transaction) (acc : Totals) :
  sizeOfEntries acc + sumOfSizes l < 9007199254740992 ->
  fold_left InDoubles.addToCategory l acc = fold_left addToCategory l acc
  /\ sizeOfEntries (fold_left addToCategory l acc)
     <= sizeOfEntries acc + sumOfSizes l.
Proof.
  revert acc. induction l as [|t l IH]; intros acc H;
    cbn [fold_left sumOfSizes] in *; [split; [reflexivity|lia]|].
  pose proof (sumOfSizes_nonneg l) as Hl.
  destruct (set_size acc (category t)
              (orZero (get acc (category t)) + amount t)) as [Hs Hold].
  assert (E : InDoubles.addToCategory acc t = addToCategory acc t).
  { unfold InDoubles.addToCategory, addToCategory, Double.add.
    rewrite round_exact by lia. reflexivity. }
  rewrite E.
  assert (Hstep : sizeOfEntries (addToCategory acc t)
                  <= sizeOfEntries acc + Z.abs (amount t))
    by (unfold addToCategory; lia).
  destruct (IH (addToCategory acc t)) as [IH1 IH2]; [lia|].
  split; [exact IH1|lia].
Qed.

Lemma insertSorted_ext {A : Type} (f g : A -> A -> Z) (x : A) (l : list A) :
  (forall a b, (0 <? f a b) = (0 <? g a b)) ->
  insertSorted f x l = insertSorted g x l.
Proof.
  intro H. induction l as [|y l IH]; simpl; [reflexivity|].
  now rewrite H, IH.
Qed.

Lemma sort_ext {A : Type} (f g : A -> A -> Z) (l : list A) :
  (forall a b, (0 <? f a b) = (0 <? g a b)) -> sort f l = sort g l.
Proof.
  intro H. induction l as [|x l IH]; simpl; [reflexivity|].
  now rewrite IH, (insertSorted_ext f g _ _ H).
Qed.

Lemma categoryData_exact (filtered : list Transaction) :
  sumOfSizes filtered < 9007199254740992 ->
  InDoubles.categoryData filtered = categoryData filtered.
Proof.
  intro H. unfold InDoubles.categoryData, categoryData.
  destruct (addToCategory_exact_from filtered []) as [E _]; [simpl; lia|].
  rewrite E. apply sort_ext. intros a b. apply round_pos_iff.
Qed.

Lemma sizeOfValues_Permutation (a b : list CategoryDatum) :
  Permutation a b -> sizeOfValues a = sizeOfValues b.
Proof. induction 1; simpl; lia. Qed.

Lemma sizeOfValues_entries (acc : Totals) :
  sizeOfValues
    (map (fun '(k, v) => mkCategoryDatum (CATEGORY_LABELS k) k v) acc)
  = sizeOfEntries acc.
Proof.
  induction acc as [|[k v] acc IH]; simpl; [reflexivity|]. now rewrite IH.
Qed.

Lemma sizeOfValues_nonneg (l : list CategoryDatum) : 0 <= sizeOfValues l.
Proof. induction l as [|d l IH]; simpl; lia. Qed.

Lemma sumValues_exact_from (l : list CategoryDatum) (a : Z) :
  Z.abs a + sizeOfValues l < 9007199254740992 ->
  fold_left (fun sum d => Double.add sum (value d)) l a = a + sumValues l.
Proof.
  revert a. induction l as [|d l IH]; intros a H;
    cbn [fold_left sizeOfValues sumValues] in *; [lia|].
  pose proof (sizeOfValues_nonneg l) as Hl.
  unfold Double.add at 2. rewrite round_exact by lia.
  rewrite IH by lia. lia.
Qed.

Lemma categoryData_size (filtered : list Transaction) :
  sumOfSizes filtered < 9007199254740992 ->
  sizeOfValues (categoryData filtered) <= sumOfSizes filtered.
Proof.
  intro H. unfold categoryData.
  rewrite (sizeOfValues_Permutation _ _ (sort_Permutation _ _)).
  rewrite sizeOfValues_entries.
  destruct (addToCategory_exact_from filtered []) as [_ S]; simpl in *; lia.
Qed.

End ExactSums.




(** The example of the specification: two food expenses of January,
    seen in the month view on a day of that January. *)
Example categoryData_example :
  let clk := JSDate.mkClock (19737 * JSDate.MS_PER_DAY + 36000000) 0 in
  let l := [ mkTransaction "1" 100 expense food "2024-01-01" "";
             mkTransaction "2" 50 expense food "2024-01-15" "" ] in
  Analytics.pd_categoryData
    (Analytics.processedData clk l month Analytics.EXPENSE_CATEGORIES "" "")
  = [ Analytics.mkCategoryDatum (Analytics.CATEGORY_LABELS food) food 150 ].
Proof. vm_compute. reflexivity. Qed.

(** ** The period filter *)

Section PeriodFilter.

Import JSDate Analytics.

Lemma week_bound (clk : Clock) (d : Z) :
  (addDays (now clk) (-7) <=? d * MS_PER_DAY)
  = (firstDayOfWeekFilter clk <=? d).
Proof.
  unfold addDays, firstDayOfWeekFilter, utcDay.
  assert (Hms : 0 < MS_PER_DAY) by reflexivity.
  pose proof (Z.div_mod (now clk) MS_PER_DAY) as Hdm.
  pose proof (Z.mod_pos_bound (now clk) MS_PER_DAY Hms) as Hr.
  generalize dependent (now clk / MS_PER_DAY).
  generalize dependent (now clk mod MS_PER_DAY).
  intros r Hr q Hdm.
  assert (Hn : now clk = MS_PER_DAY * q + r) by (apply Hdm; lia).
  rewrite Hn. clear Hdm Hn.
  destruct (Z.eqb_spec r 0) as [->|Hr0];
    apply Bool.eq_true_iff_eq; rewrite !Z.leb_le; nia.
Qed.

Lemma dayNumber_nonEmpty (s : string) (d : Z) :
  dayNumber s = Some d -> nonEmpty s = true.
Proof.
  destruct s; [discriminate|reflexivity].
Qed.

Lemma daysDiff_gt_60 (ds de : Z) :
  negb (Qle_bool (daysDiff (ds * MS_PER_DAY) (de * MS_PER_DAY))
                 (inject_Z 60)) = true
  <-> 60 < de - ds.
Proof.
  rewrite Bool.negb_true_iff, <- Bool.not_true_iff_false, Qle_bool_iff.
  unfold daysDiff, Qle, Qdiv, Qmult, Qinv, inject_Z, MS_PER_DAY; simpl.
  lia.
Qed.

End PeriodFilter.

(** C1 fails as stated: at noon UTC of 2024-01-10 an expense dated
    2024-02-01, three weeks ahead, passes the week filter, although it is
    later than today. *)
Example week_filter_keeps_future_dates :
  let clk := JSDate.mkClock (19732 * JSDate.MS_PER_DAY + 43200000) 0 in
  let l := [ mkTransaction "1" 100 expense food "2024-02-01" "" ] in
  today clk = 19732
  /\ JSDate.dayNumber "2024-02-01" = Some 19754
  /\ fst (Analytics.filterByPeriod clk week "" "" l) = l
  /\ fst (Analytics.filterByPeriod clk week "" "" l)
     <> filter (inTrailingWeek clk) l.
Proof.
  vm_compute. repeat split; discriminate.
Qed.

(** At a UTC midnight the filter also keeps the date seven days before
    today. *)
Example week_filter_at_midnight :
  let clk := JSDate.mkClock (19732 * JSDate.MS_PER_DAY) 0 in
  let l := [ mkTransaction "1" 100 expense food "2024-01-03" "" ] in
  today clk = 19732
  /\ JSDate.dayNumber "2024-01-03" = Some (19732 - 7)
  /\ fst (Analytics.filterByPeriod clk week "" "" l) = l.
Proof.
  vm_compute. repeat split.
Qed.

(** C2, as the code has it.  When the start date or the end date of a
    custom period is empty, no date filter is applied: every transaction
    handed to the filter is kept, grouping stays daily, and nothing is
    raised. *)
Theorem custom_filter_missing_bound
    (clk : JSDate.Clock) (startDate endDate : string)
    (l : list Transaction) :
  startDate = ""%string \/ endDate = ""%string ->
  Analytics.filterByPeriod clk custom startDate endDate l = (l, false).
Proof.
  unfold Analytics.filterByPeriod, Analytics.nonEmpty.
  intros [-> | ->]; simpl; [reflexivity|].
  now rewrite Bool.andb_false_r.
Qed.

Example custom_filter_missing_bound_witness :
  let l := [ mkTransaction "1" 100 expense food "2024-02-01" "" ] in
  Analytics.filterByPeriod (JSDate.mkClock 0 0) custom "" "2024-01-31" l
  = (l, false).
Proof.
  intro l.
  apply (custom_filter_missing_bound (JSDate.mkClock 0 0) "" "2024-01-31" l).
  left. reflexivity.
Defined.

(** C2 fails as stated: with an empty start date the custom filter
    returns the transaction it was given, not the empty list. *)
Example custom_filter_missing_bound_not_empty :
  ~ (fst (Analytics.filterByPeriod (JSDate.mkClock 0 0) custom
            "" "2024-01-31"
            [ mkTransaction "1" 100 expense food "2024-02-01" "" ])
     = []).
Proof.
  vm_compute. discriminate.
Qed.

(** C5. For a custom period whose start and end are calendar dates,
    grouping is monthly exactly when the end is more than 60 days after
    the start; a period of exactly 60 days, or less, is grouped by day. *)
Theorem custom_grouping_threshold
    (clk : JSDate.Clock) (startDate endDate : string) (ds de : Z)
    (l : list Transaction) :
  JSDate.dayNumber startDate = Some ds ->
  JSDate.dayNumber endDate = Some de ->
  (snd (Analytics.filterByPeriod clk custom startDate endDate l) = true
   <-> 60 < de - ds)
  /\ (de - ds <= 60 ->
      snd (Analytics.filterByPeriod clk custom startDate endDate l) = false).
Proof.
  intros Hs He.
  assert (H : snd (Analytics.filterByPeriod clk custom startDate endDate l)
              = true <-> 60 < de - ds).
  { unfold Analytics.filterByPeriod.
    rewrite (dayNumber_nonEmpty _ _ Hs), (dayNumber_nonEmpty _ _ He).
    unfold JSDate.parse. rewrite Hs, He. simpl.
    apply daysDiff_gt_60. }
  split; [exact H|].
  intro Hle. apply Bool.not_true_iff_false. rewrite H. lia.
Qed.

(** The boundary: 2024-01-01 to 2024-03-01 is 60 days and is grouped by
    day; one day more is grouped by month. *)
Example custom_grouping_threshold_witness :
  snd (Analytics.filterByPeriod (JSDate.mkClock 0 0) custom
         "2024-01-01" "2024-03-01" []) = false
  /\ snd (Analytics.filterByPeriod (JSDate.mkClock 0 0) custom
            "2024-01-01" "2024-03-02" []) = true.
Proof.
  split.
  - apply (custom_grouping_threshold (JSDate.mkClock 0 0)
             "2024-01-01" "2024-03-01" 19723 19783 [] eq_refl eq_refl).
    lia.
  - apply (custom_grouping_threshold (JSDate.mkClock 0 0)
             "2024-01-01" "2024-03-02" 19723 19784 [] eq_refl eq_refl).
    lia.
Defined.

(** ** The JSON codec reads back what it writes *)

Section JSONTextRoundTrip.

Import JSONText.
Local Open Scope string_scope.

Lemma append_assoc (a b c : string) : (a ++ b) ++ c = a ++ (b ++ c).
Proof. induction a; simpl; congruence. Qed.

Lemma length_append (a b : string) :
  String.length (a ++ b) = (String.length a + String.length b)%nat.
Proof. induction a; simpl; congruence. Qed.

Lemma readChars_escapeChar (c : ascii) (tail : string) :
  readChars (escapeChar c ++ tail) = consChar c (readChars tail).
Proof.
  destruct c as [[] [] [] [] [] [] [] []]; reflexivity.
Qed.

Lemma readChars_escape (s rest : string) :
  readChars (escape s ++ String quote rest) = Some (s, rest).
Proof.
  induction s as [|c s IH]; simpl.
  - reflexivity.
  - rewrite append_assoc, readChars_escapeChar, IH. reflexivity.
Qed.

Lemma takeDigits_uint (d : Decimal.uint) (rest : string) :
  Constants.startsWithDigit rest = false ->
  takeDigits (NilEmpty.string_of_uint d ++ rest)
  = (NilEmpty.string_of_uint d, rest).
Proof.
  intro H. induction d; simpl; try (rewrite IHd; reflexivity).
  destruct rest as [|c r]; simpl in *; [reflexivity|]. now rewrite H.
Qed.

Lemma to_uint_head (p : positive) :
  exists c s, NilEmpty.string_of_uint (Pos.to_uint p) = String c s
              /\ Constants.isDigit c = true /\ Ascii.eqb c "0" = false.
Proof.
  pose proof (Unsigned.to_uint_nonzero p) as Hnz.
  pose proof (Unsigned.to_uint_nonnil p) as Hnn.
  pose proof (Unsigned.to_of (Pos.to_uint p)) as Hn.
  rewrite Unsigned.of_to in Hn. simpl in Hn.
  destruct (Pos.to_uint p) as [|d|d|d|d|d|d|d|d|d|d] eqn:E;
    try (eexists _, _; repeat split; reflexivity).
  - congruence.
  - exfalso. rewrite unorm_D0 in Hn. unfold Decimal.unorm in Hn.
    destruct (Decimal.nzhead d) eqn:En; try discriminate Hn.
    + apply Hnz. congruence.
    + apply (nzhead_nonzero d u). congruence.
Qed.

Lemma uint_of_string_to_uint (p : positive) :
  NilZero.uint_of_string (NilEmpty.string_of_uint (Pos.to_uint p))
  = Some (Pos.to_uint p).
Proof.
  rewrite <- (NilZero.usu (Pos.to_uint p) (Unsigned.to_uint_nonnil p)).
  unfold NilZero.string_of_uint.
  destruct (Pos.to_uint p) eqn:E; try reflexivity.
  destruct (Unsigned.to_uint_nonnil p E).
Qed.

Lemma digit_not_minus (c : ascii) :
  Constants.isDigit c = true -> Ascii.eqb c "-" = false.
Proof.
  destruct c as [[] [] [] [] [] [] [] []]; try discriminate; reflexivity.
Qed.

Lemma readNumber_digits (p : positive) (rest : string) :
  delimited rest = true ->
  readNumber (NilEmpty.string_of_uint (Pos.to_uint p) ++ rest)
  = Some (Z.pos p, rest).
Proof.
  intro H. unfold delimited in H. apply andb_prop in H as [Hd Hf].
  apply negb_true_iff in Hd, Hf.
  pose proof (takeDigits_uint (Pos.to_uint p) rest Hd) as Ht.
  pose proof (uint_of_string_to_uint p) as Hu.
  destruct (to_uint_head p) as (c & s & E & Hc & H0).
  unfold readNumber.
  rewrite E in Ht, Hu |- *. cbn [append] in Ht |- *.
  rewrite (digit_not_minus c Hc), Ht, H0, Hf, Hu. cbn.
  unfold Z.of_uint. rewrite Unsigned.of_to. reflexivity.
Qed.

Lemma readNumber_negative (p : positive) (rest : string) :
  delimited rest = true ->
  readNumber (String "-" (NilEmpty.string_of_uint (Pos.to_uint p) ++ rest))
  = Some (Z.neg p, rest).
Proof.
  intro H. unfold delimited in H. apply andb_prop in H as [Hd Hf].
  apply negb_true_iff in Hd, Hf.
  pose proof (takeDigits_uint (Pos.to_uint p) rest Hd) as Ht.
  pose proof (uint_of_string_to_uint p) as Hu.
  destruct (to_uint_head p) as (c & s & E & Hc & H0).
  unfold readNumber.
  rewrite E in Ht, Hu |- *. cbn [append] in Ht |- *.
  change (Ascii.eqb "-" "-") with true. cbv iota.
  rewrite Ht, H0, Hf, Hu. cbn.
  unfold Z.of_uint. rewrite Unsigned.of_to. reflexivity.
Qed.

Lemma readNumber_numberText (n : Z) (rest : string) :
  delimited rest = true ->
  readNumber (numberText n ++ rest) = Some (n, rest).
Proof.
  intro H. destruct n as [|p|p]; unfold numberText; simpl Z.to_int.
  - unfold delimited in H. apply andb_prop in H as [Hd Hf].
    apply negb_true_iff in Hd, Hf.
    pose proof (takeDigits_uint (Decimal.D0 Decimal.Nil) rest Hd) as Ht.
    cbn [NilEmpty.string_of_uint append] in Ht.
    unfold readNumber. cbn [NilZero.string_of_int NilZero.string_of_uint append].
    change (NilEmpty.string_of_uint (Decimal.D0 Decimal.Nil) ++ rest)
      with (String "0" rest).
    cbv beta iota zeta.
    change (Ascii.eqb "0" "-") with false. cbv beta iota zeta.
    rewrite Ht. cbn. rewrite Hf. reflexivity.
  - simpl NilZero.string_of_int. unfold NilZero.string_of_uint.
    destruct (Pos.to_uint p) eqn:E;
      try (rewrite <- E; now apply readNumber_digits).
    destruct (Unsigned.to_uint_nonnil p E).
  - simpl NilZero.string_of_int. unfold NilZero.string_of_uint.
    destruct (Pos.to_uint p) eqn:E;
      try (rewrite <- E; now apply readNumber_negative).
    destruct (Unsigned.to_uint_nonnil p E).
Qed.

(** The first character of a number. *)
Lemma numberText_head (n : Z) :
  exists c s, numberText n = String c s
              /\ (Constants.isDigit c = true \/ c = "-"%char).
Proof.
  destruct n as [|p|p]; unfold numberText; simpl Z.to_int.
  - eexists _, _. split; [reflexivity|]. left. reflexivity.
  - simpl NilZero.string_of_int. unfold NilZero.string_of_uint.
    destruct (to_uint_head p) as (c & s & E & Hc & _).
    destruct (Pos.to_uint p) eqn:E';
      try (rewrite E; eexists _, _; split; [reflexivity|now left]).
    destruct (Unsigned.to_uint_nonnil p E').
  - eexists _, _. split; [reflexivity|]. right. reflexivity.
Qed.

(** Induction on a value, with the property supposed of the elements of
    an array and of the members of an object. *)
Lemma JSValue_nested_ind (P : JSValue -> Prop) :
  P JNull ->
  (forall b, P (JBool b)) ->
  (forall n, P (JNumber n)) ->
  (forall s, P (JString s)) ->
  (forall items, Forall P items -> P (JArray items)) ->
  (forall props, Forall (fun kv => P (snd kv)) props -> P (JObject props)) ->
  forall v, P v.
Proof.
  intros Hnull Hbool Hnumber Hstring Harray Hobject.
  fix IH 1. intros [| b | n | s | items | props].
  - exact Hnull.
  - apply Hbool.
  - apply Hnumber.
  - apply Hstring.
  - apply Harray. induction items as [|x items IHitems]; constructor.
    + apply IH.
    + exact IHitems.
  - apply Hobject. induction props as [|[k x] props IHprops]; constructor.
    + apply IH.
    + exact IHprops.
Qed.

Lemma skipWhitespace_ws (ws s : string) :
  allWhitespace ws = true -> skipWhitespace (ws ++ s) = skipWhitespace s.
Proof.
  induction ws as [|c ws IH]; simpl; [reflexivity|].
  intro H. apply andb_prop in H as [Hc Hws]. rewrite Hc. now apply IH.
Qed.

Lemma skipWhitespace_head (c : ascii) (r : string) :
  isWhitespace c = false -> skipWhitespace (String c r) = String c r.
Proof. intro H. simpl. now rewrite H. Qed.

Lemma allWhitespace_app (a b : string) :
  allWhitespace a = true -> allWhitespace b = true ->
  allWhitespace (a ++ b) = true.
Proof.
  induction a as [|c a IH]; simpl; [auto|].
  intros H Hb. apply andb_prop in H as [Hc Ha]. rewrite Hc. now apply IH.
Qed.

Lemma readValue_ws (f : nat) (ws s : string) :
  allWhitespace ws = true -> readValue f (ws ++ s) = readValue f s.
Proof.
  intro H. destruct f as [|f]; [reflexivity|].
  simpl. now rewrite (skipWhitespace_ws ws s H).
Qed.

Lemma readMembers_ws (f : nat) (acc : list (string * JSValue))
    (ws s : string) :
  allWhitespace ws = true -> readMembers f acc (ws ++ s) = readMembers f acc s.
Proof.
  intro H. destruct f as [|f]; [reflexivity|].
  simpl. now rewrite (skipWhitespace_ws ws s H).
Qed.

(** Every text of a value starts with a character that is neither white
    space nor a closing bracket. *)
Lemma stringifyAt_head (v : JSValue) (indent : string) :
  exists c s, stringifyAt indent v = String c s
              /\ isWhitespace c = false /\ Ascii.eqb c "]" = false.
Proof.
  destruct v as [|[]|n|s|[|x xs]|[|kv props]];
    try (eexists _, _; repeat split; reflexivity).
  simpl. destruct (numberText_head n) as (c & s & -> & [Hc | ->]).
  - exists c, s. split; [reflexivity|].
    destruct c as [[] [] [] [] [] [] [] []]; try discriminate Hc;
      split; reflexivity.
  - eexists _, _; repeat split; reflexivity.
Qed.

Lemma readValue_number (f : nat) (c : ascii) (s : string) :
  Constants.isDigit c = true \/ c = "-"%char ->
  readValue (S f) (String c s)
  = match readNumber (String c s) with
    | Some (n, r) => Some (JNumber n, r)
    | None => None
    end.
Proof.
  intros [Hc|Hc]; destruct c as [[] [] [] [] [] [] [] []];
    try discriminate Hc; reflexivity.
Qed.

Lemma readsBack_number (n : Z) : readsBack (JNumber n).
Proof.
  intros indent rest f _ Hrest Hf. simpl in *.
  destruct f as [|f]; [lia|].
  pose proof (readNumber_numberText n rest Hrest) as Hn.
  destruct (numberText_head n) as (c & s & E & Hc).
  rewrite E in Hn |- *. cbn [append] in Hn |- *.
  now rewrite (readValue_number f c _ Hc), Hn.
Qed.

Lemma readsBack_string (s : string) : readsBack (JString s).
Proof.
  intros indent rest f _ _ Hf. simpl in *.
  destruct f as [|f]; [lia|].
  unfold quoted. cbn [append]. rewrite append_assoc. cbn [append].
  change (readValue (S f) (String quote (escape s ++ String quote rest)))
    with (match readChars (escape s ++ String quote rest) with
          | Some (body, r) => Some (JString body, r)
          | None => None
          end).
  now rewrite readChars_escape.
Qed.

Lemma join_cons (sep p : string) (ps : list string) :
  join sep (p :: ps)
  = match ps with [] => p | _ :: _ => p ++ sep ++ join sep ps end.
Proof. destruct ps; reflexivity. Qed.

Lemma delimited_head (c : ascii) (r : string) :
  Constants.isDigit c = false ->
  (Ascii.eqb c "." || Ascii.eqb c "e" || Ascii.eqb c "E") = false ->
  delimited (String c r) = true.
Proof. intros H1 H2. unfold delimited; simpl. now rewrite H1, H2. Qed.

Lemma readElements_eq (f : nat) (acc : list JSValue) (s : string) :
  readElements (S f) acc s
  = match readValue f s with
    | Some (v, r) =>
        match skipWhitespace r with
        | String c r' =>
            if Ascii.eqb c "," then readElements f (acc ++ [v]) r'
            else if Ascii.eqb c "]" then Some (JArray (acc ++ [v]), r')
            else None
        | EmptyString => None
        end
    | None => None
    end.
Proof. reflexivity. Qed.

Lemma readElements_items (indent rest : string) (items : list JSValue) :
  allWhitespace indent = true ->
  Forall readsBack items ->
  items <> [] ->
  forall (acc : list JSValue) (f : nat),
    (String.length
       (join ("," ++ newline)
          (map (fun x => (indent ++ "  ")
                         ++ stringifyAt (indent ++ "  ") x) items)) < f)%nat ->
    readElements f acc
      (newline
       ++ join ("," ++ newline)
            (map (fun x => (indent ++ "  ")
                           ++ stringifyAt (indent ++ "  ") x) items)
       ++ newline ++ indent ++ "]" ++ rest)
    = Some (JArray (acc ++ items), rest).
Proof.
  intros Hind Hall. 
  assert (Hinner : allWhitespace (indent ++ "  ") = true)
    by (apply allWhitespace_app; [assumption|reflexivity]).
  induction Hall as [|x xs Hx Hxs IH]; [congruence|].
  intros _ acc f Hf. cbn [map] in *. rewrite join_cons in *.
  destruct f as [|f]; [lia|]. rewrite readElements_eq.
  destruct xs as [|y ys].
  - (* the last element *)
    cbn [map] in *.
    rewrite !length_append in Hf. cbn [String.length] in Hf.
    rewrite !append_assoc.
    rewrite (readValue_ws f newline _ eq_refl).
    rewrite (readValue_ws f indent _ Hind).
    rewrite (readValue_ws f "  " _ eq_refl).
    rewrite (Hx (indent ++ "  ") (newline ++ indent ++ "]" ++ rest) f
               Hinner eq_refl) by lia.
    rewrite (skipWhitespace_ws newline _ eq_refl).
    rewrite (skipWhitespace_ws indent _ Hind).
    reflexivity.
  - (* an element followed by others *)
    remember (y :: ys) as more eqn:Emore.
    assert (Hmore : more <> []) by (subst more; discriminate).
    specialize (IH Hmore).
    assert (Ej : (match map (fun x0 => (indent ++ "  ")
                            ++ stringifyAt (indent ++ "  ") x0) more with
                  | [] => (indent ++ "  ") ++ stringifyAt (indent ++ "  ") x
                  | _ :: _ =>
                      ((indent ++ "  ") ++ stringifyAt (indent ++ "  ") x)
                      ++ ("," ++ newline)
                      ++ join ("," ++ newline)
                           (map (fun x0 => (indent ++ "  ")
                                   ++ stringifyAt (indent ++ "  ") x0) more)
                  end)
                 = ((indent ++ "  ") ++ stringifyAt (indent ++ "  ") x)
                      ++ ("," ++ newline)
                      ++ join ("," ++ newline)
                           (map (fun x0 => (indent ++ "  ")
                                   ++ stringifyAt (indent ++ "  ") x0) more)).
    { subst more. reflexivity. }
    rewrite Ej in *. clear Ej.
    rewrite !length_append in Hf. cbn [String.length] in Hf.
    rewrite !append_assoc.
    rewrite (readValue_ws f newline _ eq_refl).
    rewrite (readValue_ws f indent _ Hind).
    rewrite (readValue_ws f "  " _ eq_refl).
    cbn [append].
    rewrite (Hx (indent ++ "  ") _ f Hinner (delimited_head "," _ eq_refl eq_refl))
      by lia.
    rewrite skipWhitespace_head by reflexivity.
    change (Ascii.eqb "," ",") with true. cbv iota.
    transitivity (Some (JArray ((acc ++ [x]) ++ more), rest));
      [|now rewrite <- app_assoc].
    rewrite <- (IH (acc ++ [x])%list f) by lia.
    reflexivity.
Qed.

Lemma readMembers_eq (f : nat) (acc : list (string * JSValue)) (s : string) :
  readMembers (S f) acc s
  = match skipWhitespace s with
    | String q r0 =>
        if Ascii.eqb q quote then
          match readChars r0 with
          | Some (k, r1) =>
              match skipWhitespace r1 with
              | String colon r2 =>
                  if Ascii.eqb colon ":" then
                    match readValue f r2 with
                    | Some (v, r3) =>
                        match skipWhitespace r3 with
                        | String c r4 =>
                            if Ascii.eqb c ","
                            then readMembers f (assign acc k v) r4
                            else if Ascii.eqb c "}"
                            then Some (JObject (assign acc k v), r4)
                            else None
                        | EmptyString => None
                        end
                    | None => None
                    end
                  else None
              | EmptyString => None
              end
          | None => None
          end
        else None
    | EmptyString => None
    end.
Proof. reflexivity. Qed.

Lemma assign_fresh (acc : list (string * JSValue)) (k : string)
    (v : JSValue) :
  ~ In k (map fst acc) -> assign acc k v = (acc ++ [(k, v)])%list.
Proof.
  induction acc as [|[k' v'] acc IH]; simpl; [reflexivity|].
  intro H. destruct (String.eqb_spec k' k) as [->|_].
  - destruct H. now left.
  - rewrite IH; [reflexivity|]. intro Hin. apply H. now right.
Qed.

Lemma readMembers_props (indent rest : string)
    (props : list (string * JSValue)) :
  allWhitespace indent = true ->
  Forall (fun kv => readsBack (snd kv)) props ->
  props <> [] ->
  forall (acc : list (string * JSValue)) (f : nat),
    NoDup (map fst (acc ++ props)) ->
    (String.length
       (join ("," ++ newline)
          (map (fun kv => (indent ++ "  ") ++ quoted (fst kv) ++ ": "
                          ++ stringifyAt (indent ++ "  ") (snd kv)) props))
     < f)%nat ->
    readMembers f acc
      (newline
       ++ join ("," ++ newline)
            (map (fun kv => (indent ++ "  ") ++ quoted (fst kv) ++ ": "
                            ++ stringifyAt (indent ++ "  ") (snd kv)) props)
       ++ newline ++ indent ++ "}" ++ rest)
    = Some (JObject (acc ++ props), rest).
Proof.
  intros Hind Hall.
  assert (Hinner : allWhitespace (indent ++ "  ") = true)
    by (apply allWhitespace_app; [assumption|reflexivity]).
  induction Hall as [|[k x] xs Hx Hxs IH]; [congruence|].
  intros _ acc f Hnd Hf. cbn [map fst snd] in *. rewrite join_cons in *.
  assert (Hfresh : assign acc k x = (acc ++ [(k, x)])%list).
  { apply assign_fresh. rewrite map_app in Hnd. cbn [map fst] in Hnd.
    apply NoDup_remove_2 in Hnd. intro Hin. apply Hnd.
    apply in_or_app. now left. }
  destruct f as [|f]; [lia|].
  destruct xs as [|y ys].
  - (* the last member *)
    cbn [map] in *.
    rewrite !length_append in Hf. cbn [String.length] in Hf.
    unfold quoted. rewrite !append_assoc. cbn [append].
    rewrite (readMembers_ws (S f) acc newline _ eq_refl).
    rewrite (readMembers_ws (S f) acc indent _ Hind).
    change (String " " (String " " ?s)) with ("  " ++ s).
    rewrite (readMembers_ws (S f) acc "  " _ eq_refl).
    rewrite readMembers_eq.
    rewrite skipWhitespace_head by reflexivity.
    change (Ascii.eqb quote quote) with true. cbv iota.
    rewrite append_assoc. cbn [append].
    rewrite readChars_escape.
    rewrite skipWhitespace_head by reflexivity.
    change (Ascii.eqb ":" ":") with true. cbv iota.
    change (String " " ?s) with (" " ++ s).
    rewrite (readValue_ws f " " _ eq_refl).
    rewrite (Hx (indent ++ "  ") _ f Hinner); [|reflexivity|lia].
    rewrite (skipWhitespace_ws newline _ eq_refl).
    rewrite (skipWhitespace_ws indent _ Hind).
    rewrite Hfresh. reflexivity.
  - remember (y :: ys) as more eqn:Emore.
    assert (Hmore : more <> []) by (subst more; discriminate).
    specialize (IH Hmore).
    replace (match map (fun kv => (indent ++ "  ") ++ quoted (fst kv) ++ ": "
                          ++ stringifyAt (indent ++ "  ") (snd kv)) more with
             | [] => (indent ++ "  ") ++ quoted k ++ ": "
                     ++ stringifyAt (indent ++ "  ") x
             | _ :: _ =>
                 ((indent ++ "  ") ++ quoted k ++ ": "
                  ++ stringifyAt (indent ++ "  ") x)
                 ++ ("," ++ newline)
                 ++ join ("," ++ newline)
                      (map (fun kv => (indent ++ "  ") ++ quoted (fst kv)
                              ++ ": " ++ stringifyAt (indent ++ "  ") (snd kv))
                           more)
             end)
      with (((indent ++ "  ") ++ quoted k ++ ": "
                  ++ stringifyAt (indent ++ "  ") x)
                 ++ ("," ++ newline)
                 ++ join ("," ++ newline)
                      (map (fun kv => (indent ++ "  ") ++ quoted (fst kv)
                              ++ ": " ++ stringifyAt (indent ++ "  ") (snd kv))
                           more)) in *
      by (subst more; reflexivity).
    rewrite !length_append in Hf. cbn [String.length] in Hf.
    unfold quoted. rewrite !append_assoc. cbn [append].
    rewrite (readMembers_ws (S f) acc newline _ eq_refl).
    rewrite (readMembers_ws (S f) acc indent _ Hind).
    change (String " " (String " " ?s)) with ("  " ++ s).
    rewrite (readMembers_ws (S f) acc "  " _ eq_refl).
    rewrite readMembers_eq.
    rewrite skipWhitespace_head by reflexivity.
    change (Ascii.eqb quote quote) with true. cbv iota.
    rewrite append_assoc. cbn [append].
    rewrite readChars_escape.
    rewrite skipWhitespace_head by reflexivity.
    change (Ascii.eqb ":" ":") with true. cbv iota.
    change (String " " ?s) with (" " ++ s).
    rewrite (readValue_ws f " " _ eq_refl).
    rewrite (Hx (indent ++ "  ") _ f Hinner); [|reflexivity|lia].
    rewrite skipWhitespace_head by reflexivity.
    change (Ascii.eqb "," ",") with true. cbv iota.
    rewrite Hfresh.
    transitivity (Some (JObject ((acc ++ [(k, x)]) ++ more), rest));
      [|now rewrite <- app_assoc].
    rewrite <- (IH (acc ++ [(k, x)])%list f); [reflexivity| |lia].
    now rewrite <- app_assoc.
Qed.

Lemma readValue_array_eq (f : nat) (r : string) :
  readValue (S f) (String "[" r)
  = match skipWhitespace r with
    | String c' r' =>
        if Ascii.eqb c' "]" then Some (JArray [], r')
        else readElements f [] r
    | EmptyString => None
    end.
Proof. reflexivity. Qed.

Lemma readValue_object_eq (f : nat) (r : string) :
  readValue (S f) (String "{" r)
  = match skipWhitespace r with
    | String c' r' =>
        if Ascii.eqb c' "}" then Some (JObject [], r')
        else readMembers f [] r
    | EmptyString => None
    end.
Proof. reflexivity. Qed.

Lemma readsBack_array (items : list JSValue) :
  Forall readsBack items -> readsBack (JArray items).
Proof.
  intros Hall indent rest f Hind Hrest Hf.
  destruct f as [|f]; [lia|].
  destruct items as [|x xs]; [reflexivity|].
  pose proof (readElements_items indent rest (x :: xs) Hind Hall
                ltac:(discriminate) [] f) as Hel.
  cbn [stringifyAt] in Hf |- *.
  set (body := join ("," ++ newline)
                 (map (fun x0 => (indent ++ "  ")
                                 ++ stringifyAt (indent ++ "  ") x0)
                      (x :: xs))) in *.
  rewrite !length_append in Hf. cbn [String.length] in Hf.
  rewrite !append_assoc. cbn [append] in Hel |- *.
  rewrite readValue_array_eq, Hel by lia.
  subst body. cbn [map]. rewrite join_cons.
  destruct (stringifyAt_head x (indent ++ "  ")) as (c & s & E & Hws & Hnb).
  assert (Hskip : forall tail,
             skipWhitespace
               (newline ++ indent ++ "  "
                ++ stringifyAt (indent ++ "  ") x ++ tail)
             = String c (s ++ tail)).
  { intro tail.
    rewrite (skipWhitespace_ws newline _ eq_refl).
    rewrite (skipWhitespace_ws indent _ Hind).
    rewrite (skipWhitespace_ws "  " _ eq_refl).
    rewrite E. cbn [append]. now apply skipWhitespace_head. }
  destruct (map _ xs); rewrite !append_assoc; rewrite Hskip, Hnb;
    reflexivity.
Qed.

Lemma readsBack_object (props : list (string * JSValue)) :
  NoDup (map fst props) ->
  Forall (fun kv => readsBack (snd kv)) props -> readsBack (JObject props).
Proof.
  intros Hnd Hall indent rest f Hind Hrest Hf.
  destruct f as [|f]; [lia|].
  destruct props as [|[k x] xs]; [reflexivity|].
  pose proof (readMembers_props indent rest ((k, x) :: xs) Hind Hall
                ltac:(discriminate) [] f Hnd) as Hel.
  cbn [stringifyAt] in Hf |- *.
  set (body := join ("," ++ newline)
                 (map (fun kv => (indent ++ "  ") ++ quoted (fst kv) ++ ": "
                                 ++ stringifyAt (indent ++ "  ") (snd kv))
                      ((k, x) :: xs))) in *.
  rewrite !length_append in Hf. cbn [String.length] in Hf.
  rewrite !append_assoc. cbn [append] in Hel |- *.
  rewrite readValue_object_eq, Hel by lia.
  subst body. cbn [map fst snd]. rewrite join_cons.
  assert (Hskip : forall tail,
             skipWhitespace
               (newline ++ indent ++ "  " ++ quoted k ++ tail)
             = String quote (escape k ++ String quote tail)).
  { intro tail.
    rewrite (skipWhitespace_ws newline _ eq_refl).
    rewrite (skipWhitespace_ws indent _ Hind).
    rewrite (skipWhitespace_ws "  " _ eq_refl).
    unfold quoted. cbn [append]. rewrite append_assoc. cbn [append].
    now apply skipWhitespace_head. }
  destruct (map _ xs); rewrite !append_assoc; rewrite Hskip; reflexivity.
Qed.

Lemma distinctKeys_items (items : list JSValue) :
  fold_right (fun x P => distinctKeys x /\ P) True items ->
  Forall distinctKeys items.
Proof.
  induction items as [|x xs IH]; simpl; [constructor|].
  intros [Hx Hxs]. constructor; auto.
Qed.

Lemma distinctKeys_props (props : list (string * JSValue)) :
  fold_right (fun kv P => distinctKeys (snd kv) /\ P) True props ->
  Forall (fun kv => distinctKeys (snd kv)) props.
Proof.
  induction props as [|x xs IH]; simpl; [constructor|].
  intros [Hx Hxs]. constructor; auto.
Qed.

(** The reader reads back what the printer writes, for every value whose
    objects have no repeated key. *)
Lemma readValue_stringifyAt (v : JSValue) : distinctKeys v -> readsBack v.
Proof.
  induction v as [| b | n | s | items IH | props IH]
    using JSValue_nested_ind; intro Hd.
  - intros indent rest [|f] _ _ Hf; [simpl in Hf; lia|reflexivity].
  - intros indent rest [|f] _ _ Hf; [destruct b; simpl in Hf; lia|].
    destruct b; reflexivity.
  - apply readsBack_number.
  - apply readsBack_string.
  - apply readsBack_array. simpl in Hd. apply distinctKeys_items in Hd.
    rewrite Forall_forall in *. auto.
  - destruct Hd as [Hnd Hd]. apply readsBack_object; [exact Hnd|].
    apply distinctKeys_props in Hd.
    rewrite Forall_forall in *. auto.
Qed.

Lemma append_nil_r (s : string) : s ++ "" = s.
Proof. induction s; simpl; congruence. Qed.

Theorem parse_stringify (v : JSValue) :
  distinctKeys v -> parse (stringify v) = Some v.
Proof.
  intro Hd. unfold parse, stringify.
  pose proof (readValue_stringifyAt v Hd "" ""
                (2 * String.length (stringifyAt "" v) + 2)%nat
                eq_refl eq_refl ltac:(lia)) as H.
  rewrite append_nil_r in H. rewrite H. reflexivity.
Qed.

Lemma distinctKeys_ofTransaction (t : Transaction) :
  distinctKeys (JS.ofTransaction t).
Proof.
  simpl. split; [|tauto].
  repeat constructor; simpl; intuition discriminate.
Qed.

Lemma roundTrips_transactions (txs : list Transaction) :
  roundTrips codec (JArray (map JS.ofTransaction txs)).
Proof.
  apply parse_stringify.
  change (fold_right (fun x P => distinctKeys x /\ P) True
            (map JS.ofTransaction txs)).
  induction txs as [|t txs IH]; cbn [map fold_right]; [exact I|].
  split; [apply distinctKeys_ofTransaction|exact IH].
Qed.

End JSONTextRoundTrip.

(** ** Import and export of the backup *)

(** C7. A file whose text parses to a value that is not an array is
    refused with the notice that the file must hold an array; the
    transactions of the store stay as they were, whether or not the user
    would have confirmed. *)
Theorem import_rejects_non_array
    (json : JSON) (onImportData : option (list JSValue -> World -> World))
    (confirmed : bool) (content : string) (v : JSValue) (w : World) :
  JSON_parse json content = Some v ->
  JS.isArray v = false ->
  let w' :=
    Analytics.handleFileChange json onImportData confirmed (Some content) w in
  transactions w' = transactions w
  /\ alerts w' = alerts w ++ [AlertNotArray].
Proof.
  intros Hparse Harr w'. subst w'. unfold Analytics.handleFileChange.
  rewrite Hparse.
  destruct v; try discriminate Harr; split; reflexivity.
Qed.

Example import_rejects_non_array_witness :
  let tx := mkTransaction "1" 100 expense food "2024-02-01" "x" in
  let content := JSONText.stringify (JS.ofTransaction tx) in
  let w := mkWorld [JS.ofTransaction tx] [] in
  let w' :=
    Analytics.handleFileChange JSONText.codec
      (Some App.handleImportData) true (Some content) w in
  transactions w' = transactions w /\ alerts w' = [AlertNotArray].
Proof.
  intros tx content w.
  apply (import_rejects_non_array JSONText.codec
           (Some App.handleImportData) true content
           (JS.ofTransaction tx) w); reflexivity.
Defined.

Section BackupRoundTrip.

Variable json : JSON.

Lemma wrongFormat_ofTransaction (txs : list Transaction) :
  Analytics.wrongFormat (map JS.ofTransaction txs)
  = inr (negb (firstLooksValid txs)).
Proof.
  destruct txs as [|t rest]; [reflexivity|].
  unfold Analytics.wrongFormat, firstLooksValid, Analytics.nonEmpty; simpl.
  destruct (amount t =? 0); simpl; [reflexivity|].
  now rewrite Bool.negb_involutive.
Qed.

Lemma exportThenImport_result (txs : list Transaction) (w : World) :
  roundTrips json (JArray (map JS.ofTransaction txs)) ->
  exportThenImport json txs w
  = if firstLooksValid txs
    then App.handleImportData (map JS.ofTransaction txs) w
    else alert AlertWrongFormat w.
Proof.
  unfold roundTrips, exportThenImport, Analytics.handleFileChange,
    Analytics.handleExportJSON.
  intros ->. rewrite wrongFormat_ofTransaction.
  now destruct (firstLooksValid txs).
Qed.

End BackupRoundTrip.

(** C8, as the code has it.  Where the platform's JSON reads back what
    it wrote, importing the backup of a list of transactions, confirmed,
    puts exactly that list in the store, whatever the store held, provided
    the list is empty or its first transaction has a non-zero amount and a
    non-empty date.  The backup of any other list is refused with the
    notice of a wrong format, and the store stays as it was. *)
Theorem backup_round_trip
    (json : JSON) (txs : list Transaction) (w : World) :
  roundTrips json (JArray (map JS.ofTransaction txs)) ->
  (firstLooksValid txs = true ->
   transactions (exportThenImport json txs w) = map JS.ofTransaction txs
   /\ alerts (exportThenImport json txs w)
      = alerts w ++ [AlertRestored (List.length txs)])
  /\ (firstLooksValid txs = false ->
      transactions (exportThenImport json txs w) = transactions w
      /\ alerts (exportThenImport json txs w)
         = alerts w ++ [AlertWrongFormat]).
Proof.
  intros Hrt.
  rewrite (exportThenImport_result json txs w Hrt).
  split; intros ->.
  - unfold App.handleImportData; simpl.
    now rewrite length_map.
  - split; reflexivity.
Qed.

Example backup_round_trip_witness :
  let txs := [ mkTransaction "a1" 100 expense food "2024-01-01" "lunch";
               mkTransaction "b2" 0 income income_category "" "" ] in
  let w := mkWorld [] [] in
  transactions (exportThenImport JSONText.codec txs w)
  = map JS.ofTransaction txs
  /\ alerts (exportThenImport JSONText.codec txs w) = [AlertRestored 2].
Proof.
  intros txs w.
  apply (backup_round_trip JSONText.codec txs w).
  - vm_compute. reflexivity.
  - reflexivity.
Defined.

(** With the codec of this file the premise holds for every list: the
    backup of a list whose first transaction looks valid is restored as it
    was. *)
Corollary backup_round_trip_JSONText (txs : list Transaction) (w : World) :
  firstLooksValid txs = true ->
  transactions (exportThenImport JSONText.codec txs w)
  = map JS.ofTransaction txs.
Proof.
  intro Hvalid.
  rewrite (exportThenImport_result JSONText.codec txs w
             (roundTrips_transactions txs)), Hvalid.
  reflexivity.
Qed.

(** C8 fails as stated: the backup of a list whose first transaction has
    amount 0 is refused by the import, and a store that was empty stays
    empty. *)
Example backup_round_trip_refused :
  let txs := [ mkTransaction "a1" 0 expense food "2024-01-01" "free" ] in
  let w := mkWorld [] [] in
  roundTrips JSONText.codec (JArray (map JS.ofTransaction txs))
  /\ exportThenImport JSONText.codec txs w = mkWorld [] [AlertWrongFormat]
  /\ transactions (exportThenImport JSONText.codec txs w)
     <> map JS.ofTransaction txs.
Proof.
  vm_compute. repeat split; discriminate.
Qed.

(** * Further properties of the code *)

(** ** The transaction store *)

Section Store.

Import App.

Lemma filter_twice {A : Type} (p q : A -> bool) (l : list A) :
  filter q (filter p l) = filter (fun x => p x && q x) l.
Proof.
  induction l as [|x l IH]; simpl; [reflexivity|].
  destruct (p x); simpl; [destruct (q x)|]; now rewrite IH.
Qed.

Lemma filter_all_true {A : Type} (p : A -> bool) (l : list A) :
  (forall x, In x l -> p x = true) -> filter p l = l.
Proof.
  induction l as [|x l IH]; simpl; intro H; [reflexivity|].
  rewrite (H x (or_introl eq_refl)), IH; auto.
Qed.

(** Filtering the store keeps its ids distinct. *)
Lemma filtered_ids_NoDup (keep : Transaction -> bool)
    (prev : list Transaction) :
  NoDup (map id prev) -> NoDup (map id (filter keep prev)).
Proof.
  induction prev as [|t prev IH]; simpl; intro Hnd; [constructor|].
  apply NoDup_cons_iff in Hnd as [Hfresh Hnd].
  destruct (keep t); simpl; [|exact (IH Hnd)].
  apply NoDup_cons; [|exact (IH Hnd)].
  rewrite in_map_iff. intros (t' & Eid & Hin).
  apply filter_In in Hin as [Hin _].
  apply Hfresh. rewrite in_map_iff. now exists t'.
Qed.

Lemma edit_ids (u : Transaction) (l : list Transaction) :
  map id (handleEditTransaction u l) = map id l.
Proof.
  unfold handleEditTransaction. rewrite map_map. apply map_ext.
  intro t. destruct (String.eqb_spec (id t) (id u)); congruence.
Qed.

End Store.

(** X1. Deleting several ids at once gives the list that deleting them
    one after the other gives; for a single id the two handlers agree. *)
Theorem deleteMany_is_repeated_delete
    (ids : list string) (prev : list Transaction) :
  App.handleDeleteManyTransactions ids prev
  = fold_left (fun l i => App.handleDeleteTransaction i l) ids prev
  /\ forall i, App.handleDeleteManyTransactions [i] prev
               = App.handleDeleteTransaction i prev.
Proof.
  split.
  - revert prev. induction ids as [|i ids IH]; intro prev; simpl.
    + unfold App.handleDeleteManyTransactions. simpl.
      now apply filter_all_true.
    + rewrite <- IH.
      unfold App.handleDeleteManyTransactions, App.handleDeleteTransaction.
      rewrite filter_twice. apply filter_ext. intro t. simpl.
      rewrite (String.eqb_sym i (id t)), negb_orb. reflexivity.
  - intro i.
    unfold App.handleDeleteManyTransactions, App.handleDeleteTransaction.
    apply filter_ext. intro t. simpl.
    now rewrite orb_false_r, (String.eqb_sym i (id t)).
Qed.

(** X2. Confirming a deletion removes from the store exactly the
    transactions whose id is among the ids to delete, whichever handler it
    goes through, keeps the others in their order, and leaves no id to
    delete. *)
Theorem confirmDelete_removes_the_ids
    (sel : TransactionListActions.Selection) (store : list Transaction) :
  snd (TransactionListActions.confirmDelete sel store)
  = filter (fun t => negb (existsb (fun i => String.eqb i (id t))
                             (TransactionListActions.idsToDelete sel)))
           store
  /\ TransactionListActions.idsToDelete
       (fst (TransactionListActions.confirmDelete sel store)) = [].
Proof.
  unfold TransactionListActions.confirmDelete.
  destruct sel as [selected ids]; simpl.
  destruct ids as [|i [|j ids]]; simpl; split; try reflexivity.
  - symmetry. now apply filter_all_true.
  - unfold App.handleDeleteTransaction. apply filter_ext. intro t.
    now rewrite orb_false_r, (String.eqb_sym i (id t)).
Qed.

(** X3. A transaction added under an id no stored transaction has is
    taken out again by deleting that id: the store is as before. *)
Theorem add_then_delete
    (newId : string) (t : Transaction) (prev : list Transaction) :
  ~ In newId (map id prev) ->
  App.handleDeleteTransaction newId (App.handleAddTransaction newId t prev)
  = prev.
Proof.
  intro Hfresh.
  unfold App.handleDeleteTransaction, App.handleAddTransaction. simpl.
  rewrite String.eqb_refl. simpl.
  apply filter_all_true. intros x Hx.
  apply negb_true_iff, String.eqb_neq. intro E. apply Hfresh.
  rewrite <- E. now apply in_map.
Qed.

Example add_then_delete_witness :
  let prev := [ mkTransaction "a" 10 expense food "2024-01-01" "" ] in
  App.handleDeleteTransaction "b"
    (App.handleAddTransaction "b"
       (mkTransaction "" 5 income income_category "2024-01-02" "x") prev)
  = prev.
Proof.
  intro prev. apply (add_then_delete "b" _ prev).
  simpl. intros [H|[]]. discriminate H.
Defined.

(** X4. The ids of the store stay pairwise distinct: editing keeps the
    list of ids as it is, deleting one or several ids only removes ids,
    and adding under an id not yet in use adds that id alone. *)
Theorem store_ids_stay_distinct (l : list Transaction) :
  NoDup (map id l) ->
  (forall u, map id (App.handleEditTransaction u l) = map id l)
  /\ (forall i, NoDup (map id (App.handleDeleteTransaction i l)))
  /\ (forall ids, NoDup (map id (App.handleDeleteManyTransactions ids l)))
  /\ (forall newId t, ~ In newId (map id l) ->
        NoDup (map id (App.handleAddTransaction newId t l))).
Proof.
  intro Hnd. repeat split.
  - intro u. apply edit_ids.
  - intro i. now apply filtered_ids_NoDup.
  - intro ids. now apply filtered_ids_NoDup.
  - intros newId t Hfresh. simpl. now constructor.
Qed.

Example store_ids_stay_distinct_witness :
  let l := [ mkTransaction "a" 10 expense food "2024-01-01" "";
             mkTransaction "b" 20 expense other "2024-01-02" "" ] in
  NoDup (map id (App.handleDeleteTransaction "a" l))
  /\ NoDup (map id (App.handleAddTransaction "c"
                      (mkTransaction "" 5 expense food "2024-01-03" "") l)).
Proof.
  intro l.
  assert (Hnd : NoDup (map id l)).
  { simpl. repeat constructor; simpl; intuition discriminate. }
  destruct (store_ids_stay_distinct l Hnd) as (_ & Hdel & _ & Hadd).
  split; [apply Hdel|apply Hadd].
  simpl. intuition discriminate.
Defined.

(** X5. Editing with an update whose id no stored transaction has
    changes nothing: the update is not added. *)
Theorem edit_of_unknown_id (u : Transaction) (l : list Transaction) :
  ~ In (id u) (map id l) -> App.handleEditTransaction u l = l.
Proof.
  intro Hnot. unfold App.handleEditTransaction.
  rewrite <- (map_id l) at 2. apply map_ext_in. intros t Ht.
  destruct (String.eqb_spec (id t) (id u)) as [E|_]; [|reflexivity].
  destruct Hnot. rewrite <- E. now apply in_map.
Qed.

Example edit_of_unknown_id_witness :
  let l := [ mkTransaction "a" 10 expense food "2024-01-01" "" ] in
  App.handleEditTransaction
    (mkTransaction "z" 99 income income_category "2024-05-05" "new") l = l.
Proof.
  intro l. apply edit_of_unknown_id. simpl. intros [H|[]]. discriminate H.
Defined.

(** X6. Of two edits under the same id the later one wins, so an edit
    done twice is the edit done once; and deleting the id afterwards
    gives what deleting it at once gives. *)
Theorem edits_compose (u1 u2 : Transaction) (l : list Transaction) :
  id u1 = id u2 ->
  App.handleEditTransaction u2 (App.handleEditTransaction u1 l)
  = App.handleEditTransaction u2 l
  /\ App.handleDeleteTransaction (id u2) (App.handleEditTransaction u1 l)
     = App.handleDeleteTransaction (id u2) l.
Proof.
  intro E. unfold App.handleEditTransaction, App.handleDeleteTransaction.
  rewrite E. split.
  - rewrite map_map. apply map_ext. intro t.
    destruct (String.eqb_spec (id t) (id u2)) as [Ht|Ht].
    + rewrite E, String.eqb_refl. reflexivity.
    + apply String.eqb_neq in Ht. now rewrite Ht.
  - induction l as [|t l IH]; simpl; [reflexivity|].
    destruct (String.eqb_spec (id t) (id u2)) as [Ht|Ht].
    + rewrite E, String.eqb_refl. simpl. exact IH.
    + apply String.eqb_neq in Ht. rewrite Ht. simpl. now rewrite IH.
Qed.

Example edits_compose_witness :
  let l := [ mkTransaction "a" 10 expense food "2024-01-01" "";
             mkTransaction "b" 20 expense other "2024-01-02" "" ] in
  let u1 := mkTransaction "b" 30 expense food "2024-01-03" "first" in
  let u2 := mkTransaction "b" 40 expense health "2024-01-04" "second" in
  App.handleEditTransaction u2 (App.handleEditTransaction u1 l)
  = App.handleEditTransaction u2 l.
Proof.
  intros l u1 u2. apply (edits_compose u1 u2 l). reflexivity.
Defined.

(** ** The selection of categories *)

Section CategorySelection.

Import Analytics.

Lemma Category_eqb_eq (a b : Category) : Category_eqb a b = true <-> a = b.
Proof. destruct a, b; simpl; split; congruence. Qed.

Lemma Category_eqb_refl (a : Category) : Category_eqb a a = true.
Proof. now apply Category_eqb_eq. Qed.

Lemma Category_eqb_sym (a b : Category) :
  Category_eqb a b = Category_eqb b a.
Proof. destruct a, b; reflexivity. Qed.

Lemma includes_In (sel : list Category) (c : Category) :
  includes sel c = true <-> In c sel.
Proof.
  unfold includes. rewrite existsb_exists. split.
  - intros (x & Hx & E). apply Category_eqb_eq in E. now subst.
  - intro H. exists c. split; [exact H|apply Category_eqb_refl].
Qed.

Lemma includes_app (a b : list Category) (c : Category) :
  includes (a ++ b) c = includes a c || includes b c.
Proof. unfold includes. apply existsb_app. Qed.

Lemma includes_remove (sel : list Category) (cat c : Category) :
  includes (filter (fun x => negb (Category_eqb x cat)) sel) c
  = negb (Category_eqb c cat) && includes sel c.
Proof.
  induction sel as [|x sel IH]; simpl.
  - now rewrite andb_false_r.
  - destruct (Category_eqb x cat) eqn:Ex; simpl.
    + apply Category_eqb_eq in Ex. subst x.
      fold (includes sel c) in *. rewrite IH.
      destruct (Category_eqb c cat); reflexivity.
    + fold (includes (filter (fun x0 => negb (Category_eqb x0 cat)) sel) c)
           (includes sel c) in *.
      rewrite IH. destruct (Category_eqb c x) eqn:Ec; simpl.
      * apply Category_eqb_eq in Ec. subst c. now rewrite Ex.
      * reflexivity.
Qed.

End CategorySelection.

(** X7. Toggling a category changes whether that category is selected
    and leaves every other category as it was. *)
Theorem toggleCategory_flips_one
    (cat c : Category) (prev : list Category) :
  Analytics.includes (Analytics.toggleCategory cat prev) c
  = if Category_eqb c cat then negb (Analytics.includes prev cat)
    else Analytics.includes prev c.
Proof.
  unfold Analytics.toggleCategory.
  destruct (Analytics.includes prev cat) eqn:Hsel.
  - rewrite includes_remove.
    destruct (Category_eqb c cat); reflexivity.
  - rewrite includes_app. simpl. unfold Analytics.includes at 2. simpl.
    rewrite orb_false_r.
    destruct (Category_eqb c cat) eqn:Ec.
    + apply Category_eqb_eq in Ec. subst c. now rewrite Hsel.
    + apply orb_false_r.
Qed.

(** X8. A selection without repetition made of expense categories stays
    one under both toggles, the initial selection is one, and on such a
    selection "toggle all" clears exactly when every expense category is
    selected and selects them all otherwise. *)
Theorem selection_stays_well_formed (sel : list Category) :
  NoDup sel -> incl sel Analytics.EXPENSE_CATEGORIES ->
  (forall cat, In cat Analytics.EXPENSE_CATEGORIES ->
     NoDup (Analytics.toggleCategory cat sel)
     /\ incl (Analytics.toggleCategory cat sel) Analytics.EXPENSE_CATEGORIES)
  /\ NoDup (Analytics.toggleAllCategories sel)
  /\ incl (Analytics.toggleAllCategories sel) Analytics.EXPENSE_CATEGORIES
  /\ (incl Analytics.EXPENSE_CATEGORIES sel ->
      Analytics.toggleAllCategories sel = [])
  /\ (~ incl Analytics.EXPENSE_CATEGORIES sel ->
      Analytics.toggleAllCategories sel = Analytics.EXPENSE_CATEGORIES).
Proof.
  intros Hnd Hincl.
  assert (Hall : NoDup Analytics.EXPENSE_CATEGORIES).
  { unfold Analytics.EXPENSE_CATEGORIES.
    repeat constructor; simpl; intuition discriminate. }
  split; [|split; [|split; [|split]]].
  - intros cat Hcat. unfold Analytics.toggleCategory.
    destruct (Analytics.includes sel cat) eqn:Hsel.
    + split.
      * now apply NoDup_filter.
      * intros x Hx. apply filter_In in Hx as [Hx _]. now apply Hincl.
    + split.
      * apply NoDup_app; [exact Hnd|repeat constructor; intros []|].
        intros x Hx [<-|[]].
        apply includes_In in Hx. congruence.
      * intros x Hx. apply in_app_or in Hx as [Hx|[<-|[]]]; auto.
  - unfold Analytics.toggleAllCategories.
    destruct (_ =? _)%nat; [constructor|exact Hall].
  - unfold Analytics.toggleAllCategories.
    destruct (_ =? _)%nat; [intros x []|apply incl_refl].
  - intro Hfull. unfold Analytics.toggleAllCategories.
    assert (Hlen : List.length sel
                   = List.length Analytics.EXPENSE_CATEGORIES).
    { apply Nat.le_antisymm; now apply NoDup_incl_length. }
    now rewrite Hlen, Nat.eqb_refl.
  - intro Hnot. unfold Analytics.toggleAllCategories.
    destruct (Nat.eqb_spec (List.length sel)
                (List.length Analytics.EXPENSE_CATEGORIES)) as [Hlen|_];
      [|reflexivity].
    destruct Hnot. apply NoDup_length_incl; [exact Hnd| |exact Hincl].
    rewrite Hlen. apply Nat.le_refl.
Qed.

Example selection_stays_well_formed_witness :
  let sel := [food; other] in
  Analytics.toggleAllCategories sel = Analytics.EXPENSE_CATEGORIES
  /\ NoDup (Analytics.toggleCategory health sel).
Proof.
  intro sel.
  assert (Hnd : NoDup sel)
    by (repeat constructor; simpl; intuition discriminate).
  assert (Hincl : incl sel Analytics.EXPENSE_CATEGORIES).
  { intros x [<-|[<-|[]]]; simpl; tauto. }
  destruct (selection_stays_well_formed sel Hnd Hincl)
    as (Htog & _ & _ & _ & Hpart).
  split.
  - apply Hpart. intro H.
    assert (Hin : In transport sel) by (apply H; simpl; tauto).
    simpl in Hin. intuition discriminate.
  - apply Htog. simpl. tauto.
Defined.

(** ** The amount field of the forms *)

Section AmountField.

Import Constants.
Local Open Scope string_scope.

Lemma isDigit_isWordChar (c : ascii) :
  isDigit c = true -> isWordChar c = true.
Proof.
  destruct c as [[] [] [] [] [] [] [] []]; try discriminate; reflexivity.
Qed.

Lemma allDigits_startsWithDigit (s : string) :
  allDigits s = true ->
  startsWithDigit s = (0 <? String.length s)%nat.
Proof.
  destruct s as [|c s]; simpl; [reflexivity|].
  intro H. now apply andb_prop in H as [-> _].
Qed.

(** On digits the lookahead holds exactly when a positive multiple of
    three digits is left. *)
Lemma lookahead_digits (n : nat) (s : string) :
  (String.length s <= n)%nat -> allDigits s = true ->
  lookahead s
  = (0 <? String.length s)%nat && (String.length s mod 3 =? 0)%nat.
Proof.
  revert s. induction n as [n IH] using (well_founded_induction lt_wf).
  intros s Hlen Hd.
  destruct s as [|a [|b [|c rest]]]; try reflexivity.
  simpl in Hd. apply andb_prop in Hd as [Ha Hd].
  apply andb_prop in Hd as [Hb Hd]. apply andb_prop in Hd as [Hc Hd].
  change (lookahead (String a (String b (String c rest))))
    with (isDigit a && isDigit b && isDigit c
          && (negb (startsWithDigit rest) || lookahead rest)).
  rewrite Ha, Hb, Hc, (allDigits_startsWithDigit rest Hd).
  simpl in Hlen.
  rewrite (IH (String.length rest)) by (auto; lia).
  change (String.length (String a (String b (String c rest))))
    with (3 + String.length rest)%nat.
  replace ((3 + String.length rest) mod 3)%nat
    with (String.length rest mod 3)%nat
    by (rewrite Nat.Div0.add_mod, Nat.Div0.mod_same, Nat.add_0_l,
          Nat.Div0.mod_mod; reflexivity).
  destruct (String.length rest) as [|k]; reflexivity.
Qed.

Lemma insertCommas_after_digit (s : string) (d : ascii) :
  isDigit d = true -> allDigits s = true ->
  insertCommas (Some d) s
  = if (0 <? String.length s)%nat && (String.length s mod 3 =? 0)%nat
    then String "," (groupThousands s) else groupThousands s.
Proof.
  revert d. induction s as [|c s IH]; intros d Hd Hs.
  - cbn [insertCommas]. unfold notWordBoundary.
    rewrite (isDigit_isWordChar d Hd). reflexivity.
  - pose proof Hs as Hs'. simpl in Hs'. apply andb_prop in Hs' as [Hc Hs'].
    cbn [insertCommas groupThousands].
    rewrite (IH c Hc Hs').
    rewrite (lookahead_digits _ _ (Nat.le_refl _) Hs).
    unfold notWordBoundary.
    rewrite (isDigit_isWordChar d Hd), (isDigit_isWordChar c Hc).
    cbn [Bool.eqb andb].
    destruct ((0 <? String.length (String c s))%nat
              && (String.length (String c s) mod 3 =? 0)%nat);
      reflexivity.
Qed.

Lemma insertCommas_groups (s : string) :
  allDigits s = true -> insertCommas None s = groupThousands s.
Proof.
  destruct s as [|c s]; [reflexivity|].
  intro Hs. pose proof Hs as Hs'. simpl in Hs'.
  apply andb_prop in Hs' as [Hc Hs'].
  cbn [insertCommas groupThousands].
  rewrite (insertCommas_after_digit s c Hc Hs').
  unfold notWordBoundary. rewrite (isDigit_isWordChar c Hc).
  reflexivity.
Qed.

Lemma removeNonDigits_of_digits (s : string) :
  allDigits s = true -> removeNonDigits s = s.
Proof.
  induction s as [|c s IH]; simpl; [reflexivity|].
  intro H. apply andb_prop in H as [Hc Hs]. now rewrite Hc, IH.
Qed.

Lemma removeNonDigits_groupThousands (s : string) :
  allDigits s = true -> removeNonDigits (groupThousands s) = s.
Proof.
  induction s as [|c s IH]; simpl; [reflexivity|].
  intro H. apply andb_prop in H as [Hc Hs]. rewrite Hc.
  destruct (_ && _); simpl; now rewrite IH.
Qed.

Lemma removeCommas_groupThousands (s : string) :
  allDigits s = true -> removeCommas (groupThousands s) = s.
Proof.
  induction s as [|c s IH]; simpl; [reflexivity|].
  intro H. apply andb_prop in H as [Hc Hs].
  rewrite (isDigit_not_comma c Hc).
  destruct (_ && _); simpl; now rewrite IH.
Qed.

Lemma formatInputNumber_as_groups (value : string) :
  formatInputNumber value = groupThousands (removeNonDigits value).
Proof.
  unfold formatInputNumber.
  destruct (String.eqb_spec value "") as [->|_]; [reflexivity|].
  apply insertCommas_groups, removeNonDigits_allDigits.
Qed.

End AmountField.


(** X10. Formatting a text that is already formatted changes nothing, so
    the field can format again at every keystroke. *)
Theorem formatInputNumber_idempotent (value : string) :
  Constants.formatInputNumber (Constants.formatInputNumber value)
  = Constants.formatInputNumber value.
Proof.
  rewrite (formatInputNumber_as_groups (Constants.formatInputNumber value)).
  rewrite (formatInputNumber_as_groups value).
  now rewrite removeNonDigits_groupThousands
    by apply removeNonDigits_allDigits.
Qed.

Section FormSubmission.

Import Constants JSNumber TransactionForm.
Local Open Scope string_scope.

Lemma string_of_uint_allDigits (d : Decimal.uint) :
  allDigits (NilEmpty.string_of_uint d) = true.
Proof. induction d; simpl; auto. Qed.

Lemma leadingDigits_of_digits (s : string) :
  allDigits s = true -> leadingDigits s = s.
Proof.
  induction s as [|c s IH]; simpl; [reflexivity|].
  intro H. apply andb_prop in H as [Hc Hs]. now rewrite Hc, IH.
Qed.

Lemma digit_not_space_or_sign (c : ascii) :
  isDigit c = true ->
  isSpace c = false /\ Ascii.eqb c "-" = false /\ Ascii.eqb c "+" = false.
Proof.
  destruct c as [[] [] [] [] [] [] [] []]; try discriminate;
    repeat split; reflexivity.
Qed.

(** On a non-empty text of digits [parseInt] gives the double nearest to
    the number the digits write. *)
Lemma parseInt_digits (c : ascii) (s : string) :
  allDigits (String c s) = true ->
  parseInt (String c s)
  = option_map (fun u => Double.round (Z.of_uint u))
      (NilEmpty.uint_of_string (String c s)).
Proof.
  intro H. pose proof H as H'. simpl in H'.
  apply andb_prop in H' as [Hc Hs].
  destruct (digit_not_space_or_sign c Hc) as (Hsp & Hm & Hp).
  unfold parseInt. cbn [skipSpaces]. rewrite Hsp, Hm, Hp.
  rewrite (leadingDigits_of_digits _ H).
  destruct (NilEmpty.uint_of_string (String c s)); reflexivity.
Qed.

(** A text of digits read digit by digit. *)
Lemma uint_of_digits (s : string) :
  allDigits s = true ->
  exists u : Decimal.uint,
    NilEmpty.uint_of_string s = Some u
    /\ (forall p : positive,
          Z.pos (Pos.of_uint_acc u p)
          = fold_left
              (fun acc c => 10 * acc + (Z.of_nat (nat_of_ascii c) - 48))%Z
              (list_ascii_of_string s) (Z.pos p))
    /\ Z.of_N (Pos.of_uint u) = valueOfDigits s.
Proof.
  unfold valueOfDigits.
  induction s as [|c s IH]; intro H.
  - exists Decimal.Nil. repeat split.
  - simpl in H. apply andb_prop in H as [Hc Hs].
    destruct (IH Hs) as (u & Eu & Hacc & H0).
    destruct c as [[] [] [] [] [] [] [] []]; try discriminate Hc;
      cbn [NilEmpty.uint_of_string]; rewrite Eu;
      cbn [uint_of_char]; eexists; (split; [reflexivity|]);
      (split;
       [intro p; cbn [Pos.of_uint_acc list_ascii_of_string fold_left];
        rewrite Hacc; f_equal
       |cbn [Pos.of_uint list_ascii_of_string fold_left N.of_uint];
        rewrite ?Hacc, ?H0; try f_equal]);
      match goal with
      | |- context [Z.of_nat (nat_of_ascii ?a)] =>
          let v := eval vm_compute in (Z.of_nat (nat_of_ascii a)) in
          change (Z.of_nat (nat_of_ascii a)) with v
      end.
  all: try lia.
  all: cbn [Z.of_N]; rewrite Hacc; reflexivity.
Qed.

Lemma valueOfDigits_nonneg (s : string) :
  allDigits s = true -> (0 <= valueOfDigits s)%Z.
Proof.
  intro H. destruct (uint_of_digits s H) as (u & _ & _ & <-).
  apply N2Z.is_nonneg.
Qed.

Lemma parseInt_value (c : ascii) (s : string) :
  allDigits (String c s) = true ->
  parseInt (String c s) = Some (Double.round (valueOfDigits (String c s))).
Proof.
  intro H. rewrite (parseInt_digits c s H).
  destruct (uint_of_digits _ H) as (u & -> & _ & <-). reflexivity.
Qed.

Lemma parseInt_of_positive (p : positive) :
  parseInt (NilEmpty.string_of_uint (Pos.to_uint p))
  = Some (Double.round (Z.pos p)).
Proof.
  pose proof (string_of_uint_allDigits (Pos.to_uint p)) as Hd.
  destruct (to_uint_head p) as (c & s & E & _ & _).
  rewrite E in Hd |- *. rewrite (parseInt_digits c s Hd), <- E.
  rewrite NilEmpty.usu. simpl.
  unfold Z.of_uint. now rewrite Unsigned.of_to.
Qed.

Lemma toString_positive (p : positive) :
  toString (Z.pos p) = NilEmpty.string_of_uint (Pos.to_uint p)
  /\ toString (Z.neg p)
     = String "-" (NilEmpty.string_of_uint (Pos.to_uint p)).
Proof.
  unfold toString. simpl. unfold NilZero.string_of_uint.
  destruct (Pos.to_uint p) eqn:E; try (split; reflexivity).
  destruct (Unsigned.to_uint_nonnil p E).
Qed.

(** The digits the amount field keeps of the text of a number. *)
Lemma digits_of_toString (n : Z) :
  removeNonDigits (toString n)
  = match n with
    | Z0 => "0"
    | Z.pos p | Z.neg p => NilEmpty.string_of_uint (Pos.to_uint p)
    end.
Proof.
  destruct n as [|p|p]; [reflexivity| |];
    destruct (toString_positive p) as [Hp Hn].
  - rewrite Hp. apply removeNonDigits_of_digits, string_of_uint_allDigits.
  - rewrite Hn. simpl.
    apply removeNonDigits_of_digits, string_of_uint_allDigits.
Qed.

Lemma amount_read_back (n : Z) :
  parseInt (removeCommas (formatInputNumber (toString n)))
  = Some (Double.round (Z.abs n)).
Proof.
  rewrite formatInputNumber_as_groups, digits_of_toString.
  destruct n as [|p|p]; [reflexivity| |];
    rewrite removeCommas_groupThousands
      by apply string_of_uint_allDigits;
    apply parseInt_of_positive.
Qed.

Lemma handleSubmit_of_fill (t : Transaction) :
  (Z.abs (amount t) < 9007199254740992)%Z ->
  handleSubmit (Some t) (fill t)
  = if (amount t =? 0)%Z then None
    else Some (mkSubmission (Some (id t)) (type t) (Z.abs (amount t))
                 (date t) (category t) (note t)).
Proof.
  intro Hsafe. unfold handleSubmit, fill. simpl. rewrite amount_read_back.
  rewrite (round_exact (Z.abs (amount t))) by lia.
  destruct (amount t); reflexivity.
Qed.

(** What [parseInt] reads of the amount field: nothing when no digit was
    typed, and otherwise the number the digits typed write, rounded. *)
Lemma parseInt_formatted (input : string) :
  parseInt (removeCommas (formatInputNumber input))
  = match removeNonDigits input with
    | EmptyString => None
    | digits => Some (Double.round (valueOfDigits digits))
    end.
Proof.
  rewrite formatInputNumber_as_groups.
  rewrite removeCommas_groupThousands by apply removeNonDigits_allDigits.
  pose proof (removeNonDigits_allDigits input) as Hd.
  destruct (removeNonDigits input) as [|c s]; [reflexivity|].
  apply (parseInt_value c s Hd).
Qed.

End FormSubmission.

(** X11. Opening the form on a transaction whose amount is below 2^53 in
    size and submitting it untouched submits the same type, date, category
    and note under the same id, with the absolute value of the amount: a
    positive amount comes back as it is, the sign of a negative one is
    lost, and an amount of 0 is refused with the notice. *)
Theorem form_reads_back_transaction (t : Transaction) :
  Z.abs (amount t) < 9007199254740992 ->
  TransactionForm.handleSubmit (Some t) (TransactionForm.fill t)
  = if amount t =? 0 then None
    else Some (TransactionForm.mkSubmission (Some (id t)) (type t)
                 (Z.abs (amount t)) (date t) (category t) (note t)).
Proof.
  intro Hsafe. unfold TransactionForm.handleSubmit, TransactionForm.fill.
  cbn [TransactionForm.f_amountStr TransactionForm.f_type
       TransactionForm.f_date TransactionForm.f_category
       TransactionForm.f_note option_map].
  rewrite amount_read_back, (round_exact (Z.abs (amount t))) by lia.
  destruct (amount t); reflexivity.
Qed.

Example form_reads_back_transaction_witness :
  let t := mkTransaction "b" (-1500000) expense food "2024-01-02" "rent" in
  TransactionForm.handleSubmit (Some t) (TransactionForm.fill t)
  = Some (TransactionForm.mkSubmission (Some (id t)) expense 1500000
            "2024-01-02" food "rent").
Proof.
  intro t. apply (form_reads_back_transaction t). reflexivity.
Defined.

(** X12. Whatever is typed in the amount field, only its digits count: an
    input with no digit, or with zeros only, is refused with the notice;
    any other input is submitted with a positive amount and the other
    fields of the form, and as long as the digits write a number below
    2^53 that number is the amount.  A sign typed, like anything that is
    no digit, is dropped. *)
Theorem submitted_amount_is_positive
    (initialData : option Transaction) (input : string)
    (form : TransactionForm.Form) :
  let digits := Constants.removeNonDigits input in
  let result :=
    TransactionForm.handleSubmit initialData
      (TransactionForm.handleAmountChange input form) in
  (result = None <-> valueOfDigits digits = 0)
  /\ (forall s : TransactionForm.Submission,
        result = Some s ->
        0 < TransactionForm.s_amount s
        /\ (valueOfDigits digits < 9007199254740992 ->
            TransactionForm.s_amount s = valueOfDigits digits)
        /\ s = TransactionForm.mkSubmission (option_map id initialData)
                 (TransactionForm.f_type form) (TransactionForm.s_amount s)
                 (TransactionForm.f_date form)
                 (TransactionForm.f_category form)
                 (TransactionForm.f_note form)).
Proof.
  cbv zeta.
  unfold TransactionForm.handleSubmit, TransactionForm.handleAmountChange.
  cbn [TransactionForm.f_amountStr TransactionForm.f_type
       TransactionForm.f_date TransactionForm.f_category
       TransactionForm.f_note].
  rewrite parseInt_formatted.
  pose proof (removeNonDigits_allDigits input) as Hd.
  pose proof (valueOfDigits_nonneg _ Hd) as Hv.
  destruct (Constants.removeNonDigits input) as [|c digits] eqn:E.
  - split; [split; reflexivity|]. intros s Hs. discriminate Hs.
  - pose proof (round_zero_iff (valueOfDigits (String c digits))) as Hz.
    pose proof (round_nonneg _ Hv) as Hr.
    destruct (Z.eqb_spec (Double.round (valueOfDigits (String c digits))) 0)
      as [E0|E0].
    + split; [split; [intros _; tauto|reflexivity]|].
      intros s Hs. discriminate Hs.
    + split; [split; [discriminate|tauto]|].
      intros s [= <-]. cbn [TransactionForm.s_amount].
      split; [lia|]. split; [|reflexivity].
      intro Hsafe. apply round_exact. lia.
Qed.

Example submitted_amount_is_positive_witness :
  let result :=
    TransactionForm.handleSubmit None
      (TransactionForm.handleAmountChange "-1,50x0"
         (TransactionForm.mkForm expense "" "2024-01-01" food "")) in
  let refused :=
    TransactionForm.handleSubmit None
      (TransactionForm.handleAmountChange "-0,00"
         (TransactionForm.mkForm expense "" "2024-01-01" food "")) in
  (exists s, result = Some s /\ TransactionForm.s_amount s = 1500)
  /\ refused = None.
Proof.
  intros result refused. split.
  - destruct (submitted_amount_is_positive None "-1,50x0"
                (TransactionForm.mkForm expense "" "2024-01-01" food ""))
      as [_ H].
    eexists. split; [reflexivity|].
    destruct (H _ eq_refl) as (_ & Hamount & _).
    apply Hamount. reflexivity.
  - apply (submitted_amount_is_positive None "-0,00"
             (TransactionForm.mkForm expense "" "2024-01-01" food "")).
    reflexivity.
Defined.

(** X13. Editing a stored transaction of a positive amount below 2^53 and
    submitting the form untouched leaves a store of distinct ids exactly
    as it was. *)
Theorem untouched_edit_keeps_store
    (t : Transaction) (newId : string) (store : list Transaction) :
  NoDup (map id store) -> In t store ->
  0 < amount t < 9007199254740992 ->
  AppForm.submit (Some t) newId (TransactionForm.fill t) store = Some store.
Proof.
  intros Hnd Hin Hpos. unfold AppForm.submit.
  rewrite handleSubmit_of_fill by lia.
  destruct (Z.eqb_spec (amount t) 0) as [E|_]; [lia|].
  f_equal. unfold AppForm.asTransaction; simpl.
  rewrite Z.abs_eq by lia.
  assert (Et : mkTransaction (id t) (amount t) (type t) (category t)
                 (date t) (note t) = t) by (destruct t; reflexivity).
  rewrite Et. unfold App.handleEditTransaction.
  rewrite <- (map_id store) at 2. apply map_ext_in. intros x Hx.
  destruct (String.eqb_spec (id x) (id t)) as [E|_]; [|reflexivity].
  clear Et Hpos. induction store as [|y store IH]; [destruct Hin|].
  simpl in Hnd. inversion Hnd as [|? ? Hnotin Hnd']; subst.
  destruct Hin as [->|Hin], Hx as [->|Hx]; auto.
  - destruct Hnotin. rewrite <- E. now apply in_map.
  - destruct Hnotin. rewrite E. now apply in_map.
Qed.

Example untouched_edit_keeps_store_witness :
  let t := mkTransaction "b" 1500000 expense food "2024-01-02" "rent" in
  let store := [ mkTransaction "a" 10 income income_category "2024-01-01" "";
                 t ] in
  AppForm.submit (Some t) "n" (TransactionForm.fill t) store = Some store.
Proof.
  intros t store. apply (untouched_edit_keeps_store t "n" store).
  - simpl. repeat constructor; simpl; intuition discriminate.
  - simpl. tauto.
  - split; reflexivity.
Defined.

(** ** The chart by category *)

Section CategoryChart.

Import Analytics.

Lemma get_set (acc : Totals) (k k' : Category) (v : Z) :
  get (set acc k v) k' = if Category_eqb k k' then Some v else get acc k'.
Proof.
  induction acc as [|[k0 v0] acc IH]; simpl.
  - reflexivity.
  - destruct (Category_eqb k0 k) eqn:E0; simpl.
    + apply Category_eqb_eq in E0. subst k0.
      destruct (Category_eqb k k'); reflexivity.
    + rewrite IH. destruct (Category_eqb k0 k') eqn:E1; [|reflexivity].
      apply Category_eqb_eq in E1. subst k0.
      now rewrite Category_eqb_sym, E0.
Qed.

Lemma set_keys (acc : Totals) (k : Category) (v : Z) :
  map fst (set acc k v)
  = if includes (map fst acc) k then map fst acc else map fst acc ++ [k].
Proof.
  unfold includes.
  induction acc as [|[k0 v0] acc IH]; simpl; [reflexivity|].
  rewrite (Category_eqb_sym k k0).
  destruct (Category_eqb k0 k); simpl; [reflexivity|].
  rewrite IH. now destruct (existsb (Category_eqb k) (map fst acc)).
Qed.

Lemma set_keys_NoDup (acc : Totals) (k : Category) (v : Z) :
  NoDup (map fst acc) -> NoDup (map fst (set acc k v)).
Proof.
  intro H. rewrite set_keys.
  destruct (includes (map fst acc) k) eqn:E; [exact H|].
  apply NoDup_app; [exact H|repeat constructor; intros []|].
  intros x Hx [<-|[]]. apply includes_In in Hx. congruence.
Qed.

Lemma get_In (acc : Totals) (k : Category) (v : Z) :
  NoDup (map fst acc) -> (In (k, v) acc <-> get acc k = Some v).
Proof.
  induction acc as [|[k0 v0] acc IH]; simpl; intro Hnd.
  - split; [intros []|discriminate].
  - inversion Hnd as [|? ? Hnotin Hnd']; subst.
    destruct (Category_eqb k0 k) eqn:E.
    + apply Category_eqb_eq in E. subst k0. split.
      * intros [[= ->]|Hin]; [reflexivity|].
        destruct Hnotin. apply in_map_iff. now exists (k, v).
      * intros [= ->]. now left.
    + rewrite <- (IH Hnd'). split; [|now right].
      intros [[= -> ->]|Hin]; [|exact Hin].
      rewrite Category_eqb_refl in E. discriminate.
Qed.

(** Whether a category occurs among the transactions. *)
Lemma present_In (k : Category) (l : list Transaction) :
  existsb (fun t => Category_eqb (category t) k) l = true
  <-> exists t, In t l /\ category t = k.
Proof.
  rewrite existsb_exists. split; intros (t & Ht & E); exists t;
    (split; [exact Ht|]); now apply Category_eqb_eq.
Qed.

Lemma sumOfCategory_absent (k : Category) (l : list Transaction) :
  existsb (fun t => Category_eqb (category t) k) l = false ->
  sumOfCategory k l = 0.
Proof.
  induction l as [|t l IH]; simpl; [reflexivity|].
  intro H. apply orb_false_elim in H as [-> H]. now rewrite IH.
Qed.

Lemma get_fold (l : list Transaction) (acc : Totals) (k : Category) :
  get (fold_left addToCategory l acc) k
  = if existsb (fun t => Category_eqb (category t) k) l
    then Some (match get acc k with Some n => n | None => 0 end
               + sumOfCategory k l)
    else get acc k.
Proof.
  revert acc. induction l as [|t l IH]; intro acc; simpl; [reflexivity|].
  rewrite IH. unfold addToCategory at 1 2. rewrite get_set.
  destruct (Category_eqb (category t) k) eqn:E; simpl.
  - apply Category_eqb_eq in E. subst k. rewrite orZero_get.
    destruct (existsb _ l) eqn:El; f_equal; [lia|].
    rewrite (sumOfCategory_absent _ _ El). lia.
  - destruct (existsb _ l); reflexivity.
Qed.

Lemma fold_keys_NoDup (l : list Transaction) (acc : Totals) :
  NoDup (map fst acc) -> NoDup (map fst (fold_left addToCategory l acc)).
Proof.
  revert acc. induction l as [|t l IH]; intros acc H; simpl; [exact H|].
  apply IH. unfold addToCategory. now apply set_keys_NoDup.
Qed.

Lemma categoryData_entries (filtered : list Transaction)
    (d : CategoryDatum) :
  In d (categoryData filtered)
  <-> name d = CATEGORY_LABELS (key d)
      /\ In (key d, value d) (fold_left addToCategory filtered []).
Proof.
  unfold categoryData. split.
  - intro H. apply (Permutation_in _ (sort_Permutation _ _)) in H.
    apply in_map_iff in H as ([k v] & <- & Hin). simpl. now split.
  - intros [Hn Hin].
    apply (Permutation_in _ (Permutation_sym (sort_Permutation _ _))).
    apply in_map_iff. exists (key d, value d). split; [|exact Hin].
    destruct d as [n k v]; simpl in *. now subst n.
Qed.

Lemma insertSorted_Sorted (x : CategoryDatum) (l : list CategoryDatum) :
  Sorted (fun a b => value b <= value a) l ->
  Sorted (fun a b => value b <= value a)
         (insertSorted (fun a b => value b - value a) x l).
Proof.
  induction 1 as [|y l Hs IH Hhd]; simpl.
  - repeat constructor.
  - destruct (Z.ltb_spec 0 (value y - value x)) as [Hlt|Hge].
    + constructor; [exact IH|].
      destruct l as [|z l]; simpl.
      * constructor. lia.
      * destruct (0 <? value z - value x); constructor;
          [now inversion Hhd|lia].
    + constructor; [now constructor|constructor; lia].
Qed.

End CategoryChart.

(** X14. The chart by category has one entry for each category that
    occurs among the filtered transactions and none for the others; the
    entry bears the label of its category and its value is the sum of the
    amounts of the filtered transactions of that category. *)
Theorem categoryData_one_entry_per_category
    (filtered : list Transaction) :
  NoDup (map Analytics.key (Analytics.categoryData filtered))
  /\ forall d : Analytics.CategoryDatum,
       In d (Analytics.categoryData filtered)
       <-> Analytics.name d = Analytics.CATEGORY_LABELS (Analytics.key d)
           /\ (exists t, In t filtered /\ category t = Analytics.key d)
           /\ Analytics.value d = sumOfCategory (Analytics.key d) filtered.
Proof.
  assert (Hnd : NoDup (map fst (fold_left Analytics.addToCategory
                                  filtered [])))
    by (apply fold_keys_NoDup; constructor).
  split.
  - unfold Analytics.categoryData.
    apply (Permutation_NoDup
             (Permutation_map _ (Permutation_sym (sort_Permutation _ _)))).
    rewrite map_map.
    erewrite map_ext; [exact Hnd|]. now intros [k v].
  - intro d. rewrite categoryData_entries, (get_In _ _ _ Hnd), get_fold.
    simpl.
    destruct (existsb _ filtered) eqn:E.
    + apply present_In in E. split.
      * intros [Hn [= Hv]]. repeat split; auto.
      * intros (Hn & _ & Hv). split; [exact Hn|]. now rewrite Hv.
    + split.
      * intros [_ H]. discriminate H.
      * intros (_ & Hex & _). apply present_In in Hex. congruence.
Qed.

(** X15. The entries of the chart by category come in descending order
    of their values. *)
Theorem categoryData_descending (filtered : list Transaction) :
  StronglySorted (fun a b => Analytics.value b <= Analytics.value a)
                 (Analytics.categoryData filtered).
Proof.
  apply Sorted_StronglySorted.
  - intros a b c Hab Hbc. lia.
  - unfold Analytics.categoryData, Analytics.sort.
    induction (map _ (fold_left Analytics.addToCategory filtered []))
      as [|x l IH]; simpl.
    + constructor.
    + now apply insertSorted_Sorted.
Qed.

Section SelectedExpensesOnly.

Import Analytics.

Lemma filterExpenses_idempotent (sel : list Category)
    (l : list Transaction) :
  filterExpenses sel (filterExpenses sel l) = filterExpenses sel l.
Proof.
  unfold filterExpenses. rewrite filter_twice. apply filter_ext.
  intro t. now rewrite andb_diag.
Qed.

Lemma filterExpenses_without_incomes (sel : list Category)
    (l : list Transaction) :
  filterExpenses sel
    (filter (fun t => TransactionType_eqb (type t) expense) l)
  = filterExpenses sel l.
Proof.
  unfold filterExpenses. rewrite filter_twice. apply filter_ext.
  intro t. destruct (TransactionType_eqb (type t) expense); reflexivity.
Qed.

(** Every period filter keeps the transactions that pass a test, in
    their order. *)
Lemma filterByPeriod_is_filter
    (clk : JSDate.Clock) (df : DateFilter) (startDate endDate : string) :
  exists p : Transaction -> bool,
    forall l, fst (filterByPeriod clk df startDate endDate l) = filter p l.
Proof.
  destruct df; simpl.
  - eexists. intro l. reflexivity.
  - eexists. intro l. reflexivity.
  - eexists. intro l. reflexivity.
  - exists (fun _ => true). intro l. symmetry. now apply filter_all_true.
  - destruct (nonEmpty startDate && nonEmpty endDate).
    + eexists. intro l. reflexivity.
    + exists (fun _ => true). intro l. symmetry. now apply filter_all_true.
Qed.

Lemma sumAmounts_filter_le (p : Transaction -> bool)
    (l : list Transaction) :
  (forall t, In t l -> 0 <= amount t) ->
  0 <= sumAmounts (filter p l) <= sumAmounts l.
Proof.
  induction l as [|t l IH]; intro H.
  - unfold sumAmounts; simpl. lia.
  - assert (Ht : 0 <= amount t) by (apply H; now left).
    assert (Hl : forall x, In x l -> 0 <= amount x)
      by (intros x Hx; apply H; now right).
    specialize (IH Hl). simpl. rewrite sumAmounts_cons.
    destruct (p t); rewrite ?sumAmounts_cons; lia.
Qed.

End SelectedExpensesOnly.

(** X16. The analytics never look at an income or at an expense of a
    category that is not selected: they are the analytics of the expenses
    of the selected categories alone, and of the list without its incomes.
    With no category selected the chart is empty and the total is 0,
    whatever the period. *)
Theorem processedData_of_selected_expenses
    (clk : JSDate.Clock) (transactions : list Transaction)
    (dateFilter : DateFilter) (selectedCategories : list Category)
    (startDate endDate : string) :
  Analytics.processedData clk
    (Analytics.filterExpenses selectedCategories transactions)
    dateFilter selectedCategories startDate endDate
  = Analytics.processedData clk transactions dateFilter selectedCategories
      startDate endDate
  /\ Analytics.processedData clk
       (filter (fun t => TransactionType_eqb (type t) expense) transactions)
       dateFilter selectedCategories startDate endDate
     = Analytics.processedData clk transactions dateFilter
         selectedCategories startDate endDate
  /\ Analytics.pd_categoryData
       (Analytics.processedData clk transactions dateFilter []
          startDate endDate) = []
  /\ Analytics.pd_total
       (Analytics.processedData clk transactions dateFilter []
          startDate endDate) = 0.
Proof.
  unfold Analytics.processedData.
  rewrite filterExpenses_idempotent, filterExpenses_without_incomes.
  split; [reflexivity|]. split; [reflexivity|].
  assert (E : Analytics.filterExpenses [] transactions = []).
  { unfold Analytics.filterExpenses.
    induction transactions as [|t l IH]; simpl; [reflexivity|].
    now rewrite andb_false_r. }
  rewrite E.
  destruct (filterByPeriod_is_filter clk dateFilter startDate endDate)
    as [p Hp].
  specialize (Hp []). simpl in Hp.
  destruct (Analytics.filterByPeriod clk dateFilter startDate endDate [])
    as [filtered monthly]. simpl in Hp. subst filtered.
  split; reflexivity.
Qed.

(** X17. When no amount is negative, the total of a period lies between
    0 and the total of the same selection over all time. *)
Theorem period_total_at_most_total
    (clk : JSDate.Clock) (transactions : list Transaction)
    (dateFilter : DateFilter) (selectedCategories : list Category)
    (startDate endDate : string) :
  (forall t, In t transactions -> 0 <= amount t) ->
  0 <= Analytics.pd_total
         (Analytics.processedData clk transactions dateFilter
            selectedCategories startDate endDate)
    <= Analytics.pd_total
         (Analytics.processedData clk transactions all selectedCategories
            startDate endDate).
Proof.
  intro Hpos. unfold Analytics.processedData.
  destruct (filterByPeriod_is_filter clk dateFilter startDate endDate)
    as [p Hp].
  specialize (Hp (Analytics.filterExpenses selectedCategories transactions)).
  destruct (Analytics.filterByPeriod clk dateFilter startDate endDate _)
    as [filtered monthly]. simpl in Hp. subst filtered. simpl.
  apply sumAmounts_filter_le.
  intros t Ht. apply Hpos.
  unfold Analytics.filterExpenses in Ht. now apply filter_In in Ht as [Ht _].
Qed.

Example period_total_at_most_total_witness :
  let clk := JSDate.mkClock (19737 * JSDate.MS_PER_DAY) 0 in
  let l := [ mkTransaction "1" 100 expense food "2024-01-01" "";
             mkTransaction "2" 50 expense food "2023-01-15" "" ] in
  0 <= Analytics.pd_total
         (Analytics.processedData clk l year Analytics.EXPENSE_CATEGORIES
            "" "")
    <= Analytics.pd_total
         (Analytics.processedData clk l all Analytics.EXPENSE_CATEGORIES
            "" "").
Proof.
  intros clk l. apply (period_total_at_most_total clk l).
  intros t [<-|[<-|[]]]; simpl; lia.
Defined.

(** ** The custom period *)

Section StringOrder.

Local Open Scope string_scope.

Lemma ascii_compare_trans (a b c : ascii) (r : comparison) :
  Ascii.compare a b = r -> Ascii.compare b c = r -> Ascii.compare a c = r.
Proof.
  unfold Ascii.compare. intros H1 H2.
  destruct r.
  - apply N.compare_eq_iff in H1, H2. apply N.compare_eq_iff. congruence.
  - apply N.compare_lt_iff in H1. apply N.compare_lt_iff in H2.
    apply N.compare_lt_iff. now apply N.lt_trans with (N_of_ascii b).
  - apply N.compare_gt_iff in H1. apply N.compare_gt_iff in H2.
    apply N.compare_gt_iff. now apply N.lt_trans with (N_of_ascii b).
Qed.

(** The order of texts is transitive. *)
Lemma string_compare_trans (r : comparison) (a b c : string) :
  String.compare a b = r -> String.compare b c = r ->
  String.compare a c = r.
Proof.
  revert b c. induction a as [|x a IH]; intros [|y b] [|z c]; simpl;
    try congruence.
  destruct (Ascii.compare x y) eqn:Exy, (Ascii.compare y z) eqn:Eyz;
    try congruence.
  - rewrite (ascii_compare_trans x y z Eq Exy Eyz). apply IH.
  - apply Ascii.compare_eq_iff in Exy. subst y. now rewrite Eyz.
  - apply Ascii.compare_eq_iff in Exy. subst y. now rewrite Eyz.
  - apply Ascii.compare_eq_iff in Eyz. subst z. now rewrite Exy.
  - now rewrite (ascii_compare_trans x y z Lt Exy Eyz).
  - apply Ascii.compare_eq_iff in Eyz. subst z. now rewrite Exy.
  - now rewrite (ascii_compare_trans x y z Gt Exy Eyz).
Qed.

Lemma string_leb_trans (a b c : string) :
  String.leb a b = true -> String.leb b c = true -> String.leb a c = true.
Proof.
  unfold String.leb.
  destruct (String.compare a b) eqn:Eab; try discriminate;
    destruct (String.compare b c) eqn:Ebc; try discriminate; intros _ _.
  - now rewrite (string_compare_trans Eq a b c Eab Ebc).
  - apply String.compare_eq_iff in Eab. subst b. now rewrite Ebc.
  - apply String.compare_eq_iff in Ebc. subst c. now rewrite Eab.
  - now rewrite (string_compare_trans Lt a b c Eab Ebc).
Qed.

End StringOrder.

(** X18. A custom period whose end date is given and comes before its
    start date in the order of texts selects no transaction at all. *)
Theorem custom_filter_inverted_range
    (clk : JSDate.Clock) (startDate endDate : string)
    (l : list Transaction) :
  endDate <> ""%string ->
  String.ltb endDate startDate = true ->
  fst (Analytics.filterByPeriod clk custom startDate endDate l) = [].
Proof.
  intros Hend Hlt. unfold Analytics.filterByPeriod.
  assert (Hnone : forall t,
             String.leb startDate (date t) && String.leb (date t) endDate
             = false).
  { intro t. apply andb_false_iff.
    destruct (String.leb startDate (date t)) eqn:E1; [|now left].
    destruct (String.leb (date t) endDate) eqn:E2; [|now right].
    pose proof (string_leb_trans _ _ _ E1 E2) as H.
    unfold String.leb in H. unfold String.ltb in Hlt.
    rewrite String.compare_antisym in H.
    destruct (String.compare endDate startDate); discriminate. }
  assert (Hfilter : filter
            (fun t => String.leb startDate (date t)
                      && String.leb (date t) endDate) l = []).
  { induction l as [|t l IH]; simpl; [reflexivity|]. now rewrite Hnone. }
  unfold Analytics.nonEmpty.
  destruct startDate as [|c s]; [destruct endDate; discriminate|].
  destruct endDate as [|c' s']; [congruence|]. exact Hfilter.
Qed.

Example custom_filter_inverted_range_witness :
  fst (Analytics.filterByPeriod (JSDate.mkClock 0 0) custom
         "2024-03-01" "2024-01-31"
         [ mkTransaction "1" 100 expense food "2024-02-01" "" ]) = [].
Proof.
  apply custom_filter_inverted_range; [discriminate|reflexivity].
Defined.

(** ** The calendar

    [daysFromCivil] and [civilFromDays] are inverse to each other, and a
    later date has a greater day number. *)

Ltac decide_consts :=
  cbn [Z.leb Z.eqb Z.ltb Z.compare Pos.compare Pos.compare_cont Pos.eqb
       orb andb negb] in *.

Section Calendar.

Import JSDate.

Lemma yoe_bounds (doe : Z) :
  0 <= doe < 146097 ->
  0 <= (doe - doe / 1460 + doe / 36524 - doe / 146096) / 365 <= 399.
Proof.
  intro H. Z.div_mod_to_equations. lia.
Qed.

Lemma era_of_year (yoe era : Z) :
  0 <= yoe <= 399 -> (yoe + era * 400) / 400 = era.
Proof.
  intro H. rewrite Z.div_add by lia. rewrite Z.div_small; lia.
Qed.

Lemma doy_bounds (doe : Z) :
  0 <= doe < 146097 ->
  let yoe := (doe - doe / 1460 + doe / 36524 - doe / 146096) / 365 in
  0 <= doe - (365 * yoe + yoe / 4 - yoe / 100) <= 365.
Proof. intros H yoe. subst yoe. Z.div_mod_to_equations. lia. Qed.

Lemma mp_bounds (doy : Z) :
  0 <= doy <= 365 ->
  0 <= (5 * doy + 2) / 153 <= 11
  /\ 1 <= doy - (153 * ((5 * doy + 2) / 153) + 2) / 5 + 1 <= 31.
Proof. intro H. Z.div_mod_to_equations. lia. Qed.

Lemma days_of_civil (z : Z) :
  let '(y, m, d) := civilFromDays z in
  daysFromCivil y m d = z /\ 1 <= m <= 12 /\ 1 <= d <= 31.
Proof.
  unfold civilFromDays, daysFromCivil.
  assert (Hdoe : 0 <= z + 719468 - (z + 719468) / 146097 * 146097 < 146097)
    by (Z.div_mod_to_equations; lia).
  remember ((z + 719468) / 146097) as era eqn:Eera. clear Eera.
  remember (z + 719468 - era * 146097) as doe eqn:Edoe.
  pose proof (yoe_bounds doe Hdoe) as Hyoe.
  pose proof (doy_bounds doe Hdoe) as Hdoy. cbv zeta in Hdoy.
  remember ((doe - doe / 1460 + doe / 36524 - doe / 146096) / 365)
    as yoe eqn:Eyoe. clear Eyoe.
  remember (doe - (365 * yoe + yoe / 4 - yoe / 100)) as doy eqn:Edoy.
  pose proof (mp_bounds doy Hdoy) as [Hmp Hd].
  remember ((5 * doy + 2) / 153) as mp eqn:Emp. clear Emp.
  remember (doy - (153 * mp + 2) / 5 + 1) as d eqn:Ed.
  destruct (Z.ltb_spec mp 10) as [Hlt|Hge].
  - destruct (Z.leb_spec (mp + 3) 2) as [H2|H2]; [lia|].
    replace ((mp + 3 + 9) mod 12) with mp
      by (Z.div_mod_to_equations; lia).
    rewrite (era_of_year yoe era Hyoe).
    replace (yoe + era * 400 - era * 400) with yoe by lia.
    split; [|lia]. lia.
  - destruct (Z.leb_spec (mp - 9) 2) as [H2|H2]; [|lia].
    replace ((mp - 9 + 9) mod 12) with mp
      by (Z.div_mod_to_equations; lia).
    replace (yoe + era * 400 + 1 - 1) with (yoe + era * 400) by lia.
    rewrite (era_of_year yoe era Hyoe).
    replace (yoe + era * 400 - era * 400) with yoe by lia.
    split; [|lia]. lia.
Qed.

Lemma yoe_of_doe (yoe doy : Z) :
  0 <= yoe <= 399 -> 0 <= doy ->
  (doy <= 364
   \/ (doy = 365 /\ (yoe + 1) mod 4 = 0
       /\ ((yoe + 1) mod 100 <> 0 \/ yoe = 399))) ->
  let doe := 365 * yoe + yoe / 4 - yoe / 100 + doy in
  0 <= doe < 146097
  /\ (doe - doe / 1460 + doe / 36524 - doe / 146096) / 365 = yoe.
Proof.
  intros Hy Hd Hleap doe. subst doe.
  Z.div_mod_to_equations. lia.
Qed.

Lemma civil_from_era (z era doe : Z) :
  z + 719468 = era * 146097 + doe -> 0 <= doe < 146097 ->
  civilFromDays z
  = (let yoe := (doe - doe / 1460 + doe / 36524 - doe / 146096) / 365 in
     let doy := doe - (365 * yoe + yoe / 4 - yoe / 100) in
     let mp := (5 * doy + 2) / 153 in
     let d := doy - (153 * mp + 2) / 5 + 1 in
     let m := if mp <? 10 then mp + 3 else mp - 9 in
     let y := yoe + era * 400 in
     (if m <=? 2 then y + 1 else y, m, d)).
Proof.
  intros Hz Hdoe. unfold civilFromDays. rewrite Hz.
  replace ((era * 146097 + doe) / 146097) with era
    by (rewrite Z.div_add_l by lia; rewrite Z.div_small; lia).
  replace (era * 146097 + doe - era * 146097) with doe by lia.
  reflexivity.
Qed.

Lemma feb_leap (y yoe era d : Z) :
  y = yoe + era * 400 + 1 -> 0 <= yoe <= 399 ->
  1 <= d <= (if isLeapYear y then 29 else 28) ->
  d <= 28
  \/ (d = 29 /\ (yoe + 1) mod 4 = 0
      /\ ((yoe + 1) mod 100 <> 0 \/ yoe = 399)).
Proof.
  intros Ey Hyoe. unfold isLeapYear.
  destruct (Z.eqb_spec (y mod 4) 0) as [E4|E4];
    destruct (Z.eqb_spec (y mod 100) 0) as [E100|E100];
    destruct (Z.eqb_spec (y mod 400) 0) as [E400|E400];
    cbn; intro Hd; Z.div_mod_to_equations; lia.
Qed.

Lemma civil_of_days (y m d : Z) :
  1 <= m <= 12 -> 1 <= d <= daysInMonth y m ->
  civilFromDays (daysFromCivil y m d) = (y, m, d).
Proof.
  intros Hm Hd. unfold daysFromCivil.
  remember (if m <=? 2 then y - 1 else y) as Y eqn:EY.
  assert (Hyoe : 0 <= Y - Y / 400 * 400 <= 399)
    by (Z.div_mod_to_equations; lia).
  remember (Y / 400) as era eqn:Eera. clear Eera.
  remember (Y - era * 400) as yoe eqn:Eyoe.
  remember ((m + 9) mod 12) as mp eqn:Emp.
  remember ((153 * mp + 2) / 5 + d - 1) as doy eqn:Edoy.
  assert (Hleap : 0 <= doy
                  /\ (doy <= 364
                      \/ (doy = 365 /\ (yoe + 1) mod 4 = 0
                          /\ ((yoe + 1) mod 100 <> 0 \/ yoe = 399)))
                  /\ (5 * doy + 2) / 153 = mp
                  /\ (if mp <? 10 then mp + 3 else mp - 9) = m).
  { unfold daysInMonth in Hd.
    assert (Hcases : m = 1 \/ m = 2 \/ m = 3 \/ m = 4 \/ m = 5 \/ m = 6
                     \/ m = 7 \/ m = 8 \/ m = 9 \/ m = 10 \/ m = 11
                     \/ m = 12) by lia.
    destruct Hcases as [E|[E|[E|[E|[E|[E|[E|[E|[E|[E|[E|E]]]]]]]]]]];
      subst m; cbn in Hd, EY; vm_compute in Emp; subst mp; subst doy.
    2: { (* February *)
      assert (Ey : y = yoe + era * 400 + 1) by lia.
      pose proof (feb_leap y yoe era d Ey Hyoe Hd) as Hd'.
      split; [Z.div_mod_to_equations; lia|].
      split; [|split; [Z.div_mod_to_equations; lia|reflexivity]].
      destruct Hd' as [Hd'|(E29 & H4 & H100)];
        [left; Z.div_mod_to_equations; lia|right].
      repeat split; auto; Z.div_mod_to_equations; lia. }
    all: split; [Z.div_mod_to_equations; lia|];
      (split; [left; Z.div_mod_to_equations; lia|]);
      (split; [Z.div_mod_to_equations; lia|reflexivity]). }
  destruct Hleap as (Hdoy0 & Hdoy & Hmp & Hmonth).
  destruct (yoe_of_doe yoe doy Hyoe Hdoy0 Hdoy) as [Hdoe Hback].
  cbv zeta in Hdoe, Hback.
  rewrite (civil_from_era _ era
             (365 * yoe + yoe / 4 - yoe / 100 + doy)) by (auto; lia).
  cbv zeta. rewrite Hback.
  replace (365 * yoe + yoe / 4 - yoe / 100 + doy
           - (365 * yoe + yoe / 4 - yoe / 100)) with doy by lia.
  rewrite Hmp, Hmonth.
  replace (doy - (153 * mp + 2) / 5 + 1) with d by lia.
  replace (yoe + era * 400) with Y by lia. subst Y.
  destruct (Z.leb_spec m 2); f_equal; f_equal; lia.
Qed.

Lemma days_closed (y m d : Z) :
  daysFromCivil y m d
  = let Y := if m <=? 2 then y - 1 else y in
    365 * Y + Y / 4 - Y / 100 + Y / 400
    + (153 * ((m + 9) mod 12) + 2) / 5 + d - 719469.
Proof.
  unfold daysFromCivil. cbv zeta.
  generalize (if m <=? 2 then y - 1 else y). intro Y.
  generalize ((153 * ((m + 9) mod 12) + 2) / 5). intro g.
  Z.div_mod_to_equations. lia.
Qed.

Lemma month_cases (m : Z) :
  1 <= m <= 12 ->
  m = 1 \/ m = 2 \/ m = 3 \/ m = 4 \/ m = 5 \/ m = 6
  \/ m = 7 \/ m = 8 \/ m = 9 \/ m = 10 \/ m = 11 \/ m = 12.
Proof. lia. Qed.

Lemma daysInMonth_le (y m : Z) :
  1 <= m <= 12 ->
  daysInMonth y m
  <= (if m =? 2 then (if isLeapYear y then 29 else 28) else 31).
Proof.
  intro H. unfold daysInMonth.
  destruct (m =? 2); [lia|]. destruct (_ || _); lia.
Qed.

Lemma days_lt_same_year (y m1 d1 m2 d2 : Z) :
  validDate y m1 d1 -> validDate y m2 d2 ->
  m1 < m2 \/ (m1 = m2 /\ d1 < d2) ->
  daysFromCivil y m1 d1 < daysFromCivil y m2 d2.
Proof.
  intros [Hm1 Hd1] [Hm2 Hd2] Hlt. rewrite !days_closed. cbv zeta.
  destruct Hlt as [Hlt|[-> Hlt]].
  2: { clear - Hlt. generalize (if m2 <=? 2 then y - 1 else y);
      generalize ((153 * ((m2 + 9) mod 12) + 2) / 5); intros; lia. }
  assert (H2 : 1 <= d2) by lia.
  clear Hd2. unfold daysInMonth, isLeapYear in Hd1.
  destruct (month_cases m1 Hm1) as [E|[E|[E|[E|[E|[E|[E|[E|[E|[E|[E|E]]]]]]]]]]];
    subst m1;
    destruct (month_cases m2 Hm2) as [E|[E|[E|[E|[E|[E|[E|[E|[E|[E|[E|E]]]]]]]]]]];
    subst m2; try lia; decide_consts;
    try (Z.div_mod_to_equations; lia);
    destruct (Z.eqb_spec (y mod 4) 0) as [E4|E4];
    destruct (Z.eqb_spec (y mod 100) 0) as [E100|E100];
    destruct (Z.eqb_spec (y mod 400) 0) as [E400|E400];
    decide_consts; Z.div_mod_to_equations; lia.
Qed.

Lemma days_new_year (y : Z) :
  daysFromCivil y 12 31 + 1 = daysFromCivil (y + 1) 1 1.
Proof.
  rewrite !days_closed. cbv zeta. decide_consts.
  replace (y + 1 - 1) with y by lia. Z.div_mod_to_equations. lia.
Qed.

Lemma days_first_of_year_mono (y1 y2 : Z) :
  y1 <= y2 -> daysFromCivil y1 1 1 <= daysFromCivil y2 1 1.
Proof.
  intro H. rewrite !days_closed. cbv zeta. decide_consts.
  Z.div_mod_to_equations. lia.
Qed.

Lemma validDate_bounds (y : Z) : validDate y 1 1 /\ validDate y 12 31.
Proof.
  unfold validDate, daysInMonth. decide_consts.
  split; (split; [lia|]); destruct (isLeapYear y); lia.
Qed.

(** Later dates have greater day numbers. *)
Lemma days_lt (y1 m1 d1 y2 m2 d2 : Z) :
  validDate y1 m1 d1 -> validDate y2 m2 d2 ->
  y1 < y2 \/ (y1 = y2 /\ (m1 < m2 \/ (m1 = m2 /\ d1 < d2))) ->
  daysFromCivil y1 m1 d1 < daysFromCivil y2 m2 d2.
Proof.
  intros H1 H2 [Hy|[-> Hlt]]; [|now apply days_lt_same_year].
  destruct (validDate_bounds y1) as [_ Hlast].
  destruct (validDate_bounds y2) as [Hfirst _].
  assert (A : daysFromCivil y1 m1 d1 <= daysFromCivil y1 12 31).
  { destruct H1 as [Hm1 Hd1].
    destruct (Z.eq_dec m1 12) as [->|Hne].
    - destruct (Z.eq_dec d1 31) as [->|Hd]; [lia|].
      apply Z.lt_le_incl, days_lt_same_year; try assumption;
        [split; assumption|].
      right. split; [reflexivity|].
      unfold daysInMonth in Hd1. decide_consts. lia.
    - apply Z.lt_le_incl, days_lt_same_year; try assumption;
        [split; assumption|]. left. lia. }
  assert (B : daysFromCivil y2 1 1 <= daysFromCivil y2 m2 d2).
  { destruct H2 as [Hm2 Hd2].
    destruct (Z.eq_dec m2 1) as [->|Hne].
    - destruct (Z.eq_dec d2 1) as [->|Hd]; [lia|].
      apply Z.lt_le_incl, days_lt_same_year; try assumption;
        [split; assumption|]. right. split; [reflexivity|lia].
    - apply Z.lt_le_incl, days_lt_same_year; try assumption;
        [split; assumption|]. left. lia. }
  pose proof (days_new_year y1) as C.
  pose proof (days_first_of_year_mono (y1 + 1) y2 ltac:(lia)) as D.
  lia.
Qed.

End Calendar.

(** ** Local days

    What [stripTime] makes of an instant, and the days the windows of the
    comparison cards run from and to. *)

Section Windows.

Import JSDate Analytics.

Lemma days_add (y m d k : Z) :
  daysFromCivil y m d + k = daysFromCivil y m (d + k).
Proof.
  rewrite !days_closed. cbv zeta.
  generalize (if m <=? 2 then y - 1 else y); intro Y.
  generalize ((153 * ((m + 9) mod 12) + 2) / 5); intro g. lia.
Qed.

(** A day at or after 1970-01-01 lies in 1970 or a later year. *)
Lemma civil_year_from_1970 (z : Z) :
  0 <= z -> let '(y, _, _) := civilFromDays z in 1970 <= y.
Proof.
  intro Hz. pose proof (days_of_civil z) as H.
  destruct (civilFromDays z) as [[y m] d]. destruct H as (E & Hm & Hd).
  rewrite days_closed in E. cbv zeta in E.
  destruct (Z.leb_spec m 2) as [H2|H2];
    destruct (Z.lt_ge_cases y 1970) as [Hy|Hy]; try assumption; exfalso;
    Z.div_mod_to_equations; lia.
Qed.

Lemma civil_year_ge_1600 (z : Z) :
  -135080 <= z -> let '(y, _, _) := civilFromDays z in 1600 <= y.
Proof.
  intro Hz. unfold civilFromDays.
  assert (Hdoe : 0 <= z + 719468 - (z + 719468) / 146097 * 146097 < 146097)
    by (Z.div_mod_to_equations; lia).
  assert (Hera : 4 <= (z + 719468) / 146097)
    by (Z.div_mod_to_equations; lia).
  remember ((z + 719468) / 146097) as era eqn:Eera. clear Eera.
  remember (z + 719468 - era * 146097) as doe eqn:Edoe.
  pose proof (yoe_bounds doe Hdoe) as Hyoe.
  remember ((doe - doe / 1460 + doe / 36524 - doe / 146096) / 365) as yoe
    eqn:Eyoe. clear Eyoe.
  cbv zeta. destruct (_ <=? 2); cbv beta iota; lia.
Qed.

Lemma days_lower (y m d : Z) :
  1602 <= y -> 0 <= d -> -135080 <= daysFromCivil y m d.
Proof.
  intros Hy Hd. rewrite days_closed. cbv zeta.
  destruct (Z.leb_spec m 2); Z.div_mod_to_equations; lia.
Qed.

Lemma localDay_midnight (clk : Clock) (k : Z) :
  localDay clk (k * MS_PER_DAY - tzOffset clk) = k.
Proof.
  unfold localDay.
  replace (k * MS_PER_DAY - tzOffset clk + tzOffset clk)
    with (k * MS_PER_DAY) by lia.
  apply Z.div_mul. discriminate.
Qed.

(** Far from the years 0 to 99, [stripTime] is the midnight of the local
    day. *)
Lemma stripTime_localDay (clk : Clock) (time : Z) :
  -135080 <= localDay clk time ->
  stripTime clk time = localDay clk time * MS_PER_DAY - tzOffset clk.
Proof.
  intro Hz. unfold stripTime, getFullYear, getMonth, getDate, localMidnight.
  pose proof (days_of_civil (localDay clk time)) as H.
  pose proof (civil_year_ge_1600 _ Hz) as Hy.
  destruct (civilFromDays (localDay clk time)) as [[y m] d].
  destruct H as (E & Hm & Hd).
  replace ((0 <=? y) && (y <=? 99)) with false
    by (symmetry; apply andb_false_iff; right; apply Z.leb_gt; lia).
  unfold makeDay.
  replace ((m - 1) / 12) with 0 by (Z.div_mod_to_equations; lia).
  replace ((m - 1) mod 12 + 1) with m by (Z.div_mod_to_equations; lia).
  replace (y + 0) with y by lia.
  replace (daysFromCivil y m 1 + d - 1) with (daysFromCivil y m 1 + (d - 1))
    by lia.
  rewrite days_add. replace (1 + (d - 1)) with d by lia. now rewrite E.
Qed.


Lemma stripTime_stripDay (clk : Clock) (time : Z) :
  stripTime clk time = stripDay clk time * MS_PER_DAY - tzOffset clk.
Proof.
  unfold stripDay, stripTime, localMidnight.
  match goal with
  | |- ?k * _ - _ = _ =>
      replace (k * MS_PER_DAY - tzOffset clk + tzOffset clk)
        with (k * MS_PER_DAY) by lia
  end.
  rewrite Z.div_mul by discriminate. reflexivity.
Qed.

Lemma stripDay_localDay (clk : Clock) (time : Z) :
  -135080 <= localDay clk time -> stripDay clk time = localDay clk time.
Proof.
  intro H. unfold stripDay. rewrite (stripTime_localDay clk time H).
  replace (localDay clk time * MS_PER_DAY - tzOffset clk + tzOffset clk)
    with (localDay clk time * MS_PER_DAY) by lia.
  apply Z.div_mul. discriminate.
Qed.

Lemma stripDay_localMidnight (clk : Clock) (y m d : Z) :
  1602 <= y + m / 12 -> 100 <= y -> 0 <= d ->
  stripDay clk (localMidnight clk y m d) = makeDay y m d.
Proof.
  intros Hy Hy' Hd. unfold localMidnight.
  replace ((0 <=? y) && (y <=? 99)) with false
    by (symmetry; apply andb_false_iff; right; apply Z.leb_gt; lia).
  rewrite stripDay_localDay; rewrite localDay_midnight; [reflexivity|].
  unfold makeDay.
  replace (daysFromCivil (y + m / 12) (m mod 12 + 1) 1 + d - 1)
    with (daysFromCivil (y + m / 12) (m mod 12 + 1) 1 + (d - 1)) by lia.
  rewrite days_add. apply days_lower; lia.
Qed.

Lemma inWindow_stripDay (clk : Clock) (start end_ : Z) (t : Transaction) :
  inWindow clk start end_ t
  = match parse (date t) with
    | Some d => (stripDay clk start <=? stripDay clk d)
                && (stripDay clk d <=? stripDay clk end_)
    | None => false
    end.
Proof.
  unfold inWindow. destruct (parse (date t)) as [d|]; [|reflexivity].
  cbv zeta. rewrite !stripTime_stripDay.
  assert (HMS : 0 < MS_PER_DAY) by reflexivity.
  f_equal; apply eq_true_iff_eq; rewrite !Z.leb_le; nia.
Qed.

(** Two windows that follow each other share no transaction, and together
    they are the window from the start of the first to the end of the
    second. *)
Lemma windows_partition (clk : Clock) (a b c e : Z) (t : Transaction) :
  stripDay clk b + 1 = stripDay clk c ->
  stripDay clk a <= stripDay clk c ->
  stripDay clk b <= stripDay clk e ->
  inWindow clk a b t && inWindow clk c e t = false
  /\ inWindow clk a b t || inWindow clk c e t = inWindow clk a e t.
Proof.
  intros Hbc Hac Hbe. rewrite !inWindow_stripDay.
  destruct (parse (date t)) as [d|]; [|split; reflexivity].
  rewrite <- Hbc.
  split; apply eq_true_iff_eq;
    rewrite ?orb_true_iff, ?andb_true_iff, ?Z.leb_le; [|lia].
  split; [lia|discriminate].
Qed.

Lemma localDay_addDays (clk : Clock) (time k : Z) :
  localDay clk (addDays time k) = localDay clk time + k.
Proof.
  unfold localDay, addDays.
  replace (time + k * MS_PER_DAY + tzOffset clk)
    with (time + tzOffset clk + k * MS_PER_DAY) by lia.
  apply Z.div_add. discriminate.
Qed.

Lemma localDay_nonneg (clk : Clock) (time : Z) :
  0 <= time + tzOffset clk -> 0 <= localDay clk time.
Proof. intro H. unfold localDay. apply Z.div_pos; [lia|reflexivity]. Qed.


Lemma validDate_first (y m : Z) : 1 <= m <= 12 -> validDate y m 1.
Proof.
  intro H. split; [assumption|]. unfold daysInMonth.
  destruct (m =? 2); [destruct (isLeapYear y); lia|].
  destruct (_ || _); lia.
Qed.

(** The first of a month is not before the first of the month before. *)
Lemma makeDay_month_mono (y m : Z) :
  0 <= m <= 11 -> makeDay y (m - 1) 1 < makeDay y m 1.
Proof.
  intro Hm. unfold makeDay.
  replace (m / 12) with 0 by (Z.div_mod_to_equations; lia).
  replace (m mod 12) with m by (Z.div_mod_to_equations; lia).
  destruct (Z.eq_dec m 0) as [->|Hne].
  - change ((0 - 1) / 12) with (-1). change ((0 - 1) mod 12 + 1) with 12.
    assert (H : daysFromCivil (y + -1) 12 1 < daysFromCivil (y + 0) (0 + 1) 1);
      [|lia].
    apply days_lt; [apply validDate_first; lia..|]. left. lia.
  - replace ((m - 1) / 12) with 0 by (Z.div_mod_to_equations; lia).
    replace ((m - 1) mod 12) with (m - 1) by (Z.div_mod_to_equations; lia).
    assert (H : daysFromCivil (y + 0) (m - 1 + 1) 1
                < daysFromCivil (y + 0) (m + 1) 1); [|lia].
    apply days_lt; [apply validDate_first; lia..|]. right. lia.
Qed.

Section Clock.

Variable clk : Clock.
Hypothesis Hclk : 0 <= now clk + tzOffset clk.

Lemma week_days :
  let w := weekWindows clk in
  let T := localDay clk (now clk) in
  stripDay clk (startPrevious w) = T - 13
  /\ stripDay clk (endPrevious w) = T - 7
  /\ stripDay clk (startCurrent w) = T - 6
  /\ stripDay clk (endCurrent w) = T.
Proof.
  cbv zeta. unfold weekWindows. cbn [startPrevious endPrevious startCurrent
                                     endCurrent].
  pose proof (localDay_nonneg clk (now clk) Hclk) as HT.
  rewrite !stripDay_localDay; rewrite ?localDay_addDays; lia.
Qed.

Lemma today_fields :
  let T := localDay clk (now clk) in
  let y := getFullYear clk (now clk) in
  let m := getMonth clk (now clk) in
  let d := getDate clk (now clk) in
  daysFromCivil y (m + 1) d = T /\ 1970 <= y /\ 0 <= m <= 11 /\ 1 <= d <= 31.
Proof.
  cbv zeta. unfold getFullYear, getMonth, getDate.
  pose proof (localDay_nonneg clk (now clk) Hclk) as HT.
  pose proof (days_of_civil (localDay clk (now clk))) as H.
  pose proof (civil_year_from_1970 _ HT) as Hy.
  destruct (civilFromDays (localDay clk (now clk))) as [[y m] d].
  destruct H as (E & Hm & Hd). replace (m - 1 + 1) with m by lia.
  repeat split; try assumption; lia.
Qed.

Lemma month_days :
  let w := monthWindows clk in
  let y := getFullYear clk (now clk) in
  let m := getMonth clk (now clk) in
  stripDay clk (startPrevious w) = makeDay y (m - 1) 1
  /\ stripDay clk (endPrevious w) = makeDay y m 1 - 1
  /\ stripDay clk (startCurrent w) = makeDay y m 1
  /\ stripDay clk (endCurrent w) = localDay clk (now clk).
Proof.
  cbv zeta. unfold monthWindows. cbn [startPrevious endPrevious startCurrent
                                      endCurrent].
  pose proof (localDay_nonneg clk (now clk) Hclk) as HT.
  destruct today_fields as (E & Hy & Hm & Hd). cbv zeta in E, Hy, Hm, Hd.
  rewrite !stripDay_localMidnight;
    try (Z.div_mod_to_equations; lia).
  rewrite stripDay_localDay by lia.
  repeat split. unfold makeDay. lia.
Qed.

Lemma year_days :
  let w := yearWindows clk in
  let y := getFullYear clk (now clk) in
  stripDay clk (startPrevious w) = daysFromCivil (y - 1) 1 1
  /\ stripDay clk (endPrevious w) = daysFromCivil y 1 1 - 1
  /\ stripDay clk (startCurrent w) = daysFromCivil y 1 1
  /\ stripDay clk (endCurrent w) = localDay clk (now clk).
Proof.
  cbv zeta. unfold yearWindows. cbn [startPrevious endPrevious startCurrent
                                     endCurrent].
  pose proof (localDay_nonneg clk (now clk) Hclk) as HT.
  destruct today_fields as (E & Hy & Hm & Hd). cbv zeta in E, Hy, Hm, Hd.
  rewrite !stripDay_localMidnight;
    try (Z.div_mod_to_equations; lia).
  rewrite stripDay_localDay by lia.
  unfold makeDay. change (0 / 12) with 0. change (0 mod 12 + 1) with 1.
  change (11 / 12) with 0. change (11 mod 12 + 1) with 12.
  rewrite !Z.add_0_r.
  pose proof (days_new_year (getFullYear clk (now clk) - 1)) as N.
  replace (getFullYear clk (now clk) - 1 + 1) with (getFullYear clk (now clk))
    in N by lia.
  pose proof (days_add (getFullYear clk (now clk) - 1) 12 1 30) as A.
  change (1 + 30) with 31 in A.
  repeat split; lia.
Qed.

(** The first of the month, and of the year, of a day is not after it. *)
Lemma first_of_month_le :
  makeDay (getFullYear clk (now clk)) (getMonth clk (now clk)) 1
  <= localDay clk (now clk).
Proof.
  destruct today_fields as (E & Hy & Hm & Hd). cbv zeta in E, Hy, Hm, Hd.
  rewrite <- E. unfold makeDay.
  replace (getMonth clk (now clk) / 12) with 0
    by (Z.div_mod_to_equations; lia).
  replace (getMonth clk (now clk) mod 12) with (getMonth clk (now clk))
    by (Z.div_mod_to_equations; lia).
  rewrite Z.add_0_r.
  pose proof (days_add (getFullYear clk (now clk))
                (getMonth clk (now clk) + 1) 1
                (getDate clk (now clk) - 1)) as A.
  replace (1 + (getDate clk (now clk) - 1)) with (getDate clk (now clk))
    in A by lia. lia.
Qed.

Lemma first_of_year_le_first_of_month (y m : Z) :
  0 <= m <= 11 -> daysFromCivil y 1 1 <= makeDay y m 1.
Proof.
  intro Hm. unfold makeDay.
  replace (m / 12) with 0 by (Z.div_mod_to_equations; lia).
  replace (m mod 12) with m by (Z.div_mod_to_equations; lia).
  rewrite Z.add_0_r. replace (daysFromCivil y (m + 1) 1 + 1 - 1)
    with (daysFromCivil y (m + 1) 1) by lia.
  destruct (Z.eq_dec m 0) as [->|Hne]; [change (0 + 1) with 1; lia|].
  apply Z.lt_le_incl, days_lt; [apply validDate_first; lia..|].
  right. split; [reflexivity|left; lia].
Qed.

End Clock.

(** X19.  [comparisonData], the three cards: when the local time is in
    1970 or later, no transaction is counted both in the previous and in
    the current window of a card, and the two windows leave no day out
    between them: together they hold what the one window from the start
    of the previous to the end of the current holds. *)
Theorem comparison_windows_partition
    (clk : Clock) (w : Comparison) (t : Transaction) :
  0 <= now clk + tzOffset clk ->
  In w [weekWindows clk; monthWindows clk; yearWindows clk] ->
  inWindow clk (startPrevious w) (endPrevious w) t
  && inWindow clk (startCurrent w) (endCurrent w) t = false
  /\ inWindow clk (startPrevious w) (endPrevious w) t
     || inWindow clk (startCurrent w) (endCurrent w) t
     = inWindow clk (startPrevious w) (endCurrent w) t.
Proof.
  intro Hclk.
  pose proof (localDay_nonneg clk (now clk) Hclk) as HT.
  destruct (today_fields clk Hclk) as (E & Hy & Hm & Hd).
  cbv zeta in E, Hy, Hm, Hd.
  intros [<-|[<-|[<-|[]]]]; apply windows_partition.
  - destruct (week_days clk Hclk) as (A & B & C & D). cbv zeta in *. lia.
  - destruct (week_days clk Hclk) as (A & B & C & D). cbv zeta in *. lia.
  - destruct (week_days clk Hclk) as (A & B & C & D). cbv zeta in *. lia.
  - destruct (month_days clk Hclk) as (A & B & C & D). cbv zeta in *. lia.
  - destruct (month_days clk Hclk) as (A & B & C & D). cbv zeta in *.
    pose proof (makeDay_month_mono (getFullYear clk (now clk)) _ Hm). lia.
  - destruct (month_days clk Hclk) as (A & B & C & D). cbv zeta in *.
    pose proof (first_of_month_le clk Hclk). lia.
  - destruct (year_days clk Hclk) as (A & B & C & D). cbv zeta in *. lia.
  - destruct (year_days clk Hclk) as (A & B & C & D). cbv zeta in *.
    rewrite A, C. apply days_first_of_year_mono. lia.
  - destruct (year_days clk Hclk) as (A & B & C & D). cbv zeta in *.
    pose proof (first_of_month_le clk Hclk).
    pose proof (first_of_year_le_first_of_month
                  (getFullYear clk (now clk)) _ Hm). lia.
Qed.

Example comparison_windows_partition_witness :
  let clk := mkClock 1704888000000 25200000 in
  let w := monthWindows clk in
  let t := mkTransaction "1" 100 expense food "2023-12-31" "" in
  inWindow clk (startPrevious w) (endPrevious w) t
  && inWindow clk (startCurrent w) (endCurrent w) t = false
  /\ inWindow clk (startPrevious w) (endPrevious w) t
     || inWindow clk (startCurrent w) (endCurrent w) t
     = inWindow clk (startPrevious w) (endCurrent w) t.
Proof.
  intros clk w t. apply comparison_windows_partition.
  - vm_compute. discriminate.
  - right. left. reflexivity.
Defined.

End Windows.

(** ** The order of the dates *)

Section CalendarOrder.

Import JSDate Analytics.

Lemma daysInMonth_bounds (y m : Z) : 28 <= daysInMonth y m <= 31.
Proof.
  unfold daysInMonth. destruct (m =? 2); [destruct (isLeapYear y); lia|].
  destruct (_ || _); lia.
Qed.

(** The day after the last day of a month is the first of the next. *)
Lemma days_next_month (y m : Z) :
  1 <= m <= 11 ->
  daysFromCivil y m (daysInMonth y m) + 1 = daysFromCivil y (m + 1) 1.
Proof.
  intro Hm. assert (Hm' : 1 <= m <= 12) by lia.
  destruct (month_cases m Hm') as [E|[E|[E|[E|[E|[E|[E|[E|[E|[E|[E|E]]]]]]]]]]];
    subst m; try lia;
    match goal with
    | |- context [daysFromCivil _ (?a + 1) _] =>
        let v := eval vm_compute in (a + 1) in change (a + 1) with v
    end;
    rewrite !days_closed; cbv zeta; unfold daysInMonth, isLeapYear;
    decide_consts; try (Z.div_mod_to_equations; lia).
  destruct (Z.eqb_spec (y mod 4) 0) as [E4|E4];
    destruct (Z.eqb_spec (y mod 100) 0) as [E100|E100];
    destruct (Z.eqb_spec (y mod 400) 0) as [E400|E400];
    decide_consts; Z.div_mod_to_equations; lia.
Qed.

(** [civilFromDays] yields dates of the calendar. *)
Lemma civil_valid (z : Z) :
  let '(y, m, d) := civilFromDays z in validDate y m d.
Proof.
  pose proof (days_of_civil z) as H.
  destruct (civilFromDays z) as [[y m] d] eqn:Ec.
  destruct H as (E & Hm & Hd). split; [assumption|]. split; [lia|].
  destruct (Z.le_gt_cases d (daysInMonth y m)) as [Hle|Hgt]; [assumption|].
  exfalso. pose proof (daysInMonth_bounds y m) as Hb.
  pose proof (days_add y m (daysInMonth y m) (d - daysInMonth y m)) as A.
  replace (daysInMonth y m + (d - daysInMonth y m)) with d in A by lia.
  destruct (Z.eq_dec m 12) as [->|Hne].
  - unfold daysInMonth in A, Hgt, Hb. decide_consts.
    pose proof (days_new_year y) as N.
    pose proof (days_add (y + 1) 1 1 (d - 32)) as B.
    assert (Hc : civilFromDays (daysFromCivil (y + 1) 1 (1 + (d - 32)))
                 = (y + 1, 1, 1 + (d - 32))).
    { apply civil_of_days; [lia|]. unfold daysInMonth. decide_consts. lia. }
    replace (daysFromCivil (y + 1) 1 (1 + (d - 32))) with z in Hc by lia.
    rewrite Ec in Hc. injection Hc. lia.
  - pose proof (days_next_month y m ltac:(lia)) as N.
    pose proof (days_add y (m + 1) 1 (d - daysInMonth y m - 1)) as B.
    pose proof (daysInMonth_bounds y (m + 1)) as Hb'.
    assert (Hc : civilFromDays
                   (daysFromCivil y (m + 1) (1 + (d - daysInMonth y m - 1)))
                 = (y, m + 1, 1 + (d - daysInMonth y m - 1))).
    { apply civil_of_days; lia. }
    replace (daysFromCivil y (m + 1) (1 + (d - daysInMonth y m - 1)))
      with z in Hc by lia.
    rewrite Ec in Hc. injection Hc. lia.
Qed.

(** The order of the day numbers is the order of the dates. *)
Lemma days_le_iff (y1 m1 d1 y2 m2 d2 : Z) :
  validDate y1 m1 d1 -> validDate y2 m2 d2 ->
  daysFromCivil y1 m1 d1 <= daysFromCivil y2 m2 d2
  <-> y1 < y2 \/ (y1 = y2 /\ (m1 < m2 \/ (m1 = m2 /\ d1 <= d2))).
Proof.
  intros H1 H2. split.
  - intro Hle.
    destruct (Z.lt_trichotomy y1 y2) as [Hy|[Hy|Hy]]; [now left| |].
    + right. split; [assumption|]. subst y2.
      destruct (Z.lt_trichotomy m1 m2) as [Hm|[Hm|Hm]]; [now left| |].
      * right. split; [assumption|]. subst m2.
        destruct (Z.le_gt_cases d1 d2) as [Hd|Hd]; [assumption|].
        pose proof (days_lt y1 m1 d2 y1 m1 d1 H2 H1) as L. lia.
      * pose proof (days_lt y1 m2 d2 y1 m1 d1 H2 H1) as L. lia.
    + pose proof (days_lt y2 m2 d2 y1 m1 d1 H2 H1) as L. lia.
  - intros [Hy|[-> [Hm|[-> Hd]]]].
    + apply Z.lt_le_incl, days_lt; auto.
    + apply Z.lt_le_incl, days_lt; auto.
    + destruct (Z.eq_dec d1 d2) as [->|Hne]; [lia|].
      apply Z.lt_le_incl, days_lt; auto. right. split; [reflexivity|].
      right. split; [reflexivity|lia].
Qed.

Lemma parseFields_valid (s : string) (y m d : Z) :
  parseFields s = Some (y, m, d) -> validDate y m d.
Proof.
  unfold parseFields.
  destruct (list_ascii_of_string s)
    as [|c1 [|c2 [|c3 [|c4 [|c5 [|c6 [|c7 [|c8 [|c9 [|c10 [|c11 r]]]]]]]]]]];
    try discriminate.
  destruct (_ && _); [|discriminate].
  destruct (readDigits 0 [c1; c2; c3; c4]) as [y'|]; [|discriminate].
  destruct (readDigits 0 [c6; c7]) as [m'|]; [|discriminate].
  destruct (readDigits 0 [c9; c10]) as [d'|]; [|discriminate].
  destruct ((1 <=? m') && (m' <=? 12) && (1 <=? d')
            && (d' <=? daysInMonth y' m')) eqn:E; [|discriminate].
  intro H. injection H as <- <- <-.
  rewrite !andb_true_iff, !Z.leb_le in E. unfold validDate. lia.
Qed.

End CalendarOrder.

(** ** The cards and the periods, date by date *)

Section Cards.

Import JSDate Analytics.

Lemma parse_of_fields (s : string) (y m d : Z) :
  parseFields s = Some (y, m, d) ->
  dayNumber s = Some (daysFromCivil y m d)
  /\ parse s = Some (daysFromCivil y m d * MS_PER_DAY).
Proof. intro H. unfold parse, dayNumber. rewrite H. split; reflexivity. Qed.

Lemma parse_of_dayNumber (s : string) (D : Z) :
  dayNumber s = Some D -> parse s = Some (D * MS_PER_DAY).
Proof. intro H. unfold parse. now rewrite H. Qed.

Lemma localDay_of_day (clk : Clock) (D : Z) :
  localDay clk (D * MS_PER_DAY) = D + tzOffset clk / MS_PER_DAY.
Proof. unfold localDay. apply Z.div_add_l. discriminate. Qed.

Lemma east_of_utc (clk : Clock) :
  0 <= tzOffset clk < MS_PER_DAY -> tzOffset clk / MS_PER_DAY = 0.
Proof. apply Z.div_small. Qed.

Lemma west_of_utc (clk : Clock) :
  - MS_PER_DAY <= tzOffset clk < 0 -> tzOffset clk / MS_PER_DAY = -1.
Proof.
  intro H. assert (HMS : MS_PER_DAY = 86400000) by reflexivity.
  rewrite HMS in *. Z.div_mod_to_equations. lia.
Qed.




Lemma today_valid (clk : Clock) :
  validDate (getFullYear clk (now clk)) (getMonth clk (now clk) + 1)
    (getDate clk (now clk)).
Proof.
  unfold getFullYear, getMonth, getDate.
  pose proof (civil_valid (localDay clk (now clk))) as H.
  destruct (civilFromDays (localDay clk (now clk))) as [[y m] d].
  now replace (m - 1 + 1) with m by lia.
Qed.

Lemma makeDay_in_year (y m d : Z) :
  0 <= m <= 11 -> makeDay y m d = daysFromCivil y (m + 1) d.
Proof.
  intro Hm. unfold makeDay.
  replace (m / 12) with 0 by (Z.div_mod_to_equations; lia).
  replace (m mod 12) with m by (Z.div_mod_to_equations; lia).
  rewrite Z.add_0_r.
  pose proof (days_add y (m + 1) 1 (d - 1)) as A.
  replace (1 + (d - 1)) with d in A by lia. lia.
Qed.

Lemma makeDay_before_january (y : Z) :
  makeDay y (-1) 1 = daysFromCivil (y - 1) 12 1.
Proof.
  unfold makeDay. change (-1 / 12) with (-1).
  change (-1 mod 12 + 1) with 12. replace (y + -1) with (y - 1) by lia. lia.
Qed.

Lemma tx_stripDay (clk : Clock) (ty tm td : Z) :
  0 <= tzOffset clk < MS_PER_DAY -> 1970 <= ty -> validDate ty tm td ->
  stripDay clk (daysFromCivil ty tm td * MS_PER_DAY) = daysFromCivil ty tm td.
Proof.
  intros Htz Hy Hv.
  rewrite stripDay_localDay; rewrite localDay_of_day, (east_of_utc clk Htz);
    [lia|].
  pose proof (days_lower ty tm td) as L. destruct Hv as [_ Hd]. lia.
Qed.

(** The card of the month. *)
Lemma month_card_aux (clk : Clock) (t : Transaction) (ty tm td : Z) :
  0 <= now clk + tzOffset clk ->
  0 <= tzOffset clk < MS_PER_DAY ->
  parseFields (date t) = Some (ty, tm, td) -> 1970 <= ty ->
  let w := monthWindows clk in
  let y := getFullYear clk (now clk) in
  let m := getMonth clk (now clk) in
  let d := getDate clk (now clk) in
  (inWindow clk (startCurrent w) (endCurrent w) t = true
   <-> ty = y /\ tm = m + 1 /\ td <= d)
  /\ (inWindow clk (startPrevious w) (endPrevious w) t = true
      <-> (ty = y /\ tm = m) \/ (m = 0 /\ ty = y - 1 /\ tm = 12)).
Proof.
  intros Hclk Htz Hf Hty. cbv zeta.
  pose proof (parseFields_valid _ _ _ _ Hf) as Hv.
  destruct (parse_of_fields _ _ _ _ Hf) as [_ Hp].
  destruct (month_days clk Hclk) as (A & B & C & E). cbv zeta in A, B, C, E.
  destruct (today_fields clk Hclk) as (ET & Hy & Hm & Hd).
  cbv zeta in ET, Hy, Hm, Hd.
  pose proof (today_valid clk) as Htoday.
  rewrite !inWindow_stripDay, Hp, A, B, C, E, (tx_stripDay clk _ _ _ Htz Hty Hv).
  rewrite <- ET. rewrite (makeDay_in_year _ _ 1 Hm).
  rewrite !andb_true_iff, !Z.leb_le.
  remember (getFullYear clk (now clk)) as y eqn:Ey. clear Ey.
  remember (getMonth clk (now clk)) as m eqn:Em. clear Em.
  remember (getDate clk (now clk)) as d eqn:Ed. clear Ed.
  assert (Hfirst : validDate y (m + 1) 1) by (apply validDate_first; lia).
  rewrite (days_le_iff _ _ _ _ _ _ Hfirst Hv).
  rewrite (days_le_iff _ _ _ _ _ _ Hv Htoday).
  destruct Hv as [Hv1 Hv2]. split; [lia|].
  destruct (Z.eq_dec m 0) as [->|Hne].
  - rewrite makeDay_before_january.
    assert (Hdec : validDate (y - 1) 12 1) by (apply validDate_first; lia).
    rewrite (days_le_iff _ _ _ _ _ _ Hdec (conj Hv1 Hv2)).
    assert (L : daysFromCivil ty tm td <= daysFromCivil y (0 + 1) 1 - 1
                <-> ~ daysFromCivil y (0 + 1) 1 <= daysFromCivil ty tm td)
      by lia.
    rewrite L, (days_le_iff _ _ _ _ _ _ Hfirst (conj Hv1 Hv2)). lia.
  - rewrite (makeDay_in_year y (m - 1) 1) by lia.
    assert (Hprev : validDate y (m - 1 + 1) 1) by (apply validDate_first; lia).
    rewrite (days_le_iff _ _ _ _ _ _ Hprev (conj Hv1 Hv2)).
    assert (L : daysFromCivil ty tm td <= daysFromCivil y (m + 1) 1 - 1
                <-> ~ daysFromCivil y (m + 1) 1 <= daysFromCivil ty tm td)
      by lia.
    rewrite L, (days_le_iff _ _ _ _ _ _ Hfirst (conj Hv1 Hv2)). lia.
Qed.

(** The card of the year. *)
Lemma year_card_aux (clk : Clock) (t : Transaction) (ty tm td : Z) :
  0 <= now clk + tzOffset clk ->
  0 <= tzOffset clk < MS_PER_DAY ->
  parseFields (date t) = Some (ty, tm, td) -> 1970 <= ty ->
  let w := yearWindows clk in
  let y := getFullYear clk (now clk) in
  let m := getMonth clk (now clk) in
  let d := getDate clk (now clk) in
  (inWindow clk (startCurrent w) (endCurrent w) t = true
   <-> ty = y /\ (tm < m + 1 \/ (tm = m + 1 /\ td <= d)))
  /\ (inWindow clk (startPrevious w) (endPrevious w) t = true
      <-> ty = y - 1).
Proof.
  intros Hclk Htz Hf Hty. cbv zeta.
  pose proof (parseFields_valid _ _ _ _ Hf) as Hv.
  destruct (parse_of_fields _ _ _ _ Hf) as [_ Hp].
  destruct (year_days clk Hclk) as (A & B & C & E). cbv zeta in A, B, C, E.
  destruct (today_fields clk Hclk) as (ET & Hy & Hm & Hd).
  cbv zeta in ET, Hy, Hm, Hd.
  pose proof (today_valid clk) as Htoday.
  rewrite !inWindow_stripDay, Hp, A, B, C, E, (tx_stripDay clk _ _ _ Htz Hty Hv).
  rewrite <- ET.
  rewrite !andb_true_iff, !Z.leb_le.
  remember (getFullYear clk (now clk)) as y eqn:Ey. clear Ey.
  remember (getMonth clk (now clk)) as m eqn:Em. clear Em.
  remember (getDate clk (now clk)) as d eqn:Ed. clear Ed.
  destruct (validDate_bounds y) as [Hfirst _].
  destruct (validDate_bounds (y - 1)) as [Hprev _].
  rewrite (days_le_iff _ _ _ _ _ _ Hfirst Hv).
  rewrite (days_le_iff _ _ _ _ _ _ Hv Htoday).
  rewrite (days_le_iff _ _ _ _ _ _ Hprev Hv).
  assert (L : daysFromCivil ty tm td <= daysFromCivil y 1 1 - 1
              <-> ~ daysFromCivil y 1 1 <= daysFromCivil ty tm td) by lia.
  rewrite L, (days_le_iff _ _ _ _ _ _ Hfirst Hv).
  destruct Hv as [Hv1 Hv2]. split; lia.
Qed.




Lemma fields_of_parsed_east (clk : Clock) (ty tm td : Z) :
  0 <= tzOffset clk < MS_PER_DAY -> validDate ty tm td ->
  getFullYear clk (daysFromCivil ty tm td * MS_PER_DAY) = ty
  /\ getMonth clk (daysFromCivil ty tm td * MS_PER_DAY) = tm - 1.
Proof.
  intros Htz [Hm Hd]. unfold getFullYear, getMonth.
  rewrite localDay_of_day, (east_of_utc clk Htz), Z.add_0_r.
  rewrite (civil_of_days ty tm td Hm Hd). split; reflexivity.
Qed.





End Cards.

(** ** The texts of the dates *)

Section DateTexts.

Import JSDate Analytics.
Local Open Scope string_scope.

Lemma digitValue_range (c : ascii) (v : Z) :
  digitValue c = Some v -> (0 <= v <= 9)%Z.
Proof.
  unfold digitValue.
  destruct c as [[] [] [] [] [] [] [] []]; cbn; intro H;
    try discriminate; injection H as <-; lia.
Qed.

Lemma digitValue_compare (c1 c2 : ascii) (v1 v2 : Z) :
  digitValue c1 = Some v1 -> digitValue c2 = Some v2 ->
  Ascii.compare c1 c2 = (v1 ?= v2)%Z.
Proof.
  unfold digitValue.
  destruct (Constants.isDigit c1); [|discriminate].
  destruct (Constants.isDigit c2); [|discriminate].
  intros H1 H2. injection H1 as <-. injection H2 as <-.
  unfold Ascii.compare, nat_of_ascii. rewrite !N_nat_Z.
  rewrite <- N2Z.inj_compare.
  destruct (Z.compare_spec (Z.of_N (N_of_ascii c1)) (Z.of_N (N_of_ascii c2)));
    destruct (Z.compare_spec (Z.of_N (N_of_ascii c1) - 48)
                             (Z.of_N (N_of_ascii c2) - 48));
    try reflexivity; lia.
Qed.

(** Two runs of digits of the same length compare as the numbers they
    stand for. *)
Lemma readDigits_compare (l1 : list ascii) :
  forall (l2 : list ascii) (a1 a2 n1 n2 : Z) (r1 r2 : string),
  List.length l1 = List.length l2 ->
  readDigits a1 l1 = Some n1 -> readDigits a2 l2 = Some n2 ->
  ((a1 < a2)%Z -> (n1 < n2)%Z)
  /\ ((a2 < a1)%Z -> (n2 < n1)%Z)
  /\ (a1 = a2 ->
      String.compare (string_of_list_ascii l1 ++ r1)
                     (string_of_list_ascii l2 ++ r2)
      = match (n1 ?= n2)%Z with
        | Eq => String.compare r1 r2
        | c => c
        end).
Proof.
  induction l1 as [|c1 l1 IH]; intros [|c2 l2] a1 a2 n1 n2 r1 r2 Hlen H1 H2;
    try discriminate.
  - cbn in H1, H2. injection H1 as <-. injection H2 as <-.
    repeat split; try lia. intros <-. now rewrite Z.compare_refl.
  - cbn [readDigits] in H1, H2.
    destruct (digitValue c1) as [v1|] eqn:E1; [|discriminate].
    destruct (digitValue c2) as [v2|] eqn:E2; [|discriminate].
    pose proof (digitValue_range _ _ E1) as R1.
    pose proof (digitValue_range _ _ E2) as R2.
    injection Hlen as Hlen.
    destruct (IH l2 _ _ _ _ r1 r2 Hlen H1 H2) as (Lt' & Gt' & Eq').
    split; [intro; apply Lt'; lia|]. split; [intro; apply Gt'; lia|].
    intros <-. cbn [string_of_list_ascii String.append String.compare].
    rewrite (digitValue_compare _ _ _ _ E1 E2).
    destruct (Z.compare_spec v1 v2) as [->|Hlt|Hgt].
    + now apply Eq'.
    + assert (L : (n1 < n2)%Z) by (apply Lt'; lia).
      apply Z.compare_lt_iff in L. now rewrite L.
    + assert (L : (n2 < n1)%Z) by (apply Gt'; lia).
      apply Z.compare_gt_iff in L. now rewrite L.
Qed.

Lemma compare_after_dash (s1 s2 : string) :
  String.compare (String "-" s1) (String "-" s2) = String.compare s1 s2.
Proof. reflexivity. Qed.

(** The texts of two dates compare as the dates do: by year, then month,
    then day. *)
Lemma date_text_compare (s1 s2 : string) (y1 m1 dy1 y2 m2 dy2 : Z) :
  parseFields s1 = Some (y1, m1, dy1) ->
  parseFields s2 = Some (y2, m2, dy2) ->
  String.compare s1 s2
  = match (y1 ?= y2)%Z with
    | Eq => match (m1 ?= m2)%Z with
            | Eq => (dy1 ?= dy2)%Z
            | c => c
            end
    | c => c
    end.
Proof.
  intros H1 H2.
  rewrite <- (string_of_list_ascii_of_string s1).
  rewrite <- (string_of_list_ascii_of_string s2).
  unfold parseFields in H1, H2.
  destruct (list_ascii_of_string s1)
    as [|a1 [|a2 [|a3 [|a4 [|a5 [|a6 [|a7 [|a8 [|a9 [|a10 [|a11 ra]]]]]]]]]]];
    try discriminate.
  destruct (list_ascii_of_string s2)
    as [|b1 [|b2 [|b3 [|b4 [|b5 [|b6 [|b7 [|b8 [|b9 [|b10 [|b11 rb]]]]]]]]]]];
    try discriminate.
  destruct (Ascii.eqb a5 "-") eqn:Ea5; [|discriminate].
  destruct (Ascii.eqb a8 "-") eqn:Ea8; [|discriminate].
  destruct (Ascii.eqb b5 "-") eqn:Eb5; [|discriminate].
  destruct (Ascii.eqb b8 "-") eqn:Eb8; [|discriminate].
  apply Ascii.eqb_eq in Ea5, Ea8, Eb5, Eb8. subst a5 a8 b5 b8.
  cbn [andb] in H1, H2.
  destruct (readDigits 0 [a1; a2; a3; a4]) as [ya|] eqn:Ya; [|discriminate].
  destruct (readDigits 0 [a6; a7]) as [ma|] eqn:Ma; [|discriminate].
  destruct (readDigits 0 [a9; a10]) as [da|] eqn:Da; [|discriminate].
  destruct (readDigits 0 [b1; b2; b3; b4]) as [yb|] eqn:Yb; [|discriminate].
  destruct (readDigits 0 [b6; b7]) as [mb|] eqn:Mb; [|discriminate].
  destruct (readDigits 0 [b9; b10]) as [db|] eqn:Db; [|discriminate].
  destruct (_ && _) in H1; [|discriminate].
  destruct (_ && _) in H2; [|discriminate].
  injection H1 as <- <- <-. injection H2 as <- <- <-.
  destruct (readDigits_compare [a1; a2; a3; a4] [b1; b2; b3; b4] 0 0 ya yb
              (String "-" (string_of_list_ascii [a6; a7; "-"%char; a9; a10]))
              (String "-" (string_of_list_ascii [b6; b7; "-"%char; b9; b10]))
              eq_refl Ya Yb) as (_ & _ & EY).
  destruct (readDigits_compare [a6; a7] [b6; b7] 0 0 ma mb
              (String "-" (string_of_list_ascii [a9; a10]))
              (String "-" (string_of_list_ascii [b9; b10]))
              eq_refl Ma Mb) as (_ & _ & EM).
  destruct (readDigits_compare [a9; a10] [b9; b10] 0 0 da db "" ""
              eq_refl Da Db) as (_ & _ & ED).
  specialize (EY eq_refl). specialize (EM eq_refl). specialize (ED eq_refl).
  cbn [string_of_list_ascii String.append] in EY, EM, ED |- *.
  rewrite EY. destruct (ya ?= yb)%Z; try reflexivity.
  rewrite compare_after_dash.
  rewrite EM. destruct (ma ?= mb)%Z; try reflexivity.
  rewrite compare_after_dash.
  rewrite ED. destruct (da ?= db)%Z; reflexivity.
Qed.

Lemma date_text_leb (s1 s2 : string) (n1 n2 : Z) :
  dayNumber s1 = Some n1 -> dayNumber s2 = Some n2 ->
  String.leb s1 s2 = (n1 <=? n2)%Z.
Proof.
  unfold dayNumber.
  destruct (parseFields s1) as [[[y1 m1] dy1]|] eqn:E1; [|discriminate].
  destruct (parseFields s2) as [[[y2 m2] dy2]|] eqn:E2; [|discriminate].
  intros H1 H2. injection H1 as <-. injection H2 as <-.
  pose proof (parseFields_valid _ _ _ _ E1) as V1.
  pose proof (parseFields_valid _ _ _ _ E2) as V2.
  unfold String.leb. rewrite (date_text_compare _ _ _ _ _ _ _ _ E1 E2).
  pose proof (days_le_iff _ _ _ _ _ _ V1 V2) as L.
  apply eq_true_iff_eq. rewrite Z.leb_le, L.
  destruct (Z.compare_spec y1 y2) as [->|Hy|Hy];
    [destruct (Z.compare_spec m1 m2) as [->|Hm|Hm];
     [destruct (Z.compare_spec dy1 dy2) as [->|Hd|Hd]|..]|..];
    split; intro; try reflexivity; try discriminate; lia.
Qed.

(** X24.  The custom period compares the texts of the dates; for dates of
    the calendar this is the order of time: a transaction is kept when its
    day is neither before the start day nor after the end day. *)
Theorem custom_filter_chronological
    (clk : Clock) (startDate endDate : string) (l : list Transaction)
    (t : Transaction) (ds de dt : Z) :
  dayNumber startDate = Some ds -> dayNumber endDate = Some de ->
  dayNumber (date t) = Some dt ->
  In t (fst (filterByPeriod clk custom startDate endDate l))
  <-> In t l /\ (ds <= dt <= de)%Z.
Proof.
  intros Hs He Ht. unfold filterByPeriod.
  rewrite (dayNumber_nonEmpty _ _ Hs), (dayNumber_nonEmpty _ _ He).
  cbn [andb fst]. rewrite filter_In.
  rewrite (date_text_leb _ _ _ _ Hs Ht), (date_text_leb _ _ _ _ Ht He).
  rewrite andb_true_iff, !Z.leb_le. reflexivity.
Qed.

Example custom_filter_chronological_witness :
  let t := mkTransaction "1" 100 expense food "2024-02-29" "" in
  In t (fst (filterByPeriod (mkClock 0 0) custom "2023-12-31" "2024-03-01"
               [t]))
  <-> In t [t] /\ (19722 <= 19782 <= 19783)%Z.
Proof.
  intro t.
  apply (custom_filter_chronological (mkClock 0 0) "2023-12-31" "2024-03-01"
           [t] t 19722 19783 19782); reflexivity.
Defined.

End DateTexts.

(** ** What an import can do to the store *)

Section ImportSafety.

Local Open Scope string_scope.

(** X25.  Whatever the file holds, an import leaves the transactions of
    the store as they were, or, when the user confirmed and the file held
    an array, puts that array in their place and tells how many
    transactions were restored.  Nothing is merged, and nothing changes
    without the confirmation. *)
Theorem import_keeps_or_replaces
    (json : JSON) (confirmed : bool) (file : option string) (w : World) :
  let w' :=
    Analytics.handleFileChange json (Some App.handleImportData) confirmed
      file w in
  transactions w' = transactions w
  \/ (confirmed = true
      /\ exists (content : string) (parsedData : list JSValue),
           file = Some content
           /\ JSON_parse json content = Some (JArray parsedData)
           /\ transactions w' = parsedData
           /\ alerts w'
              = (alerts w ++ [AlertRestored (List.length parsedData)])%list).
Proof.
  cbv zeta. unfold Analytics.handleFileChange.
  destruct file as [content|]; [|now left].
  destruct (JSON_parse json content) as [[| | | |parsedData|]|] eqn:Hparse;
    try (now left).
  destruct (Analytics.wrongFormat parsedData) as [[]|[|]]; try (now left).
  destruct confirmed; [|now left].
  right. split; [reflexivity|]. exists content, parsedData.
  repeat split; assumption.
Qed.

(** X26.  Only the first element of the array of the file is looked at:
    when its amount and its date are truthy and the user confirms, the
    whole array is handed to [onImportData] as it is, whatever the other
    elements are, [null] included. *)
Theorem import_checks_first_element_only
    (json : JSON) (onImportData : list JSValue -> World -> World)
    (content : string) (first : JSValue) (rest : list JSValue)
    (a d : option JSValue) (w : World) :
  JSON_parse json content = Some (JArray (first :: rest)) ->
  JS.getProp first "amount" = inr a -> JS.truthy a = true ->
  JS.getProp first "date" = inr d -> JS.truthy d = true ->
  Analytics.handleFileChange json (Some onImportData) true (Some content) w
  = onImportData (first :: rest) w.
Proof.
  intros Hparse Ha Hta Hd Htd. unfold Analytics.handleFileChange.
  rewrite Hparse. unfold Analytics.wrongFormat. rewrite Ha, Hta.
  cbn [negb]. rewrite Hd, Htd. reflexivity.
Qed.

Example import_checks_first_element_only_witness :
  let first :=
    JS.ofTransaction (mkTransaction "1" 100 expense food "2024-02-01" "") in
  let rest := [JNull; JString "x"; JObject [("amount", JBool false)]] in
  let content := JSONText.stringify (JArray (first :: rest)) in
  Analytics.handleFileChange JSONText.codec (Some App.handleImportData) true
    (Some content) (mkWorld [] [])
  = App.handleImportData (first :: rest) (mkWorld [] []).
Proof.
  intros first rest content.
  apply (import_checks_first_element_only JSONText.codec
           App.handleImportData content first rest
           (Some (JNumber 100)) (Some (JString "2024-02-01"))).
  - vm_compute. reflexivity.
  - reflexivity.
  - reflexivity.
  - reflexivity.
  - reflexivity.
Defined.

End ImportSafety.

Section Trend.
Import Analytics.
Local Open Scope Q_scope.

Lemma percentChange_sign (title labelPrev labelCur : string)
    (current previous : Q) :
  0 <= previous -> 0 <= current ->
  let percent :=
    percentChange (createCompData title current previous labelPrev labelCur)
  in
  (previous < current -> 0 < percent)
  /\ (current < previous -> percent < 0)
  /\ (current == previous -> percent == 0).
Proof.
  intros Hp Hc. cbv zeta. unfold createCompData. cbn [percentChange].
  destruct (Qle_bool previous 0) eqn:E; cbn [negb].
  - apply Qle_bool_iff in E.
    assert (Hp0 : previous == 0) by lra.
    destruct (Qle_bool current 0) eqn:E'; cbn [negb].
    + apply Qle_bool_iff in E'. repeat split; intros; lra.
    + assert (~ current <= 0)
        by (intro H; apply Qle_bool_iff in H; congruence).
      unfold inject_Z. repeat split; intros; lra.
  - assert (Hpos : 0 < previous).
    { apply Qnot_le_lt. intro H. apply Qle_bool_iff in H. congruence. }
    unfold Qdiv. pose proof (Qinv_lt_0_compat _ Hpos) as Hinv.
    set (x := / previous) in *.
    assert (H100 : inject_Z 100 == 100) by reflexivity.
    rewrite H100.
    repeat split; intro H.
    + assert (0 < (current - previous) * x)
        by (apply Qmult_lt_0_compat; lra).
      lra.
    + assert (0 < (previous - current) * x)
        by (apply Qmult_lt_0_compat; lra).
      lra.
    + assert (Hz : current - previous == 0) by lra.
      rewrite Hz. lra.
Qed.

(** X27.  The badge of a comparison card, for sums that are not negative:
    it shows an increase when the current sum is above the previous one, a
    decrease when it is below, and no change when the two are equal. *)
Theorem trend_follows_the_change (title labelPrev labelCur : string)
    (current previous : Q) :
  0 <= previous -> 0 <= current ->
  let percent :=
    percentChange (createCompData title current previous labelPrev labelCur)
  in
  (previous < current -> renderTrend percent = Increase (Qabs percent))
  /\ (current < previous -> renderTrend percent = Decrease (Qabs percent))
  /\ (current == previous -> renderTrend percent = Unchanged).
Proof.
  intros Hp Hc.
  destruct (percentChange_sign title labelPrev labelCur current previous
              Hp Hc) as (Hup & Hdown & Hsame).
  cbv zeta in *.
  set (percent := percentChange
                    (createCompData title current previous labelPrev
                       labelCur)) in *.
  unfold renderTrend. repeat split; intro H.
  - specialize (Hup H).
    destruct (Qeq_bool percent 0) eqn:E;
      [apply Qeq_bool_iff in E; lra|].
    destruct (Qle_bool percent 0) eqn:E';
      [apply Qle_bool_iff in E'; lra|reflexivity].
  - specialize (Hdown H).
    destruct (Qeq_bool percent 0) eqn:E;
      [apply Qeq_bool_iff in E; lra|].
    destruct (Qle_bool percent 0) eqn:E'; [reflexivity|].
    assert (percent <= 0) by lra. apply Qle_bool_iff in H0. congruence.
  - specialize (Hsame H). apply Qeq_bool_iff in Hsame. now rewrite Hsame.
Qed.

Example trend_follows_the_change_witness :
  let percent := percentChange (createCompData "" 150 100 "" "") in
  (100 < 150 -> renderTrend percent = Increase (Qabs percent))
  /\ (150 < 100 -> renderTrend percent = Decrease (Qabs percent))
  /\ (150 == 100 -> renderTrend percent = Unchanged).
Proof.
  apply (trend_follows_the_change "" "" "" 150 100); discriminate.
Defined.

End Trend.

Section Agreement.
Import Analytics.

Lemma filter_comm {A : Type} (f g : A -> bool) (l : list A) :
  filter f (filter g l) = filter g (filter f l).
Proof.
  induction l as [|x l IH]; simpl; [reflexivity|].
  destruct (f x) eqn:Ef, (g x) eqn:Eg; simpl; rewrite ?Ef, ?Eg, IH;
    reflexivity.
Qed.

(** X28.  The dashboard and the analytics agree on the spending of the
    month: when the selection holds the category of every expense, the
    total of the period 'month' is the dashboard's expense of the current
    month. *)
Theorem dashboard_agrees_with_month_view
    (clk : JSDate.Clock) (transactions : list Transaction)
    (selectedCategories : list Category) (startDate endDate : string) :
  (forall t, In t transactions -> type t = expense ->
             includes selectedCategories (category t) = true) ->
  pd_total (processedData clk transactions month selectedCategories
              startDate endDate)
  = Dashboard.totalExpense (Dashboard.thisMonthTrans clk transactions).
Proof.
  intro Hsel. unfold processedData, filterByPeriod. cbn [pd_total].
  unfold Dashboard.totalExpense, Dashboard.thisMonthTrans, filterExpenses.
  f_equal. rewrite filter_comm.
  apply filter_ext_in. intros t Hin. apply filter_In in Hin.
  destruct Hin as [Hin _].
  destruct (type t) eqn:Ety; cbn [TransactionType_eqb andb];
    [|reflexivity].
  now apply Hsel.
Qed.

Example dashboard_agrees_with_month_view_witness :
  let clk := JSDate.mkClock 1704888000000 25200000 in
  let transactions :=
    [ mkTransaction "1" 100 expense food "2024-01-05" "";
      mkTransaction "2" 900 income income_category "2024-01-06" "";
      mkTransaction "3" 50 expense other "2023-12-31" "" ] in
  pd_total (processedData clk transactions month EXPENSE_CATEGORIES "" "")
  = Dashboard.totalExpense (Dashboard.thisMonthTrans clk transactions).
Proof.
  intros clk transactions. apply dashboard_agrees_with_month_view.
  intros t [<-|[<-|[<-|[]]]] Hty; try discriminate Hty; reflexivity.
Defined.

End Agreement.

(** ** The time series *)

Section TimeSeries.

Import JSDate Analytics.

Lemma getTime_setTime (acc : TimeTotals) (k k' : string) (v : Z) :
  getTime (setTime acc k v) k'
  = if String.eqb k k' then Some v else getTime acc k'.
Proof.
  induction acc as [|[k0 v0] acc IH]; simpl.
  - reflexivity.
  - destruct (String.eqb k0 k) eqn:E0; simpl.
    + apply String.eqb_eq in E0. subst k0.
      destruct (String.eqb k k'); reflexivity.
    + rewrite IH. destruct (String.eqb k0 k') eqn:E1; [|reflexivity].
      apply String.eqb_eq in E1. subst k0.
      now rewrite String.eqb_sym, E0.
Qed.

Lemma getTime_None (acc : TimeTotals) (k : string) :
  getTime acc k = None <-> ~ In k (map fst acc).
Proof.
  induction acc as [|[k0 v0] acc IH]; simpl.
  - split; [intros _ []|reflexivity].
  - destruct (String.eqb k0 k) eqn:E.
    + apply String.eqb_eq in E. subst k0. split; [discriminate|].
      intro H. destruct H. now left.
    + apply String.eqb_neq in E. rewrite IH. tauto.
Qed.

Lemma setTime_keys (acc : TimeTotals) (k : string) (v : Z) :
  map fst (setTime acc k v)
  = match getTime acc k with
    | Some _ => map fst acc
    | None => map fst acc ++ [k]
    end.
Proof.
  induction acc as [|[k0 v0] acc IH]; simpl; [reflexivity|].
  destruct (String.eqb k0 k); simpl; [reflexivity|].
  rewrite IH. now destruct (getTime acc k).
Qed.

Lemma setTime_keys_NoDup (acc : TimeTotals) (k : string) (v : Z) :
  NoDup (map fst acc) -> NoDup (map fst (setTime acc k v)).
Proof.
  intro H. rewrite setTime_keys.
  destruct (getTime acc k) eqn:E; [exact H|].
  apply getTime_None in E.
  apply NoDup_app; [exact H|repeat constructor; intros []|].
  intros x Hx [<-|[]]. contradiction.
Qed.

Lemma getTime_In (acc : TimeTotals) (k : string) (v : Z) :
  NoDup (map fst acc) -> (In (k, v) acc <-> getTime acc k = Some v).
Proof.
  induction acc as [|[k0 v0] acc IH]; simpl; intro Hnd.
  - split; [intros []|discriminate].
  - inversion Hnd as [|? ? Hnotin Hnd']; subst.
    destruct (String.eqb k0 k) eqn:E.
    + apply String.eqb_eq in E. subst k0. split.
      * intros [[= ->]|Hin]; [reflexivity|].
        destruct Hnotin. apply in_map_iff. now exists (k, v).
      * intros [= ->]. now left.
    + rewrite <- (IH Hnd'). split; [|now right].
      intros [[= -> ->]|Hin]; [|exact Hin].
      rewrite String.eqb_refl in E. discriminate.
Qed.

Variable clk : Clock.
Variable isMonthlyGrouping : bool.

Lemma fold_addToTime_None (l : list Transaction) :
  fold_left (addToTime clk isMonthlyGrouping) l None = None.
Proof. induction l as [|t l IH]; simpl; [reflexivity|exact IH]. Qed.

Lemma fold_addToTime_cons (t : Transaction) (l : list Transaction)
    (acc m : TimeTotals) :
  fold_left (addToTime clk isMonthlyGrouping) (t :: l) (Some acc) = Some m ->
  inheritedName (timeKey clk isMonthlyGrouping t) = false
  /\ fold_left (addToTime clk isMonthlyGrouping) l
       (Some (setTime acc (timeKey clk isMonthlyGrouping t)
                (orZero (getTime acc (timeKey clk isMonthlyGrouping t))
                 + amount t)))
     = Some m.
Proof.
  simpl. destruct (inheritedName (timeKey clk isMonthlyGrouping t)).
  - rewrite fold_addToTime_None. discriminate.
  - intro H. split; [reflexivity|exact H].
Qed.

Lemma sumOfKey_absent (k : string) (l : list Transaction) :
  existsb (fun t => String.eqb (timeKey clk isMonthlyGrouping t) k) l = false ->
  sumAmounts
    (filter (fun t => String.eqb (timeKey clk isMonthlyGrouping t) k) l) = 0.
Proof.
  induction l as [|t l IH]; simpl; [reflexivity|].
  intro H. apply orb_false_elim in H as [-> H]. now apply IH.
Qed.

Lemma getTime_fold (l : list Transaction) :
  forall (acc m : TimeTotals) (k : string),
  fold_left (addToTime clk isMonthlyGrouping) l (Some acc) = Some m ->
  getTime m k
  = if existsb (fun t => String.eqb (timeKey clk isMonthlyGrouping t) k) l
    then Some (match getTime acc k with Some n => n | None => 0 end
               + sumAmounts
                   (filter
                      (fun t =>
                         String.eqb (timeKey clk isMonthlyGrouping t) k) l))
    else getTime acc k.
Proof.
  induction l as [|t l IH]; intros acc m k H.
  - simpl in H. injection H as <-. reflexivity.
  - apply fold_addToTime_cons in H as [_ H].
    rewrite (IH _ _ k H). rewrite getTime_setTime. cbn [existsb filter].
    destruct (String.eqb (timeKey clk isMonthlyGrouping t) k) eqn:E;
      cbn [orb].
    + apply String.eqb_eq in E. subst k. rewrite orZero_get.
      rewrite sumAmounts_cons.
      destruct (existsb _ l) eqn:El; f_equal; [lia|].
      rewrite (sumOfKey_absent _ _ El). lia.
    + destruct (existsb _ l); reflexivity.
Qed.

Lemma fold_time_NoDup (l : list Transaction) :
  forall acc m : TimeTotals,
  fold_left (addToTime clk isMonthlyGrouping) l (Some acc) = Some m ->
  NoDup (map fst acc) -> NoDup (map fst m).
Proof.
  induction l as [|t l IH]; intros acc m H Hnd.
  - simpl in H. injection H as <-. exact Hnd.
  - apply fold_addToTime_cons in H as [_ H].
    apply (IH _ _ H). now apply setTime_keys_NoDup.
Qed.

Lemma filter_partition_Permutation {A : Type} (p : A -> bool)
    (l : list A) :
  Permutation (filter p l ++ filter (fun x => negb (p x)) l) l.
Proof.
  induction l as [|x l IH]; simpl; [constructor|].
  destruct (p x); simpl.
  - now constructor.
  - apply Permutation_sym, Permutation_cons_app. now apply Permutation_sym.
Qed.

Lemma entries_Permutation (m : TimeTotals) : Permutation (entries m) m.
Proof.
  unfold entries.
  apply perm_trans
    with (filter isArrayIndex m ++ filter (fun e => negb (isArrayIndex e)) m).
  - apply Permutation_app_tail, sort_Permutation.
  - apply filter_partition_Permutation.
Qed.

Lemma timeData_entries (localeCompare : string -> string -> Z)
    (filtered : list Transaction) (data : list TimeDatum) :
  timeData clk localeCompare filtered isMonthlyGrouping = Some data ->
  exists m : TimeTotals,
    timeDataMap clk isMonthlyGrouping filtered = Some m
    /\ Permutation (map (fun d => (originalKey d, amountOf d)) data) m.
Proof.
  unfold timeData.
  destruct (timeDataMap clk isMonthlyGrouping filtered) as [m|] eqn:E;
    [|discriminate].
  intro H. injection H as <-. exists m. split; [reflexivity|].
  rewrite map_map. cbn [originalKey amountOf formatTimeDatum].
  rewrite (map_ext _ (fun x => x)) by (intros []; reflexivity).
  rewrite map_id.
  apply perm_trans with (entries m);
    [apply sort_Permutation|apply entries_Permutation].
Qed.

Lemma fold_addToTime_Some (l : list Transaction) :
  (forall t, In t l ->
             inheritedName (timeKey clk isMonthlyGrouping t) = false) ->
  forall acc : TimeTotals,
  exists m : TimeTotals,
    fold_left (addToTime clk isMonthlyGrouping) l (Some acc) = Some m.
Proof.
  induction l as [|t l IH]; intros H acc.
  - exists acc. reflexivity.
  - simpl. rewrite (H t (or_introl eq_refl)).
    apply IH. intros t' Ht'. apply H. now right.
Qed.

End TimeSeries.

Section MonthlyKeys.

Import JSDate Analytics.
Local Open Scope string_scope.

Lemma hasDash_append (a b : string) :
  hasDash (a ++ b) = hasDash a || hasDash b.
Proof.
  induction a as [|c a IH]; simpl; [reflexivity|].
  now rewrite IH, orb_assoc.
Qed.

Lemma inheritedName_no_dash (k : string) :
  inheritedName k = true -> hasDash k = false.
Proof.
  unfold inheritedName. intro H. apply existsb_exists in H as (n & Hin & E).
  apply String.eqb_eq in E. subst n.
  repeat (destruct Hin as [<-|Hin]; [reflexivity|]). destruct Hin.
Qed.

Lemma monthly_key_not_inherited (clk : Clock) (t : Transaction) :
  inheritedName (timeKey clk true t) = false.
Proof.
  destruct (inheritedName (timeKey clk true t)) eqn:E; [|reflexivity].
  apply inheritedName_no_dash in E. unfold timeKey in E.
  destruct (parse (date t)); [|discriminate].
  rewrite !hasDash_append in E. cbn in E. rewrite orb_true_r in E.
  discriminate.
Qed.

End MonthlyKeys.

Section TimeSeriesTheorem.

Import JSDate Analytics.

(** X29.  The time series of the bar chart, under the monthly grouping,
    or under the daily one when no date is a name that objects inherit:
    there is one bucket for each key that occurs among the filtered
    transactions and none for other keys, and the amount of a bucket is
    the sum of the amounts of the transactions of its key, added in the
    order of the list. *)
Theorem timeData_buckets
    (clk : Clock) (localeCompare : string -> string -> Z)
    (filtered : list Transaction) (isMonthlyGrouping : bool) :
  isMonthlyGrouping = true
  \/ (forall t, In t filtered -> inheritedName (date t) = false) ->
  exists data : list TimeDatum,
    timeData clk localeCompare filtered isMonthlyGrouping = Some data
    /\ NoDup (map originalKey data)
    /\ (forall d, In d data ->
          (exists t, In t filtered
                     /\ timeKey clk isMonthlyGrouping t = originalKey d)
          /\ amountOf d
             = sumAmounts
                 (filter
                    (fun t => String.eqb (timeKey clk isMonthlyGrouping t)
                                (originalKey d)) filtered))
    /\ (forall t, In t filtered ->
          exists d, In d data
                    /\ originalKey d = timeKey clk isMonthlyGrouping t).
Proof.
  intro Hkeys.
  assert (Hsafe : forall t, In t filtered ->
            inheritedName (timeKey clk isMonthlyGrouping t) = false).
  { destruct Hkeys as [->|H]; intros t Ht.
    - apply monthly_key_not_inherited.
    - destruct isMonthlyGrouping; [apply monthly_key_not_inherited|].
      now apply H. }
  destruct (fold_addToTime_Some clk isMonthlyGrouping filtered Hsafe [])
    as [m Hm].
  exists (map (formatTimeDatum isMonthlyGrouping)
            (sort (fun a b => localeCompare (fst a) (fst b)) (entries m))).
  assert (Htd : timeData clk localeCompare filtered isMonthlyGrouping
                = Some (map (formatTimeDatum isMonthlyGrouping)
                          (sort (fun a b => localeCompare (fst a) (fst b))
                             (entries m)))).
  { assert (Hmap : timeDataMap clk isMonthlyGrouping filtered = Some m)
      by exact Hm.
    unfold timeData. now rewrite Hmap. }
  split; [exact Htd|].
  destruct (timeData_entries clk isMonthlyGrouping localeCompare filtered _
              Htd) as (m' & Hm' & Hperm).
  assert (Em : Some m' = Some m) by (rewrite <- Hm'; exact Hm).
  injection Em as ->. clear Hm'.
  set (data := map (formatTimeDatum isMonthlyGrouping) _) in *.
  pose proof (fold_time_NoDup clk isMonthlyGrouping filtered [] m Hm
                (NoDup_nil _)) as Hnd.
  pose proof (getTime_fold clk isMonthlyGrouping filtered [] m) as Hget.
  assert (Hkeysperm : Permutation (map originalKey data) (map fst m)).
  { rewrite <- (map_map (fun d => (originalKey d, amountOf d)) fst).
    now apply Permutation_map. }
  split; [|split].
  - apply (Permutation_NoDup (Permutation_sym Hkeysperm) Hnd).
  - intros d Hd.
    assert (Hin : In (originalKey d, amountOf d) m).
    { apply (Permutation_in _ Hperm). apply in_map_iff. now exists d. }
    apply (getTime_In m _ _ Hnd) in Hin.
    rewrite (Hget (originalKey d) Hm) in Hin.
    destruct (existsb _ filtered) eqn:E; [|discriminate].
    apply existsb_exists in E as (t & Ht & Et).
    apply String.eqb_eq in Et. split; [now exists t|].
    cbn [getTime] in Hin. injection Hin as Hin. lia.
  - intros t Ht.
    pose proof (Hget (timeKey clk isMonthlyGrouping t) Hm) as G.
    replace (existsb _ filtered) with true in G.
    2: { symmetry. apply existsb_exists. exists t.
         split; [exact Ht|apply String.eqb_refl]. }
    apply (getTime_In m _ _ Hnd) in G.
    apply (Permutation_in _ (Permutation_sym Hperm)) in G.
    apply in_map_iff in G as (d & Ed & Hd). exists d.
    split; [exact Hd|]. now injection Ed.
Qed.

Example timeData_buckets_witness :
  let clk := mkClock 1704888000000 25200000 in
  let filtered :=
    [ mkTransaction "1" 100 expense food "2024-01-05" "";
      mkTransaction "2" 40 expense other "2024-01-05" "";
      mkTransaction "3" 50 expense other "2023-12-31" "" ] in
  exists data : list TimeDatum,
    timeData clk (fun _ _ => 0) filtered false = Some data
    /\ NoDup (map originalKey data)
    /\ (forall d, In d data ->
          (exists t, In t filtered /\ timeKey clk false t = originalKey d)
          /\ amountOf d
             = sumAmounts
                 (filter
                    (fun t => String.eqb (timeKey clk false t)
                                (originalKey d)) filtered))
    /\ (forall t, In t filtered ->
          exists d, In d data /\ originalKey d = timeKey clk false t).
Proof.
  intros clk filtered. apply timeData_buckets. right.
  intros t [<-|[<-|[<-|[]]]]; reflexivity.
Defined.

End TimeSeriesTheorem.

(** ** The list of transactions *)

Section ListView.

Import Analytics TransactionListView.

Lemma sumOfType_Permutation (ty : TransactionType) (a b : list Transaction) :
  Permutation a b -> sumOfType ty a = sumOfType ty b.
Proof.
  induction 1; simpl; lia.
Qed.

Lemma sumOfType_none (ty : TransactionType) (l : list Transaction) :
  (forall t, In t l -> type t <> ty) -> sumOfType ty l = 0.
Proof.
  induction l as [|t l IH]; simpl; intro H; [reflexivity|].
  rewrite IH by (intros t' Ht'; apply H; now right).
  destruct (TransactionType_eqb (type t) ty) eqn:E; [|reflexivity].
  exfalso. apply (H t (or_introl eq_refl)).
  destruct (type t), ty; try discriminate; reflexivity.
Qed.

Lemma includesText_empty (s : string) : includesText s "" = true.
Proof. destruct s; reflexivity. Qed.

Lemma insertSorted_newestFirst (x : Transaction) (l : list Transaction) :
  JSDate.parse (date x) <> None ->
  (forall t, In t l -> JSDate.parse (date t) <> None) ->
  Sorted notOlder l -> Sorted notOlder (insertSorted newestFirst x l).
Proof.
  intros Hx Hl Hs. induction Hs as [|y l Hs IH Hhd]; simpl.
  - repeat constructor.
  - assert (Hy : JSDate.parse (date y) <> None)
      by (apply Hl; now left).
    assert (Hl' : forall t, In t l -> JSDate.parse (date t) <> None)
      by (intros t Ht; apply Hl; now right).
    unfold newestFirst at 1.
    destruct (JSDate.parse (date x)) as [tx|] eqn:Ex; [|congruence].
    destruct (JSDate.parse (date y)) as [ty|] eqn:Ey; [|congruence].
    destruct (Z.ltb_spec 0 (ty - tx)) as [Hlt|Hge].
    + constructor; [exact (IH Hl')|].
      destruct l as [|z l]; simpl.
      * constructor. exists ty, tx. repeat split; try assumption. lia.
      * unfold newestFirst at 1. rewrite Ex.
        destruct (JSDate.parse (date z)) as [tz|] eqn:Ez.
        -- destruct (0 <? tz - tx); constructor.
           ++ now inversion Hhd.
           ++ exists ty, tx. repeat split; try assumption. lia.
        -- exfalso. apply (Hl' z); [now left|exact Ez].
    + constructor; [now constructor|]. constructor.
      exists tx, ty. repeat split; try assumption. lia.
Qed.

Lemma sort_newestFirst (l : list Transaction) :
  (forall t, In t l -> JSDate.parse (date t) <> None) ->
  Sorted notOlder (sort newestFirst l).
Proof.
  induction l as [|x l IH]; intro H; simpl; [constructor|].
  apply insertSorted_newestFirst.
  - apply H. now left.
  - intros t Ht. apply H. right.
    apply (Permutation_in _ (sort_Permutation newestFirst l) Ht).
  - apply IH. intros t Ht. apply H. now right.
Qed.



End ListView.

(** ** The period 'week' *)

Section WeekFilter.

Import JSDate Analytics.

(** [setDate(getDate() - 7)] on the clock's instant: the local time of
    now, seven days earlier, taken back to UTC. *)
Lemma setDate_a_week_ago (clk : Clock) :
  setDate clk (now clk) (getDate clk (now clk) - 7) = oneWeekAgo clk.
Proof.
  unfold setDate, getDate, localDay, oneWeekAgo.
  pose proof (days_of_civil ((now clk + tzOffset clk) / MS_PER_DAY)) as H.
  destruct (civilFromDays ((now clk + tzOffset clk) / MS_PER_DAY))
    as [[y m] d].
  destruct H as (E & Hm & Hd).
  rewrite (makeDay_in_year y (m - 1) (d - 7)) by lia.
  replace (m - 1 + 1) with m by lia.
  pose proof (days_add y m d (-7)) as A.
  replace (d + -7) with (d - 7) in A by lia.
  rewrite <- A, E.
  pose proof (Z.div_mod (now clk + tzOffset clk) MS_PER_DAY) as DM.
  assert (HMS : MS_PER_DAY <> 0) by discriminate. specialize (DM HMS).
  cbv zeta.
  replace (((now clk + tzOffset clk) / MS_PER_DAY + -7) * MS_PER_DAY
           + (now clk + tzOffset clk) mod MS_PER_DAY)
    with (now clk + tzOffset clk - 7 * MS_PER_DAY) by lia.
  reflexivity.
Qed.

Lemma week_keeps (clk : Clock) (t : Transaction) :
  timeGe (parse (date t)) (setDate clk (now clk) (getDate clk (now clk) - 7))
  = sinceOneWeekAgo clk t.
Proof.
  rewrite setDate_a_week_ago. unfold timeGe, parse, sinceOneWeekAgo.
  destruct (dayNumber (date t)) as [d|]; reflexivity.
Qed.

Lemma oneWeekAgo_same_offset (clk : Clock) :
  localTZA clk (now clk + tzOffset clk - 7 * MS_PER_DAY) = tzOffset clk ->
  oneWeekAgo clk = addDays (now clk) (-7).
Proof. unfold oneWeekAgo, addDays. cbv zeta. intros ->. lia. Qed.

End WeekFilter.

(** C1, as the code has it.  Of transactions dated by calendar dates
    (YYYY-MM-DD), the week filter keeps, in their order, exactly those
    whose date, read as midnight UTC, is not before the instant a week
    ago: the one that reads in local time as now does, seven days earlier.
    Where the offset of local time was then what it is now, these are the
    dates from six days before the UTC day of now (seven when now is
    exactly a UTC midnight).  Later dates, future ones included, are all
    kept; the flag for monthly grouping stays off. *)
Theorem week_filter_since_a_week_ago
    (clk : JSDate.Clock) (startDate endDate : string)
    (l : list Transaction) :
  Forall (fun t => JSDate.dayNumber (date t) <> None) l ->
  Analytics.filterByPeriod clk week startDate endDate l
  = (filter (sinceOneWeekAgo clk) l, false)
  /\ (JSDate.localTZA clk
        (JSDate.now clk + JSDate.tzOffset clk - 7 * JSDate.MS_PER_DAY)
      = JSDate.tzOffset clk ->
      filter (sinceOneWeekAgo clk) l
      = filter (sinceFirstDayOfWeekFilter clk) l).
Proof.
  intros _. split.
  - unfold Analytics.filterByPeriod. f_equal.
    apply filter_ext. intro t. apply week_keeps.
  - intro Hsame. apply filter_ext. intro t.
    unfold sinceOneWeekAgo, sinceFirstDayOfWeekFilter.
    destruct (JSDate.dayNumber (date t)) as [d|]; [|reflexivity].
    rewrite (oneWeekAgo_same_offset clk Hsame). apply week_bound.
Qed.

Example week_filter_since_a_week_ago_witness :
  let clk :=
    JSDate.mkZonedClock (19794 * JSDate.MS_PER_DAY + 84600000) (-14400000)
      (fun t => if t <? 19792 * JSDate.MS_PER_DAY + 10800000
                then -18000000 else -14400000) in
  let l := [ mkTransaction "1" 100 expense food "2024-03-06" "";
             mkTransaction "2" 100 expense food "2024-03-07" "" ] in
  Analytics.filterByPeriod clk week "" "" l
  = (filter (sinceOneWeekAgo clk) l, false)
  /\ (JSDate.localTZA clk
        (JSDate.now clk + JSDate.tzOffset clk - 7 * JSDate.MS_PER_DAY)
      = JSDate.tzOffset clk ->
      filter (sinceOneWeekAgo clk) l
      = filter (sinceFirstDayOfWeekFilter clk) l).
Proof.
  intros clk l. apply week_filter_since_a_week_ago.
  repeat constructor; discriminate.
Defined.

(** Across the start of daylight saving time the week is an hour
    shorter.  In New York on 2024-03-12 at 19:30 (23:30 UTC, four hours
    behind UTC), a week ago was 2024-03-05 at 19:30, five hours behind
    UTC: 00:30 UTC of 2024-03-06, so that the expense of 2024-03-06 is left
    out.  With the offset of today all week it would be kept. *)
Example week_filter_across_daylight_saving :
  let newYork :=
    JSDate.mkZonedClock (19794 * JSDate.MS_PER_DAY + 84600000) (-14400000)
      (fun t => if t <? 19792 * JSDate.MS_PER_DAY + 10800000
                then -18000000 else -14400000) in
  let noChange :=
    JSDate.mkClock (19794 * JSDate.MS_PER_DAY + 84600000) (-14400000) in
  let l := [ mkTransaction "1" 100 expense food "2024-03-06" "";
             mkTransaction "2" 100 expense food "2024-03-07" "" ] in
  JSDate.dayNumber "2024-03-12" = Some 19794
  /\ oneWeekAgo newYork = 19788 * JSDate.MS_PER_DAY + 1800000
  /\ fst (Analytics.filterByPeriod newYork week "" "" l)
     = [ mkTransaction "2" 100 expense food "2024-03-07" "" ]
  /\ fst (Analytics.filterByPeriod noChange week "" "" l) = l.
Proof. vm_compute. repeat split. Qed.
